(** * Manzanillo digital twin: the wildfire decision pipeline

    A shallow embedding of the three engines of the repository

      - [src/fire_engine.py]      (class [FireSimulationEngine]),
      - [src/quantum_bridge.py]   (class [QuantumResourceSolver]),
      - [src/logistics_engine.py] (class [LogisticsRouter]),

    and of the page that runs them one after the other,

      - [src/pages/3_Simulation_Lab.py],

    followed by the properties of the specification that concern them.

    Conventions of the embedding.

    - Python floats are idealised: the fire engine computes over the real
      numbers [R] (it calls [math.cos] and [math.sin]); the allocator only
      adds and compares its scores, and computes them over the rationals
      [Q], so that it can be run.
    - Two computations are not idealised, because the rounding or the
      width of the numbers decides whether they return: the distance of
      the router, [_haversine], rounds after every operation, through the
      interface [Float64] of the doubles; the distance of the allocator,
      [_calculate_distance], wraps around as numpy's [int32] pixels do.
    - A numpy 2-D array is a list of rows.  All arrays of one simulation have
      the shape of the hazard raster, as [np.zeros_like] makes them.
    - The page is a script: the body of its button, its playback label and
      the loop of its manifest are functions of the session state
      [st.session_state], which they return with what they show.
    - The pseudo-random generators are inputs: the grid of draws of
      [np.random.rand] is a function of the step and of the cell, the draws
      of [random.uniform] are a stream read through a counter.
    - What OpenCV, rasterio, shapely, osmnx and networkx compute is not part
      of the repository: these libraries are interfaces (type classes), and
      every statement holds for all their implementations. *)

From Stdlib Require Import Reals Lia ZArith List String Ascii Bool QArith Lqa Lra.
From Stdlib Require Import DecimalString Permutation.
Import ListNotations.

(** ** Python values shared by the three engines *)

(** The exceptions that the modelled code can meet. *)
Inductive exception : Type :=
| ValueError
| KeyError
| LibraryError.

(** The outcome of a call: a returned value or a raised exception. *)
Inductive result (A : Type) : Type :=
| Return (a : A)
| Raise (e : exception).
Arguments Return {A} a.
Arguments Raise {A} e.

Definition bind {A B : Type} (m : result A) (k : A -> result B) : result B :=
  match m with
  | Return a => k a
  | Raise e => Raise e
  end.

Notation "x <- m ;; k" := (bind m (fun x => k))
  (at level 61, m at next level, right associativity).

(** [needle in hay] on Python strings: substring containment. *)
Fixpoint contains (needle hay : string) : bool :=
  match hay with
  | EmptyString => prefix needle EmptyString
  | String _ rest => prefix needle hay || contains needle rest
  end.

(** [int(x)] on a float: truncation toward zero. *)
Definition int (x : R) : Z :=
  if Rle_dec 0 x then Int_part x else (- Int_part (- x))%Z.

(** [math.radians] *)
Definition radians (deg : R) : R := (deg * PI / 180)%R.

(** ** src/fire_engine.py *)

Module FireSimulationEngine.
Open Scope R_scope.

(** *** numpy arrays *)

Definition ndarray (A : Type) : Type := list (list A).

Definition shape0 {A : Type} (g : ndarray A) : nat := List.length g.
Definition shape1 {A : Type} (g : ndarray A) : nat := List.length (hd [] g).

(** [g[i, j]], with [d] where the index is out of range. *)
Definition item {A : Type} (d : A) (g : ndarray A) (i j : nat) : A :=
  nth j (nth i g []) d.

Fixpoint imap_from {A B : Type} (f : nat -> A -> B) (n : nat) (l : list A)
  : list B :=
  match l with
  | [] => []
  | x :: l' => f n x :: imap_from f (S n) l'
  end.

Definition imap {A B : Type} (f : nat -> A -> B) (l : list A) : list B :=
  imap_from f 0 l.

(** An elementwise operation that knows the index of the cell. *)
Definition imap2 {A B : Type} (f : nat -> nat -> A -> B) (g : ndarray A)
  : ndarray B :=
  imap (fun i row => imap (fun j x => f i j x) row) g.

Definition zeros (h w : nat) : ndarray R := repeat (repeat 0 w) h.

Definition zeros_like (g : ndarray R) : ndarray R := map (map (fun _ => 0)) g.

(** [g[i, j] = v], for an index in range. *)
Definition set_item {A : Type} (g : ndarray A) (i j : nat) (v : A) : ndarray A :=
  imap2 (fun i' j' x => if Nat.eqb i' i && Nat.eqb j' j then v else x) g.

Definition Rgtb (x y : R) : bool := if Rlt_dec y x then true else false.

(** [x.astype(np.uint8)] for one value: truncate, then wrap to 8 bits. *)
Definition astype_uint8 (x : R) : Z := (int x mod 256)%Z.

(** [b.astype(float)] for one value. *)
Definition astype_float (b : bool) : R := if b then 1 else 0.

(** *** The engine *)

(** The affine transform of the raster: pixel (col, row) to (lon, lat). *)
Record Affine : Type := {
  a : R; b : R; c : R;
  d : R; e : R; f : R
}.

(** What [rasterio.open] finds at the hazard raster's path. *)
Inductive raster_file : Type :=
| Missing                                 (* os.path.exists is False   *)
| Unreadable                              (* rasterio.open raises      *)
| Truncated (t : Affine) (crs : string)   (* src.read(1) raises        *)
| Raster (t : Affine) (crs : string) (band1 : ndarray R).

Record engine : Type := {
  risk_map_path : string;
  transform : option Affine;
  crs : option string;
  risk_grid : ndarray R;
  base_spread_prob : R;
  wind_factor : R
}.

(** [data.max()]: none for an array without elements, where numpy raises. *)
Definition array_max (data : ndarray R) : option R :=
  match List.concat data with
  | [] => None
  | x :: l => Some (fold_left Rmax l x)
  end.

(** [_load_geospatial_data]: the transform, the reference system and the
    grid that the engine holds after the call. *)
Definition _load_geospatial_data (file : raster_file)
  : option Affine * option string * ndarray R :=
  match file with
  | Missing => (None, None, zeros 600 800)
  | Unreadable => (None, None, zeros 600 800)
  | Truncated t s => (Some t, Some s, zeros 600 800)
  | Raster t s data =>
      match array_max data with
      | None => (Some t, Some s, zeros 600 800)
      | Some m =>
          (Some t, Some s,
           if Rlt_dec 1 m then map (map (fun x => x / 255)) data else data)
      end
  end.

(** [FireSimulationEngine(risk_map_path)], on a file system [fs]. *)
Definition __init__ (fs : string -> raster_file) (path : string) : engine :=
  let '(t, s, grid) := _load_geospatial_data (fs path) in
  {| risk_map_path := path;
     transform := t;
     crs := s;
     risk_grid := grid;
     base_spread_prob := 0.15;
     wind_factor := 0.08 |}.

(** [get_lat_lon(x, y)]: the centre of pixel column [x], row [y]. *)
Definition get_lat_lon (self : engine) (x y : Z) : R * R :=
  match transform self with
  | None => (0, 0)
  | Some t =>
      let col := IZR x + 0.5 in
      let row := IZR y + 0.5 in
      let lon := a t * col + b t * row + c t in
      let lat := d t * col + e t * row + f t in
      (lat, lon)
  end.

(** [rasterio.transform.rowcol(t, x, y)]: the inverse of the transform,
    rounded down; it raises when the transform has no inverse. *)
Definition rowcol (t : Affine) (x y : R) : result (Z * Z) :=
  let det := a t * e t - b t * d t in
  if Req_dec_T det 0 then Raise LibraryError
  else
    let col := (e t * (x - c t) - b t * (y - f t)) / det in
    let row := (a t * (y - f t) - d t * (x - c t)) / det in
    Return (Int_part row, Int_part col).

(** [get_pixel_from_gps(lat, lon)]: the pair [(col, row)], or [None] for
    Python's [(None, None)]. *)
Definition get_pixel_from_gps (self : engine) (lat lon : R) : option (Z * Z) :=
  match transform self with
  | None => None
  | Some t =>
      match rowcol t lon lat with
      | Return (row, col) =>
          if (0 <=? row)%Z && (row <? Z.of_nat (shape0 (risk_grid self)))%Z
             && (0 <=? col)%Z && (col <? Z.of_nat (shape1 (risk_grid self)))%Z
          then Some (col, row)
          else None
      | Raise _ => None
      end
  end.

(** *** The spread kernel *)

(** [k[r, :] += x] *)
Definition add_row (r : nat) (x : R) (k : ndarray R) : ndarray R :=
  imap2 (fun i _ w => if Nat.eqb i r then w + x else w) k.

(** [k[:, c] += x] *)
Definition add_col (c : nat) (x : R) (k : ndarray R) : ndarray R :=
  imap2 (fun _ j w => if Nat.eqb j c then w + x else w) k.

Definition base_kernel : ndarray R :=
  [ [0.1; 0.1; 0.1];
    [0.1; 0.0; 0.1];
    [0.1; 0.1; 0.1] ].

Definition wind_u (self : engine) (speed direction : R) : R :=
  speed * cos (radians (direction - 90)) * wind_factor self.

Definition wind_v (self : engine) (speed direction : R) : R :=
  speed * sin (radians (direction - 90)) * wind_factor self.

Definition _generate_wind_kernel (self : engine) (speed direction : R)
  : ndarray R :=
  let u := wind_u self speed direction in
  let v := wind_v self speed direction in
  let k := base_kernel in
  let k := if Rlt_dec 0 v then add_row 2 v k else k in
  let k := if Rlt_dec v 0 then add_row 0 (Rabs v) k else k in
  let k := if Rlt_dec 0 u then add_col 2 u k else k in
  let k := if Rlt_dec u 0 then add_col 0 (Rabs u) k else k in
  k.

(** *** The simulation *)

(** The input of the convolution at a signed index, zero outside the array
    ([mode='constant'], [cval=0]). *)
Definition padded (g : ndarray R) (i j : Z) : R :=
  if (0 <=? i)%Z && (0 <=? j)%Z
  then item 0 g (Z.to_nat i) (Z.to_nat j)
  else 0.

Definition taps : list (nat * nat) :=
  [ (0, 0); (0, 1); (0, 2);
    (1, 0); (1, 1); (1, 2);
    (2, 0); (2, 1); (2, 2) ]%nat.

(** [scipy.ndimage.convolve(input, kernel, mode='constant')] for a 3x3
    kernel: the kernel is mirrored, weight [k[a, b]] meets the input at
    [(i + 1 - a, j + 1 - b)]. *)
Definition convolve (input kernel : ndarray R) : ndarray R :=
  imap2 (fun i j _ =>
    fold_right
      (fun '(ka, kb) acc =>
         item 0 kernel ka kb
         * padded input (Z.of_nat i + 1 - Z.of_nat ka)
                        (Z.of_nat j + 1 - Z.of_nat kb)
         + acc)
      0 taps) input.

Definition frame : Type := ndarray Z.

(** [(current_state * 255).astype(np.uint8)] *)
Definition snapshot (current_state : ndarray R) : frame :=
  map (map (fun x => astype_uint8 (x * 255))) current_state.

(** One pass of the loop body; [random_roll] is this step's array of draws. *)
Definition spread_step (self : engine) (kernel : ndarray R)
  (random_roll : nat -> nat -> R) (current_state : ndarray R) : ndarray R :=
  let neighbor_influence := convolve current_state kernel in
  let prob_map :=
    imap2 (fun i j x => x * (item 0 (risk_grid self) i j + 0.1))
          neighbor_influence in
  let new_ignitions :=
    imap2 (fun i j p =>
             Rgtb p (random_roll i j) && Rgtb (item 0 (risk_grid self) i j) 0.1)
          prob_map in
  imap2 (fun i j x => Rmax x (astype_float (item false new_ignitions i j)))
        current_state.

(** [for _ in range(steps)]: the frames appended by the loop, from step
    number [t] on. *)
Fixpoint spread_loop (self : engine) (kernel : ndarray R)
  (rand : nat -> nat -> nat -> R) (steps t : nat) (current_state : ndarray R)
  : list frame :=
  match steps with
  | O => []
  | S steps' =>
      let next := spread_step self kernel (rand t) current_state in
      snapshot next :: spread_loop self kernel rand steps' (S t) next
  end.

(** The grid after the guarded assignment [fire_grid[start_y, start_x] = 1.0]. *)
Definition ignite (self : engine) (start_x start_y : Z) : ndarray R :=
  let fire_grid := zeros_like (risk_grid self) in
  if (0 <=? start_y)%Z && (start_y <? Z.of_nat (shape0 fire_grid))%Z
     && (0 <=? start_x)%Z && (start_x <? Z.of_nat (shape1 fire_grid))%Z
  then set_item fire_grid (Z.to_nat start_y) (Z.to_nat start_x) 1
  else fire_grid.

(** The dictionary [{'frames': frames}]. *)
Record simulation : Type := { frames : list frame }.

(** [run_simulation]; [duration_hours] is the integer of the caller's
    slider, so that [int(duration_hours * 6)] is the product itself, and
    [range] of a negative number is empty. *)
Definition run_simulation (self : engine) (start_x start_y : Z)
  (wind_speed wind_dir : R) (duration_hours : Z)
  (rand : nat -> nat -> nat -> R) : simulation :=
  let fire_grid := ignite self start_x start_y in
  let kernel := _generate_wind_kernel self wind_speed wind_dir in
  let steps := (duration_hours * 6)%Z in
  let current_state := fire_grid in
  {| frames :=
       snapshot current_state
       :: spread_loop self kernel rand (Z.to_nat steps) 0 current_state |}.

(** *** Tactical targets *)

(** A contour vertex [(x, y)], in pixels. *)
Definition point : Type := (Z * Z)%type.
Definition contour : Type := list point.

Record Moments : Type := { m00 : R; m10 : R; m01 : R }.

(** The functions of OpenCV that [analyze_tactics] calls. *)
Class OpenCV : Type := {
  findContours : frame -> list contour;  (* RETR_EXTERNAL, CHAIN_APPROX_SIMPLE *)
  contourArea : contour -> R;
  moments : contour -> Moments;
  arcLength : contour -> R               (* closed = True *)
}.

(** [max(first :: rest, key=key)]: the first element of greatest key. *)
Definition max_by {A : Type} (key : A -> R) (first : A) (rest : list A) : A :=
  fold_left (fun best x => if Rlt_dec (key best) (key x) then x else best)
            rest first.

(** [np.argmax] and [np.argmin] scan from the left and keep the first
    extremum; [i] is the index of the head of [l]. *)
Fixpoint argmax_from (l : list R) (i best_i : nat) (best : R) : nat :=
  match l with
  | [] => best_i
  | x :: l' =>
      if Rlt_dec best x then argmax_from l' (S i) i x
      else argmax_from l' (S i) best_i best
  end.

Definition argmax (l : list R) : result nat :=
  match l with
  | [] => Raise ValueError
  | x :: l' => Return (argmax_from l' 1 0 x)
  end.

Fixpoint argmin_from (l : list R) (i best_i : nat) (best : R) : nat :=
  match l with
  | [] => best_i
  | x :: l' =>
      if Rlt_dec x best then argmin_from l' (S i) i x
      else argmin_from l' (S i) best_i best
  end.

Definition argmin (l : list R) : result nat :=
  match l with
  | [] => Raise ValueError
  | x :: l' => Return (argmin_from l' 1 0 x)
  end.

(** [l[::step]]; [skip] elements are dropped before the next one is kept. *)
Fixpoint stride_from {A : Type} (step skip : nat) (l : list A) : list A :=
  match l with
  | [] => []
  | x :: l' =>
      match skip with
      | O => x :: stride_from step (Nat.pred step) l'
      | S skip' => stride_from step skip' l'
      end
  end.

Definition stride {A : Type} (step : nat) (l : list A) : list A :=
  stride_from step 0 l.

(** [np.dot(pts - [cx, cy], [wx, wy])] *)
Definition project (cx cy : Z) (wx wy : R) (pts : contour) : list R :=
  map (fun '(x, y) => IZR (x - cx) * wx + IZR (y - cy) * wy) pts.

Record Metrics : Type := {
  perimeter_m : Z;
  total_liters : Z;
  sector_loads : list (string * Z)
}.

Record tactics : Type := {
  targets : list (string * point);
  centroid : point;
  fire_perimeter_gps : list (R * R);
  metrics : Metrics
}.

Section Tactics.
Context {cv2 : OpenCV}.

(** [analyze_tactics]; [Return None] is Python's [None]. *)
Definition analyze_tactics (self : engine) (fire_mask : frame)
  (wind_speed wind_dir : R) : result (option tactics) :=
  match findContours fire_mask with
  | [] => Return None
  | first :: rest =>
      let largest := max_by contourArea first rest in
      let M := moments largest in
      if Req_dec_T (m00 M) 0 then Return None
      else
        let cx := int (m10 M / m00 M) in
        let cy := int (m01 M / m00 M) in
        let gps_polygon :=
          map (fun '(x, y) => get_lat_lon self x y) (stride 5 largest) in
        let perimeter_pixels := arcLength largest in
        let perimeter_meters := perimeter_pixels * 20.0 in
        let total_retardant := perimeter_meters * 5.0 in
        let loads :=
          [ ("Alpha Head"%string, int (total_retardant * 0.50));
            ("Bravo Flank"%string, int (total_retardant * 0.25));
            ("Charlie Flank"%string, int (total_retardant * 0.25)) ] in
        let pts := largest in
        let rad := radians (wind_dir - 90) in
        let vx := cos rad in
        let vy := sin rad in
        let projections := project cx cy vx vy pts in
        alpha_idx <- argmax projections ;;
        let px := - vy in
        let py := vx in
        let cross_prods := project cx cy px py pts in
        bravo_idx <- argmin cross_prods ;;
        charlie_idx <- argmax cross_prods ;;
        Return (Some
          {| targets :=
               [ ("Alpha Head"%string, nth alpha_idx pts (0, 0)%Z);
                 ("Bravo Flank"%string, nth bravo_idx pts (0, 0)%Z);
                 ("Charlie Flank"%string, nth charlie_idx pts (0, 0)%Z) ];
             centroid := (cx, cy);
             fire_perimeter_gps := gps_polygon;
             metrics :=
               {| perimeter_m := int perimeter_meters;
                  total_liters := int total_retardant;
                  sector_loads := loads |} |})
  end.

End Tactics.

End FireSimulationEngine.

(** ** src/quantum_bridge.py *)

Module QuantumResourceSolver.
Open Scope Q_scope.

(** A fleet unit, the dictionary with keys ["id"], ["type"], ["specialty"]. *)
Record asset : Type := {
  id : string;
  type : string;
  specialty : string
}.

(** The roster that [__init__] installs. *)
Definition roster : list asset :=
  [ {| id := "TANKER-01"; type := "Aerial"; specialty := "Head" |};
    {| id := "ENGINE-A";  type := "Ground"; specialty := "Flank" |};
    {| id := "ENGINE-B";  type := "Ground"; specialty := "Flank" |};
    {| id := "DRONE-X1";  type := "Intel";  specialty := "Spot" |};
    {| id := "CREW-ZULU"; type := "Ground"; specialty := "Flank" |} ].

(** The state of a solver object: its attribute [self.fleet]. *)
Record solver : Type := { fleet : list asset }.

Definition __init__ : solver := {| fleet := roster |}.

(** The value that numpy keeps of an integer result in an [int32]: the
    pixels of a target are [numpy.int32], whose arithmetic wraps around. *)
Definition int32 (z : Z) : Z := ((z + 2 ^ 31) mod 2 ^ 32 - 2 ^ 31)%Z.

(** [_calculate_distance], on two pixels; [math.sqrt] raises [ValueError]
    below zero. *)
Definition _calculate_distance (p1 p2 : Z * Z) : result R :=
  let dx := int32 (fst p1 - fst p2) in
  let dy := int32 (snd p1 - snd p2) in
  let x := IZR (int32 (int32 (dx ^ 2) + int32 (dy ^ 2))) in
  if Rlt_dec x 0%R then Raise ValueError else Return (sqrt x).

Record assignment : Type := {
  asset_id : string;
  target : string;
  coords : Z * Z
}.

(** [best_score], which starts at [-float('inf')]. *)
Inductive score_bound : Type :=
| NegInf
| Finite (q : Q).

(** [score > best_score] *)
Definition exceeds (score : Q) (best : score_bound) : bool :=
  match best with
  | NegInf => true
  | Finite q => if Qlt_le_dec q score then true else false
  end.

(** The variables of the inner loop, and the number of draws made so far
    from the generator. *)
Record search : Type := {
  best_asset : option asset;
  best_score : score_bound;
  drawn : nat
}.

(** The body of [for asset in self.fleet]; [uniform n] is the value of the
    [n]-th call of [random.uniform(-5, 5)]. *)
Definition consider (uniform : nat -> Q) (t_name : string) (st : search)
  (candidate : asset) : search :=
  let score := 0 in
  let score :=
    if contains (specialty candidate) t_name then score + 50 else score in
  let score :=
    if String.eqb (type candidate) "Aerial" && contains "Head" t_name
    then score + 30 else score in
  let score := score + uniform (drawn st) in
  if exceeds score (best_score st)
  then {| best_asset := Some candidate;
          best_score := Finite score;
          drawn := S (drawn st) |}
  else {| best_asset := best_asset st;
          best_score := best_score st;
          drawn := S (drawn st) |}.

(** The variables of the outer loop: the list built so far, [self.fleet],
    and the draws made. *)
Record progress : Type := {
  solution : list assignment;
  pool : list asset;
  used : nat
}.

(** The body of [for t_name, t_coords in targets.items()]. *)
Definition assign (uniform : nat -> Q) (st : progress)
  (t : string * (Z * Z)) : progress :=
  let '(t_name, t_coords) := t in
  let found :=
    fold_left (consider uniform t_name) (pool st)
      {| best_asset := None; best_score := NegInf; drawn := used st |} in
  match best_asset found with
  | Some best =>
      {| solution :=
           solution st ++ [ {| asset_id := id best;
                               target := t_name;
                               coords := t_coords |} ];
         pool :=
           filter (fun x => negb (String.eqb (id x) (id best))) (pool st);
         used := drawn found |}
  | None =>
      {| solution := solution st; pool := pool st; used := drawn found |}
  end.

(** [optimize_response]: the returned list and the solver after the call.
    [targets] lists the items of the dictionary in their order. *)
Definition optimize_response (self : solver)
  (targets : list (string * (Z * Z))) (uniform : nat -> Q)
  : list assignment * solver :=
  let final :=
    fold_left (assign uniform) targets
      {| solution := []; pool := fleet self; used := 0 |} in
  (* Reset fleet for next run *)
  let self' := __init__ in
  (solution final, self').

End QuantumResourceSolver.

(** ** src/logistics_engine.py *)

Module LogisticsRouter.
Open Scope R_scope.

(** [d[key]] on a dictionary with string keys, which raises [KeyError]. *)
Fixpoint getitem {V : Type} (dict : list (string * V)) (key : string)
  : result V :=
  match dict with
  | [] => Raise KeyError
  | (k, v) :: rest => if String.eqb k key then Return v else getitem rest key
  end.

(** [key in d] *)
Definition has_key {V : Type} (dict : list (string * V)) (key : string) : bool :=
  existsb (fun kv => String.eqb (fst kv) key) dict.

Record base : Type := { lat : R; lon : R; name : string }.

Definition BASES : list (string * base) :=
  [ ("TANKER",
     {| lat := 19.1438; lon := -104.5596;
        name := "Manzanillo Intl Airport (ZLO)" |});
    ("ENGINE-A",
     {| lat := 19.0520; lon := -104.3140;
        name := "Bomberos Manzanillo Central" |});
    ("ENGINE-B",
     {| lat := 19.1150; lon := -104.3390;
        name := "Station 2 - Santiago" |});
    ("CREW-ZULU",
     {| lat := 19.0980; lon := -104.2850;
        name := "Foward Ops Base" |});
    ("DRONE-X1",
     {| lat := 19.0600; lon := -104.2950;
        name := "Port Command" |}) ]%string.

Definition SPEEDS : list (string * R) :=
  [ ("Air", 250.0); ("Road", 50.0); ("Offroad", 15.0) ]%string.

(** The dictionary that both kinds of route return. *)
Record route : Type := {
  origin : string;
  distance_km : R;
  duration_min : Z;
  path : list (R * R);
  type : string
}.

(** [round(x)] to the nearest integer, ties to the even one. *)
Definition round_half_even (x : R) : Z :=
  let n := Int_part x in
  let r := x - IZR n in
  if Rlt_dec r (1 / 2) then n
  else if Rlt_dec (1 / 2) r then (n + 1)%Z
  else if Z.even n then n else (n + 1)%Z.

(** [round(x, 2)] *)
Definition round2 (x : R) : R := IZR (round_half_even (x * 100)) / 100.

(** *** Double precision

    Python's floats are IEEE doubles.  [RN x] is the double that an
    arithmetic operation delivers when its exact result is [x]; the
    functions of [math] are those of the C library.  Together they are an
    interface, as the other libraries are, and every statement holds for
    all its implementations unless it names one.  The rounding is written
    out in [_haversine], where it decides between a return and an
    exception; elsewhere the floats are idealised. *)
Class Float64 : Type := {
  RN : R -> R;
  math_radians : R -> R;
  math_sin : R -> R;
  math_cos : R -> R;
  math_atan2 : R -> R -> R
}.

(** [math.sqrt], which raises [ValueError] below zero. *)
Definition math_sqrt {fp : Float64} (x : R) : result R :=
  if Rlt_dec x 0 then Raise ValueError else Return (RN (sqrt x)).

(** The function [atan2] of the reals. *)
Definition atan2 (y x : R) : R :=
  if Rlt_dec 0 x then atan (y / x)
  else if Rlt_dec x 0 then
    (if Rle_dec 0 y then atan (y / x) + PI else atan (y / x) - PI)
  else if Rlt_dec 0 y then PI / 2
  else if Rlt_dec y 0 then - (PI / 2)
  else 0.

(** The value of [a] in [_haversine], operation by operation. *)
Definition haversine_a {fp : Float64} (lat1 lon1 lat2 lon2 : R) : R :=
  let dlat := math_radians (RN (lat2 - lat1)) in
  let dlon := math_radians (RN (lon2 - lon1)) in
  RN (RN (math_sin (RN (dlat / 2)) ^ 2)
      + RN (RN (math_cos (math_radians lat1) * math_cos (math_radians lat2))
            * RN (math_sin (RN (dlon / 2)) ^ 2))).

Definition _haversine {fp : Float64} (lat1 lon1 lat2 lon2 : R) : result R :=
  let radius := 6371 in
  let a := haversine_a lat1 lon1 lat2 lon2 in
  sa <- math_sqrt a ;;
  sb <- math_sqrt (RN (1 - a)) ;;
  let c := RN (2 * math_atan2 sa sb) in
  Return (RN (radius * c)).

Definition _make_direct_route {fp : Float64} (start : base)
  (lat_target lon_target : R) (speed_kmh : R) (mode : string)
  : result route :=
  dist_km <- _haversine (lat start) (lon start) lat_target lon_target ;;
  Return
    {| origin := name start;
       distance_km := round2 dist_km;
       duration_min := Z.max 1 (int (dist_km / speed_kmh * 60) + 2);
       path := [ (lat start, lon start); (lat_target, lon_target) ];
       type := mode |}.

(** What the router needs of shapely, osmnx and networkx.  A call that can
    fail in the library returns a [result]. *)
Class RoadLibraries : Type := {
  Graph : Type;
  node : Type;
  node_eqb : node -> node -> bool;
  (** [G.nodes(data=True)]: every node with its attributes [(y, x)] *)
  nodes : Graph -> list (node * (R * R));
  (** [G.subgraph(keep)] *)
  subgraph : Graph -> list node -> Graph;
  (** [G.nodes[n]], read as [(y, x)] *)
  node_data : Graph -> node -> result (R * R);
  (** [ox.distance.nearest_nodes(G, X, Y)] *)
  nearest_nodes : Graph -> R -> R -> result node;
  (** [nx.shortest_path(G, source, target, weight='length')] *)
  shortest_path : Graph -> node -> node -> result (list node);
  (** [nx.path_weight(G, path, weight='length')] *)
  path_weight : Graph -> list node -> result R;
  polygon : Type;
  (** [Polygon(shell)] *)
  Polygon : list (R * R) -> result polygon;
  (** [poly.buffer(distance)] *)
  buffer : polygon -> R -> result polygon;
  is_empty : polygon -> bool;
  (** [poly.contains(Point(px, py))] *)
  contains_point : polygon -> R -> R -> result bool
}.

(** What [_load_network] finds at the path of the road graph. *)
Inductive graph_file {libs : RoadLibraries} : Type :=
| NoGraphFile                 (* os.path.exists is False *)
| BadGraphFile                (* ox.load_graphml raises  *)
| GraphFile (g : Graph).

Section Router.
Context {fp : Float64} {libs : RoadLibraries}.

(** The state of a router object: its attribute [self.graph]. *)
Record router : Type := { graph : option Graph }.

Definition _load_network (file : graph_file) : option Graph :=
  match file with
  | NoGraphFile => None
  | BadGraphFile => None
  | GraphFile g => Some g
  end.

Definition __init__ (file : graph_file) : router :=
  {| graph := _load_network file |}.

(** [for x in l: if test(x): keep x], where [test] can raise. *)
Fixpoint filter_result {A : Type} (test : A -> result bool) (l : list A)
  : result (list A) :=
  match l with
  | [] => Return []
  | x :: l' =>
      keep <- test x ;;
      rest <- filter_result test l' ;;
      Return (if keep then x :: rest else rest)
  end.

(** [for x in l: out.append(g(x))], where [g] can raise. *)
Fixpoint map_result {A B : Type} (g : A -> result B) (l : list A)
  : result (list B) :=
  match l with
  | [] => Return []
  | x :: l' =>
      y <- g x ;;
      rest <- map_result g l' ;;
      Return (y :: rest)
  end.

(** The inner [try] of the smart route: the graph to route on when the
    block ends normally. *)
Definition avoid (g : Graph) (avoid_polygon : list (R * R)) : result Graph :=
  poly <- Polygon avoid_polygon ;;
  buffered_poly <- buffer poly (-0.0001) ;;
  if negb (is_empty buffered_poly) then
    unsafe <- filter_result
                (fun nd => contains_point buffered_poly
                             (fst (snd nd)) (snd (snd nd)))
                (nodes g) ;;
    let unsafe_nodes := map fst unsafe in
    match unsafe_nodes with
    | [] => Return g
    | _ :: _ =>
        Return (subgraph g
                  (filter (fun n => negb (existsb (node_eqb n) unsafe_nodes))
                          (map fst (nodes g))))
    end
  else Return g.

(** The outer [try] of the smart route, up to its [return]. *)
Definition smart_route (g : Graph) (start : base) (lat_target lon_target : R)
  (avoid_polygon : option (list (R * R))) : result route :=
  let routing_graph :=
    match avoid_polygon with
    | Some poly =>
        (* a non-empty list with more than three vertices *)
        if (3 <? List.length poly)%nat then
          match avoid g poly with
          | Return g' => g'
          | Raise _ => g          (* except: pass *)
          end
        else g
    | None => g
    end in
  orig_node <- nearest_nodes routing_graph (lon start) (lat start) ;;
  dest_node <- nearest_nodes routing_graph lon_target lat_target ;;
  node_path <- shortest_path routing_graph orig_node dest_node ;;
  road_dist_m <- path_weight routing_graph node_path ;;
  inner <- map_result (node_data routing_graph) node_path ;;
  let path_coords :=
    (lat start, lon start) :: inner ++ [ (lat_target, lon_target) ] in
  last_node <- node_data routing_graph dest_node ;;
  hike_km <- _haversine (fst last_node) (snd last_node)
                        lat_target lon_target ;;
  let total_km := road_dist_m / 1000.0 + hike_km in
  road_speed <- getitem SPEEDS "Road" ;;
  offroad_speed <- getitem SPEEDS "Offroad" ;;
  let duration :=
    int (road_dist_m / 1000.0 / road_speed * 60
         + hike_km / offroad_speed * 60 + 2) in
  Return
    {| origin := name start;
       distance_km := round2 total_km;
       duration_min := Z.max 1 duration;
       path := path_coords;
       type := "Road (Smart)" |}.

(** [if self.graph:] a graph counts as true when it has a node. *)
Definition usable (g : option Graph) : option Graph :=
  match g with
  | Some g' => match nodes g' with [] => None | _ :: _ => Some g' end
  | None => None
  end.

(** The key of [BASES] for an asset id. *)
Definition base_key_of (asset_id : string) : string :=
  let base_key := if contains "TANKER" asset_id then "TANKER"%string
                  else asset_id in
  if negb (has_key BASES base_key) then
    if contains "ENGINE" asset_id then "ENGINE-A"%string
    else if contains "CREW" asset_id then "CREW-ZULU"%string
    else "ENGINE-A"%string
  else base_key.

Definition calculate_route (self : router) (lat_target lon_target : R)
  (asset_id : string) (avoid_polygon : option (list (R * R)))
  : result route :=
  let base_key := base_key_of asset_id in
  start <- getitem BASES base_key ;;
  (* 1. AIR UNITS *)
  if contains "TANKER" asset_id || contains "DRONE" asset_id then
    air <- getitem SPEEDS "Air" ;;
    _make_direct_route start lat_target lon_target air "Air Direct"
  else
    (* 2. GROUND UNITS *)
    let fallback :=
      offroad <- getitem SPEEDS "Offroad" ;;
      _make_direct_route start lat_target lon_target offroad
                         "Direct (Nav Fail)" in
    match usable (graph self) with
    | Some g =>
        match smart_route g start lat_target lon_target avoid_polygon with
        | Return r => Return r
        | Raise _ => fallback     (* except Exception: pass *)
        end
    | None => fallback
    end.

End Router.

End LogisticsRouter.

(** ** src/pages/3_Simulation_Lab.py *)

Module SimulationLab.
Import FireSimulationEngine.
Open Scope R_scope.

(** *** The strategic sort *)

(** An entry of [allocs]: the dictionary that the solver appended, with the
    key ["priority"] that the page adds to it. *)
Record allocation : Type := {
  asset_id : string;
  target : string;
  coords : Z * Z;
  priority : Z
}.

(** The body of [for a in allocs]. *)
Definition prioritise (a : QuantumResourceSolver.assignment) : allocation :=
  {| asset_id := QuantumResourceSolver.asset_id a;
     target := QuantumResourceSolver.target a;
     coords := QuantumResourceSolver.coords a;
     priority :=
       if contains "Alpha" (QuantumResourceSolver.target a) then 1
       else if contains "TANKER" (QuantumResourceSolver.asset_id a) then 0
       else 2 |}.

(** [next((i for i, d in enumerate(l) if test(d)), None)], counting from
    [i]. *)
Fixpoint next_index_from {A : Type} (test : A -> bool) (l : list A) (i : nat)
  : option nat :=
  match l with
  | [] => None
  | d :: l' => if test d then Some i else next_index_from test l' (S i)
  end.

Definition next_index {A : Type} (test : A -> bool) (l : list A)
  : option nat :=
  next_index_from test l 0.

(** [allocs[i]['target'] = t] *)
Definition set_target (allocs : list allocation) (i : nat) (t : string)
  : list allocation :=
  imap (fun k x =>
          if Nat.eqb k i
          then {| asset_id := asset_id x;
                  target := t;
                  coords := coords x;
                  priority := priority x |}
          else x)
       allocs.

(** Lines 153 to 168: the priorities, then the exchange of the targets of
    the first tanker and of the first entry for Alpha.  The two indices come
    from [enumerate(allocs)], so that both subscripts are in range. *)
Definition strategic_sort (allocs : list QuantumResourceSolver.assignment)
  : list allocation :=
  let allocs := map prioritise allocs in
  let tanker_idx :=
    next_index (fun d => contains "TANKER" (asset_id d)) allocs in
  let alpha_idx_alloc :=
    next_index (fun d => contains "Alpha" (target d)) allocs in
  match tanker_idx, alpha_idx_alloc with
  | Some tanker_idx, Some alpha_idx_alloc =>
      if negb (Nat.eqb tanker_idx alpha_idx_alloc) then
        match nth_error allocs tanker_idx, nth_error allocs alpha_idx_alloc with
        | Some tanker, Some alpha =>
            (* SWAP Targets *)
            let t_target := target tanker in
            let a_target := target alpha in
            let allocs := set_target allocs tanker_idx a_target in
            set_target allocs alpha_idx_alloc t_target
        | _, _ => allocs
        end
      else allocs
  | _, _ => allocs
  end.

(** *** The session *)

(** The keys of [st.session_state] that the page reads and writes. *)
Record session_state : Type := {
  lat_input : R;
  lon_input : R;
  live_wind_speed : R;
  live_wind_dir : R;
  sim_active : bool;
  sim_frames : list frame;
  sim_tactics : option tactics;
  sim_allocations : option (list allocation);
  selected_unit_id : option string
}.

(** The state of a new session (lines 32 to 40). *)
Definition new_session : session_state :=
  {| lat_input := 19.060;
     lon_input := -104.295;
     live_wind_speed := 15.0;
     live_wind_dir := 225.0;
     sim_active := false;
     sim_frames := [];
     sim_tactics := None;
     sim_allocations := None;
     selected_unit_id := None |}.

(** [st.success(text)] and [st.error(text)] *)
Inductive notice : Type :=
| success (text : string)
| error (text : string).

(** What a press of the button leaves: the session, the solver, and the
    notice shown ([None] when nothing is shown) or the exception that left
    the script. *)
Record run : Type := {
  session : session_state;
  quantum : QuantumResourceSolver.solver;
  shown : result (option notice)
}.

Section Page.
Context {cv2 : OpenCV} {fp : LogisticsRouter.Float64}
        {libs : LogisticsRouter.RoadLibraries}.

(** [load_engines], on a file system [fs] that holds the road graph
    [roads]: three times [None] when the raster is not there. *)
Definition load_engines (fs : string -> raster_file)
  (roads : LogisticsRouter.graph_file) (RISK_MAP_PATH : string)
  : option engine * option QuantumResourceSolver.solver
    * option LogisticsRouter.router :=
  match fs RISK_MAP_PATH with
  | Missing => (None, None, None)
  | _ =>
      (Some (FireSimulationEngine.__init__ fs RISK_MAP_PATH),
       Some QuantumResourceSolver.__init__,
       Some (LogisticsRouter.__init__ roads))
  end.

(** The body of [if st.button("EXECUTE SIMULATION")], lines 138 to 174.
    [new_ws], [new_wd] and [dur] are the values of the three sliders;
    [engine] is [None] when the page found no raster. *)
Definition execute_simulation (engine : option engine)
  (quantum : QuantumResourceSolver.solver) (st : session_state)
  (new_ws : R) (new_wd : Z) (dur : Z)
  (rand : nat -> nat -> nat -> R) (uniform : nat -> Q) : run :=
  match engine with
  | None => {| session := st; quantum := quantum; shown := Return None |}
  | Some engine =>
      match get_pixel_from_gps engine (lat_input st) (lon_input st) with
      | Some (px, py) =>
          (* [if px:] an integer counts as true when it is not zero *)
          if negb (px =? 0)%Z then
            let res :=
              run_simulation engine px py (live_wind_speed st)
                             (live_wind_dir st) dur rand in
            let st :=
              {| lat_input := lat_input st;
                 lon_input := lon_input st;
                 live_wind_speed := live_wind_speed st;
                 live_wind_dir := live_wind_dir st;
                 sim_active := true;
                 sim_frames := frames res;
                 sim_tactics := sim_tactics st;
                 sim_allocations := sim_allocations st;
                 selected_unit_id := selected_unit_id st |} in
            match analyze_tactics engine (last (frames res) []) new_ws
                                  (IZR new_wd) with
            | Raise e =>
                {| session := st; quantum := quantum; shown := Raise e |}
            | Return tactics =>
                let st :=
                  {| lat_input := lat_input st;
                     lon_input := lon_input st;
                     live_wind_speed := live_wind_speed st;
                     live_wind_dir := live_wind_dir st;
                     sim_active := sim_active st;
                     sim_frames := sim_frames st;
                     sim_tactics := tactics;
                     sim_allocations := sim_allocations st;
                     selected_unit_id := selected_unit_id st |} in
                match tactics with
                | Some plan =>
                    let ts := targets plan in
                    let '(allocs, quantum) :=
                      QuantumResourceSolver.optimize_response quantum ts
                                                              uniform in
                    let allocs := strategic_sort allocs in
                    {| session :=
                         {| lat_input := lat_input st;
                            lon_input := lon_input st;
                            live_wind_speed := live_wind_speed st;
                            live_wind_dir := live_wind_dir st;
                            sim_active := sim_active st;
                            sim_frames := sim_frames st;
                            sim_tactics := sim_tactics st;
                            sim_allocations := Some allocs;
                            selected_unit_id := None |};
                       quantum := quantum;
                       shown := Return (Some (success "Done.")) |}
                | None =>
                    {| session := st;
                       quantum := quantum;
                       shown := Return (Some (success "Done.")) |}
                end
            end
          else
            {| session := st;
               quantum := quantum;
               shown := Return (Some (error "Out of bounds.")) |}
      | None =>
          {| session := st;
             quantum := quantum;
             shown := Return (Some (error "Out of bounds.")) |}
      end
  end.

(** *** The playback clock *)

(** [f"{n:02d}"] for a number that is not negative. *)
Definition format_02d (n : nat) : string :=
  let digits := NilEmpty.string_of_uint (Nat.to_uint n) in
  if (String.length digits <? 2)%nat then ("0" ++ digits)%string else digits.

(** [time_label] for the frame [idx] (line 204). *)
Definition time_label (idx : nat) : string :=
  ("T+" ++ format_02d (idx * 10 / 60) ++ ":"
        ++ format_02d (idx * 10 mod 60))%string.

(** *** The deployment manifest *)

(** The exceptions of the tab: those of the engines, and the [TypeError] of
    a subscript on [None]. *)
Inductive page_error : Type :=
| TypeError
| Engine (e : exception).

Inductive outcome (A : Type) : Type :=
| Rendered (a : A)
| Crashed (err : page_error).
Arguments Rendered {A} a.
Arguments Crashed {A} err.

(** What the loop computes for one entry of the manifest. *)
Record deployment : Type := {
  unit_label : string * string;      (* asset_id, target *)
  drop : R * R;                      (* t_lat, t_lon *)
  route_data : LogisticsRouter.route;
  sector_load : Z
}.

(** [d.get(key, default)] *)
Definition get {V : Type} (dict : list (string * V)) (key : string)
  (default : V) : V :=
  match LogisticsRouter.getitem dict key with
  | Return v => v
  | Raise _ => default
  end.

(** The body of [for a in st.session_state['sim_allocations']], lines 242
    to 246. *)
Definition deploy (engine : engine) (logistics : LogisticsRouter.router)
  (ts : list (string * point)) (loads : list (string * Z))
  (fire_perimeter : option (list (R * R))) (a : allocation)
  : result deployment :=
  t_grid <- LogisticsRouter.getitem ts (target a) ;;
  let '(t_lat, t_lon) := get_lat_lon engine (fst t_grid) (snd t_grid) in
  route <- LogisticsRouter.calculate_route logistics t_lat t_lon (asset_id a)
             fire_perimeter ;;
  let sector_load := get loads (target a) 0%Z in
  Return {| unit_label := (asset_id a, target a);
            drop := (t_lat, t_lon);
            route_data := route;
            sector_load := sector_load |}.

(** The list under "Deployment Manifest" of the third tab, lines 222 to
    246; nothing is listed when the guard of the tab is false. *)
Definition deployment_manifest (engine : engine)
  (logistics : LogisticsRouter.router) (st : session_state)
  : outcome (list deployment) :=
  match sim_active st, sim_allocations st with
  | true, Some (first :: rest) =>
      match sim_tactics st with
      | None => Crashed TypeError      (* None['targets'] *)
      | Some plan =>
          let ts := targets plan in
          let loads := sector_loads (metrics plan) in
          let fire_perimeter := Some (fire_perimeter_gps plan) in
          match LogisticsRouter.map_result
                  (deploy engine logistics ts loads fire_perimeter)
                  (first :: rest) with
          | Return rows => Rendered rows
          | Raise e => Crashed (Engine e)
          end
      end
  | _, _ => Rendered []
  end.

End Page.

Arguments Rendered {A} a.
Arguments Crashed {A} err.

End SimulationLab.

(** * Vocabulary of the fire engine's properties *)

Module FireVocabulary.
Import FireSimulationEngine.
Open Scope R_scope.

(** The cell [(i, j)] of an array, when the array has one. *)
Definition cell {A : Type} (g : ndarray A) (i j : nat) : option A :=
  match nth_error g i with
  | Some row => nth_error row j
  | None => None
  end.

(** All rows have the length that [shape[1]] reports, as in numpy. *)
Definition rectangular {A : Type} (g : ndarray A) : Prop :=
  forall row, In row g -> List.length row = shape1 g.

(** The test that guards the ignition in [run_simulation]. *)
Definition in_bounds (self : engine) (start_x start_y : Z) : Prop :=
  (0 <= start_y < Z.of_nat (shape0 (risk_grid self)))%Z
  /\ (0 <= start_x < Z.of_nat (shape1 (risk_grid self)))%Z.

(** Every cell is unburnt (0.0) or burning (1.0). *)
Definition binary (g : ndarray R) : Prop :=
  forall i j x, cell g i j = Some x -> x = 0 \/ x = 1.

Definition unburnt (g : ndarray R) : Prop :=
  forall i j x, cell g i j = Some x -> x = 0.

(** The contract of the simulator as the specification words it: a frame
    series, or the signal that the ignition pixel is outside the grid. *)
Inductive simulate_outcome : Type :=
| FrameSeries (series : list frame)
| OutOfBounds.

(** How the dictionary returned by [run_simulation] reads in that contract:
    it always carries the key ['frames']. *)
Definition observed (s : simulation) : simulate_outcome :=
  FrameSeries (frames s).

(** The contract of the constructor as the specification words it. *)
Inductive construction : Type :=
| Constructed (self : engine)
| ConfigurationError.

(** [FireSimulationEngine(path)] has no [raise] and swallows the exceptions
    of rasterio: the call always yields an object. *)
Definition construct (fs : string -> raster_file) (path : string)
  : construction :=
  Constructed (__init__ fs path).

(** An engine on a raster of [h] rows and [w] columns of one hazard value,
    as the tests of the specification build them. *)
Definition uniform_engine (h w : nat) (hazard : R) : engine :=
  {| risk_map_path := "risk_map.tif";
     transform := None;
     crs := None;
     risk_grid := repeat (repeat hazard w) h;
     base_spread_prob := 0.15;
     wind_factor := 0.08 |}.

(** A generator whose every draw is one half. *)
Definition half_draws : nat -> nat -> nat -> R := fun _ _ _ => 0.5.

(** The projection of a vertex, taken from [(cx, cy)], onto [(wx, wy)]. *)
Definition projection (cx cy : Z) (wx wy : R) (p : point) : R :=
  IZR (fst p - cx) * wx + IZR (snd p - cy) * wy.

(** The vertices of an ellipse of centre (6, 3) and half axes 6 and 3, its
    major axis lying east-west. *)
Definition ellipse : contour :=
  [ (12, 3); (11, 5); (9, 6); (6, 6); (3, 6); (1, 5); (0, 3);
    (1, 1); (3, 0); (6, 0); (9, 0); (11, 1) ]%Z.

(** An OpenCV that finds this ellipse on every mask. *)
Definition ellipse_cv2 : OpenCV :=
  {| findContours := fun _ => [ellipse];
     contourArea := fun _ => 54;
     moments := fun _ => {| m00 := 54; m10 := 324; m01 := 162 |};
     arcLength := fun _ => 30 |}.

(** [np.argmax] and [np.argmin] on integers, which can be run. *)
Fixpoint argmaxZ_from (l : list Z) (i best_i : nat) (best : Z) : nat :=
  match l with
  | [] => best_i
  | x :: l' =>
      if (best <? x)%Z then argmaxZ_from l' (S i) i x
      else argmaxZ_from l' (S i) best_i best
  end.

Fixpoint argminZ_from (l : list Z) (i best_i : nat) (best : Z) : nat :=
  match l with
  | [] => best_i
  | x :: l' =>
      if (x <? best)%Z then argminZ_from l' (S i) i x
      else argminZ_from l' (S i) best_i best
  end.

(** The sum that the convolution puts at cell [(i, j)]. *)
Definition influence (g kernel : ndarray R) (i j : nat) : R :=
  fold_right
    (fun '(ka, kb) acc =>
       item 0 kernel ka kb
       * padded g (Z.of_nat i + 1 - Z.of_nat ka) (Z.of_nat j + 1 - Z.of_nat kb)
       + acc)
    0 taps.

(** Whether cell [(i, j)] is among the new ignitions of a step. *)
Definition ignites (self : engine) (kernel : ndarray R)
  (roll : nat -> nat -> R) (g : ndarray R) (i j : nat) : bool :=
  Rgtb (influence g kernel i j * (item 0 (risk_grid self) i j + 0.1))
       (roll i j)
  && Rgtb (item 0 (risk_grid self) i j) 0.1.

(** Two arrays with as many rows, and row by row as many columns. *)
Definition same_shape {A B : Type} (g : ndarray A) (h : ndarray B) : Prop :=
  map (@List.length A) g = map (@List.length B) h.

(** No draw is negative, as with [np.random.rand]. *)
Definition nonneg_draws (roll : nat -> nat -> R) : Prop :=
  forall i j, 0 <= roll i j.

(** Cell [(i, j)] lies within [t] cells, rows and columns alike, of the
    pixel of column [start_x] and row [start_y]. *)
Definition near (start_x start_y : Z) (t i j : nat) : Prop :=
  (Z.abs (Z.of_nat i - start_y) <= Z.of_nat t)%Z
  /\ (Z.abs (Z.of_nat j - start_x) <= Z.of_nat t)%Z.

(** A north-up transform with pixels of 0.001 degree. *)
Definition north_up : Affine :=
  {| a := 0.001; b := 0; c := -104.4;
     d := 0; e := -0.001; f := 19.2 |}.

(** An engine of [h] rows and [w] columns with that transform. *)
Definition georeferenced_engine (h w : nat) (hazard : R) : engine :=
  {| risk_map_path := "risk_map.tif";
     transform := Some north_up;
     crs := Some "EPSG:4326"%string;
     risk_grid := repeat (repeat hazard w) h;
     base_spread_prob := 0.15;
     wind_factor := 0.08 |}.

(** The uniform kernel with the weight [east] pushed along the columns and
    [south] along the rows: a positive [east] is added to the east column
    2, a negative one, as its size, to the west column 0; a positive
    [south] to the south row 2, a negative one to the north row 0. *)
Definition biased_kernel (east south : R) : ndarray R :=
  [ [0.1 + Rmax (- south) 0 + Rmax (- east) 0; 0.1 + Rmax (- south) 0;
     0.1 + Rmax (- south) 0 + Rmax east 0];
    [0.1 + Rmax (- east) 0; 0; 0.1 + Rmax east 0];
    [0.1 + Rmax south 0 + Rmax (- east) 0; 0.1 + Rmax south 0;
     0.1 + Rmax south 0 + Rmax east 0] ].

(** Every cell of the array lies between [lo] and [hi]. *)
Definition cells_within (lo hi : R) (g : ndarray R) : Prop :=
  forall i j x, cell g i j = Some x -> lo <= x <= hi.

End FireVocabulary.

(** * Vocabulary of the allocator's properties *)

Module AllocatorVocabulary.
Import QuantumResourceSolver.
Open Scope Q_scope.

(** The part of a unit's score that does not depend on the generator. *)
Definition merit (t_name : string) (candidate : asset) : Q :=
  let score := 0 in
  let score :=
    if contains (specialty candidate) t_name then score + 50 else score in
  let score :=
    if String.eqb (type candidate) "Aerial" && contains "Head" t_name
    then score + 30 else score in
  score.

(** A generator pinned to zero. *)
Definition no_noise : nat -> Q := fun _ => 0.

(** One solver object used for several calls in a row: the lists returned
    and the solver left behind. *)
Fixpoint session (self : solver)
  (calls : list (list (string * (Z * Z)) * (nat -> Q)))
  : list (list assignment) * solver :=
  match calls with
  | [] => ([], self)
  | (targets, uniform) :: rest =>
      let '(answer, self') := optimize_response self targets uniform in
      let '(answers, self'') := session self' rest in
      (answer :: answers, self'')
  end.

(** What holds of the outer loop after the targets [done], for a call that
    started with the units [fleet0]. *)
Record allocating (fleet0 : list asset) (done : list (string * (Z * Z)))
  (st : progress) : Prop := {
  few_for_targets : (List.length (solution st) <= List.length done)%nat;
  few_for_fleet :
    (List.length (solution st) + List.length (pool st)
     <= List.length fleet0)%nat;
  assets_once : NoDup (map asset_id (solution st));
  assets_taken :
    forall unit, In unit (pool st) ->
                 ~ In (id unit) (map asset_id (solution st));
  pool_of_fleet : forall unit, In unit (pool st) -> In unit fleet0;
  assets_of_fleet :
    forall x, In x (solution st) -> In (asset_id x) (map id fleet0);
  targets_once : NoDup (map target (solution st));
  targets_done :
    forall x, In x (solution st) -> In (target x, coords x) done
}.

(** The three targets that [analyze_tactics] finds on the ellipse at
    bearing 90. *)
Definition ellipse_targets : list (string * (Z * Z)) :=
  [ ("Alpha Head", (12, 3)); ("Bravo Flank", (3, 0));
    ("Charlie Flank", (9, 6)) ]%Z%string.

(** A score is at most the bound. *)
Definition score_le (q : Q) (s : score_bound) : Prop :=
  match s with
  | NegInf => False
  | Finite x => q <= x
  end.

(** The second bound is at least the first. *)
Definition bound_le (s s' : score_bound) : Prop :=
  match s, s' with
  | NegInf, _ => True
  | Finite x, Finite y => x <= y
  | Finite _, NegInf => False
  end.

(** Every draw lies in [-5, 5], as with [random.uniform(-5, 5)]. *)
Definition in_range (uniform : nat -> Q) : Prop :=
  forall n, -5 <= uniform n <= 5.

(** The entry that a target gets when unit [best] is picked. *)
Definition entry (best : asset) (t : string * (Z * Z)) : assignment :=
  {| asset_id := id best; target := fst t; coords := snd t |}.

(** [self.fleet] once unit [best] is taken out. *)
Definition without (best : asset) (units : list asset) : list asset :=
  filter (fun x => negb (String.eqb (id x) (id best))) units.

(** The units of a fleet that no entry of a list of assignments names. *)
Definition free (taken : list assignment) (units : list asset) : list asset :=
  filter (fun u => negb (existsb (String.eqb (id u)) (map asset_id taken)))
         units.

(** The item of the targets' dictionary that an assignment is for. *)
Definition item_of (x : assignment) : string * (Z * Z) :=
  (target x, coords x).

(** Each entry holds a unit of greatest merit among the units of [fleet0]
    that no earlier entry names. *)
Definition greedy (fleet0 : list asset) (answer : list assignment) : Prop :=
  forall k x,
    nth_error answer k = Some x ->
    exists best,
      In best fleet0
      /\ id best = asset_id x
      /\ forall unit,
           In unit fleet0 ->
           ~ In (id unit) (map asset_id (firstn k answer)) ->
           merit (target x) unit <= merit (target x) best.

(** The dictionary that [analyze_tactics] returns under ['targets']. *)
Definition tactical_targets (alpha bravo charlie : Z * Z)
  : list (string * (Z * Z)) :=
  [ ("Alpha Head", alpha); ("Bravo Flank", bravo);
    ("Charlie Flank", charlie) ]%string.

(** The ids of the three ground units of the roster. *)
Definition ground_crews : list string :=
  [ "ENGINE-A"; "ENGINE-B"; "CREW-ZULU" ]%string.

(** A pixel of a raster of 32767 rows and columns at most. *)
Definition pixel16 (p : Z * Z) : Prop :=
  (0 <= fst p <= 32767)%Z /\ (0 <= snd p <= 32767)%Z.

End AllocatorVocabulary.

(** * Vocabulary of the router's properties *)

Module RouterVocabulary.
Import LogisticsRouter.
Open Scope R_scope.

(** An id that the test for air units lets through to the ground branch. *)
Definition ground (asset_id : string) : Prop :=
  contains "TANKER" asset_id || contains "DRONE" asset_id = false.

(** The smart route cannot be had: there is no graph, or the graph has no
    node, or the attempt on the graph raises. *)
Definition degraded {fp : Float64} {libs : RoadLibraries} (self : router)
  (lat_target lon_target : R) (asset_id : string)
  (avoid_polygon : option (list (R * R))) : Prop :=
  graph self = None
  \/ usable (graph self) = None
  \/ exists g,
       usable (graph self) = Some g
       /\ forall start,
            getitem BASES (base_key_of asset_id) = Return start ->
            exists e,
              smart_route g start lat_target lon_target avoid_polygon
              = Raise e.

(** Libraries in which every search on the road network fails; a graph is
    the list of its nodes. *)
Definition failing_libraries : RoadLibraries :=
  {| Graph := list (Z * (R * R));
     node := Z;
     node_eqb := Z.eqb;
     nodes := fun g => g;
     subgraph := fun g keep =>
                   filter (fun nd => existsb (Z.eqb (fst nd)) keep) g;
     node_data := fun _ _ => Raise KeyError;
     nearest_nodes := fun _ _ _ => Raise LibraryError;
     shortest_path := fun _ _ _ => Raise LibraryError;
     path_weight := fun _ _ => Raise LibraryError;
     polygon := list (R * R);
     Polygon := fun shell => Return shell;
     buffer := fun poly _ => Return poly;
     is_empty := fun poly => match poly with [] => true | _ :: _ => false end;
     contains_point := fun _ _ _ => Return false |}.

(** A router whose graph has the single node 1. *)
Definition one_node_router : @router failing_libraries :=
  @Build_router failing_libraries (Some [ (1%Z, (19.05, -104.31)) ]).

(** Arithmetic without rounding, on the functions of the reals. *)
Definition exact_arithmetic : Float64 :=
  {| RN := fun x => x;
     math_radians := radians;
     math_sin := sin;
     math_cos := cos;
     math_atan2 := atan2 |}.

(** What the statements on values ask of the doubles: 0 and 1 are doubles,
    the rounding and the functions [radians] and [sin] are odd, and neither
    the rounding nor [atan2] turns numbers that are not negative into a
    negative one. *)
Class Float64Laws (fp : Float64) : Prop := {
  rounds_zero : RN 0 = 0;
  rounds_one : RN 1 = 1;
  rounds_odd : forall x, RN (- x) = - RN x;
  rounds_nonneg : forall x, 0 <= x -> 0 <= RN x;
  radians_zero : math_radians 0 = 0;
  radians_odd : forall x, math_radians (- x) = - math_radians x;
  sin_zero : math_sin 0 = 0;
  sin_odd : forall x, math_sin (- x) = - math_sin x;
  atan2_zero : math_atan2 0 1 = 0;
  atan2_nonneg : forall y x, 0 <= y -> 0 <= x -> 0 <= math_atan2 y x
}.

(** A target near the antipode of the base of ENGINE-A. *)
Definition far_lat : R := -19.052000447.
Definition far_lon : R := 75.686.

(** The doubles that CPython on glibc delivers for the operations of
    [_haversine] from the base of ENGINE-A, (19.0520, -104.3140), to the
    target [(far_lat, far_lon)], each written as the fraction it is; every
    other operation is taken exact.  The four roundings are those of the
    difference of the latitudes, of the square of the first sine, of the
    product of the cosines and of the sum [a]. *)
Definition doubles_met : Float64 :=
  {| RN := fun x =>
       if Req_dec_T x (far_lat - 19.0520)
       then - 1340665329800269 / 35184372088832
       else if Req_dec_T x ((- 1470092684722233 / 4503599627370496) ^ 2)
       then 7678027108944089 / 72057594037927936
       else if Req_dec_T x (8513809288632379 / 9007199254740992
                            * (8513809265694165 / 9007199254740992))
       then 4023722933061491 / 4503599627370496
       else if Req_dec_T x (7678027108944089 / 72057594037927936
                            + 4023722933061491 / 4503599627370496)
       then 4503599627370497 / 4503599627370496
       else x;
     math_radians := fun x =>
       if Req_dec_T x (- 1340665329800269 / 35184372088832)
       then - 5990150188121689 / 9007199254740992
       else if Req_dec_T x 180
       then 884279719003555 / 281474976710656
       else if Req_dec_T x 19.0520
       then 2995075058925463 / 9007199254740992
       else if Req_dec_T x far_lat
       then - 2995075129196225 / 9007199254740992
       else radians x;
     math_sin := fun x =>
       if Req_dec_T x (- 5990150188121689 / 9007199254740992 / 2)
       then - 1470092684722233 / 4503599627370496
       else if Req_dec_T x (884279719003555 / 281474976710656 / 2)
       then 1
       else sin x;
     math_cos := fun x =>
       if Req_dec_T x (2995075058925463 / 9007199254740992)
       then 8513809288632379 / 9007199254740992
       else if Req_dec_T x (- 2995075129196225 / 9007199254740992)
       then 8513809265694165 / 9007199254740992
       else cos x;
     math_atan2 := atan2 |}.

(** An id that the test for air units catches. *)
Definition air (asset_id : string) : Prop :=
  contains "TANKER" asset_id || contains "DRONE" asset_id = true.

(** The route leaves the base [start] under its name, ends on the target,
    and takes a minute at least. *)
Definition from_base_to_target (start : base) (lat_target lon_target : R)
  (r : route) : Prop :=
  origin r = name start
  /\ (exists inner,
        path r
        = (lat start, lon start) :: inner ++ [ (lat_target, lon_target) ])
  /\ (1 <= duration_min r)%Z.

(** An obstacle that cannot take a node out of the graph [g]: it has three
    vertices at most, or shapely raises on it, or its shrunk form is empty,
    or the test of a node raises, or no node lies inside. *)
Definition harmless {libs : RoadLibraries} (g : Graph)
  (poly : list (R * R)) : Prop :=
  (List.length poly <= 3)%nat
  \/ (exists e, Polygon poly = Raise e)
  \/ exists p,
       Polygon poly = Return p
       /\ ((exists e, buffer p (-0.0001) = Raise e)
           \/ exists shrunk,
                buffer p (-0.0001) = Return shrunk
                /\ (is_empty shrunk = true
                    \/ (exists nd e,
                          In nd (nodes g)
                          /\ contains_point shrunk (fst (snd nd))
                                            (snd (snd nd))
                             = Raise e)
                    \/ forall nd,
                         In nd (nodes g) ->
                         contains_point shrunk (fst (snd nd)) (snd (snd nd))
                         = Return false)).

(** A perimeter of four vertices. *)
Definition square : list (R * R) :=
  [ (19.0, -104.4); (19.0, -104.3); (19.1, -104.3); (19.1, -104.4) ].

End RouterVocabulary.

(** * Vocabulary of the page's properties *)

Module LabVocabulary.
Import FireSimulationEngine SimulationLab.
Open Scope R_scope.

(** The two tests of the strategic sort. *)
Definition is_tanker (x : allocation) : bool := contains "TANKER" (asset_id x).
Definition for_alpha (x : allocation) : bool := contains "Alpha" (target x).

(** An OpenCV that finds one contour of a single pixel, whose area is
    zero. *)
Definition speck_cv2 : OpenCV :=
  {| findContours := fun _ => [ [ (5, 5)%Z ] ];
     contourArea := fun _ => 0;
     moments := fun _ => {| m00 := 0; m10 := 0; m01 := 0 |};
     arcLength := fun _ => 0 |}.

(** A session aimed at the centre of pixel column [x], row [y], which holds
    the allocations [allocs] of an earlier run. *)
Definition aimed (self : engine) (x y : Z)
  (allocs : option (list allocation)) : session_state :=
  {| lat_input := fst (get_lat_lon self x y);
     lon_input := snd (get_lat_lon self x y);
     live_wind_speed := 15.0;
     live_wind_dir := 90;
     sim_active := false;
     sim_frames := [];
     sim_tactics := None;
     sim_allocations := allocs;
     selected_unit_id := None |}.

(** An entry of the manifest for unit [asset] on the pixel [p] labelled
    [label]: the drop point is the centre of the pixel, and the route
    leaves the base filed under [key] and ends on the drop point. *)
Definition deployed (self : engine) (asset label : string) (p : point)
  (key : string) (row : deployment) : Prop :=
  unit_label row = (asset, label)
  /\ drop row = get_lat_lon self (fst p) (snd p)
  /\ exists start,
       LogisticsRouter.getitem LogisticsRouter.BASES key = Return start
       /\ LogisticsRouter.origin (route_data row) = LogisticsRouter.name start
       /\ hd_error (LogisticsRouter.path (route_data row))
          = Some (LogisticsRouter.lat start, LogisticsRouter.lon start)
       /\ last (LogisticsRouter.path (route_data row)) (0, 0) = drop row.

(** An entry that an earlier run left in the session. *)
Definition earlier : allocation :=
  {| asset_id := "TANKER-01"; target := "Alpha Head"; coords := (12, 3)%Z;
     priority := 1 |}.

End LabVocabulary.

(** * Properties of the fire engine *)

Module FireProperties.
Import FireSimulationEngine FireVocabulary.
Open Scope R_scope.

(** *** Arrays *)

Lemma nth_error_imap_from {A B : Type} (f : nat -> A -> B) (l : list A) :
  forall n j, nth_error (imap_from f n l) j
              = option_map (f (n + j)%nat) (nth_error l j).
Proof.
  induction l as [| x l IH]; intros n j.
  - destruct j; reflexivity.
  - destruct j as [| j]; simpl.
    + now rewrite Nat.add_0_r.
    + rewrite IH. now rewrite Nat.add_succ_r.
Qed.

Lemma cell_imap2 {A B : Type} (f : nat -> nat -> A -> B) (g : ndarray A) i j :
  cell (imap2 f g) i j = option_map (f i j) (cell g i j).
Proof.
  unfold cell, imap2, imap.
  rewrite nth_error_imap_from. simpl.
  destruct (nth_error g i) as [row |]; simpl; [| reflexivity].
  now rewrite nth_error_imap_from.
Qed.

Lemma cell_map {A B : Type} (h : A -> B) (g : ndarray A) i j :
  cell (map (map h) g) i j = option_map h (cell g i j).
Proof.
  unfold cell. rewrite nth_error_map.
  destruct (nth_error g i) as [row |]; simpl; [| reflexivity].
  now rewrite nth_error_map.
Qed.

Lemma item_cell {A : Type} (d : A) (g : ndarray A) i j :
  item d g i j = match cell g i j with Some x => x | None => d end.
Proof.
  unfold item, cell.
  destruct (nth_error g i) as [row |] eqn:Hi.
  - rewrite (nth_error_nth _ _ [] Hi).
    destruct (nth_error row j) as [x |] eqn:Hj.
    + now apply nth_error_nth.
    + apply nth_overflow. now apply nth_error_None.
  - apply nth_error_None in Hi.
    rewrite (nth_overflow g [] Hi).
    now destruct j.
Qed.

Lemma imap_from_length {A B : Type} (f : nat -> A -> B) (l : list A) n :
  List.length (imap_from f n l) = List.length l.
Proof.
  revert n. induction l as [| x l IH]; intros n; simpl; [| rewrite IH]; reflexivity.
Qed.

Lemma imap_from_id {A : Type} (f : nat -> A -> A) (l : list A) :
  forall n, (forall j x, nth_error l j = Some x -> f (n + j)%nat x = x) ->
            imap_from f n l = l.
Proof.
  induction l as [| x l IH]; intros n H; simpl; [reflexivity |].
  f_equal.
  - specialize (H 0%nat x eq_refl). now rewrite Nat.add_0_r in H.
  - apply IH. intros j y Hj.
    specialize (H (S j) y Hj). now rewrite Nat.add_succ_r in H.
Qed.

Lemma imap2_id {A : Type} (f : nat -> nat -> A -> A) (g : ndarray A) :
  (forall i j x, cell g i j = Some x -> f i j x = x) -> imap2 f g = g.
Proof.
  intros H. unfold imap2, imap.
  apply imap_from_id. intros i row Hi. simpl.
  apply imap_from_id. intros j x Hj. simpl.
  apply H. unfold cell. now rewrite Hi.
Qed.

(** *** Quantisation *)

Lemma int_IZR (z : Z) : (0 <= z)%Z -> int (IZR z) = z.
Proof.
  intros Hz. unfold int.
  destruct (Rle_dec 0 (IZR z)) as [_ | Hn].
  - symmetry. apply Int_part_spec.
    generalize (IZR z). intros r. lra.
  - exfalso. apply Hn. now apply IZR_le.
Qed.

Lemma astype_uint8_unburnt : astype_uint8 (0 * 255) = 0%Z.
Proof.
  unfold astype_uint8.
  replace (0 * 255) with (IZR 0) by lra.
  now rewrite int_IZR by lia.
Qed.

Lemma astype_uint8_burning : astype_uint8 (1 * 255) = 255%Z.
Proof.
  unfold astype_uint8.
  replace (1 * 255) with (IZR 255) by lra.
  now rewrite int_IZR by lia.
Qed.

Lemma cell_snapshot (g : ndarray R) i j :
  cell (snapshot g) i j
  = option_map (fun x => astype_uint8 (x * 255)) (cell g i j).
Proof. apply cell_map. Qed.

(** *** The state stays binary and only grows *)

Lemma cell_zeros_like (g : ndarray R) i j x :
  cell (zeros_like g) i j = Some x -> x = 0.
Proof.
  unfold zeros_like. rewrite cell_map.
  destruct (cell g i j); simpl; congruence.
Qed.

Lemma binary_ignite (self : engine) (start_x start_y : Z) :
  binary (ignite self start_x start_y).
Proof.
  intros i j x. unfold ignite.
  match goal with |- context [if ?c then _ else _] => destruct c end.
  - unfold set_item. rewrite cell_imap2.
    destruct (cell (zeros_like (risk_grid self)) i j) as [y |] eqn:Hy;
      simpl; [| discriminate].
    apply cell_zeros_like in Hy. subst y.
    destruct (_ && _); intros [= <-]; auto.
  - intros H. left. eapply cell_zeros_like, H.
Qed.

Lemma cell_spread_step (self : engine) kernel roll (g : ndarray R) i j :
  exists burn : bool,
    cell (spread_step self kernel roll g) i j
    = option_map (fun x => Rmax x (astype_float burn)) (cell g i j).
Proof.
  unfold spread_step. rewrite cell_imap2. eexists. reflexivity.
Qed.

Lemma binary_spread_step (self : engine) kernel roll (g : ndarray R) :
  binary g -> binary (spread_step self kernel roll g).
Proof.
  intros Hg i j x.
  destruct (cell_spread_step self kernel roll g i j) as [burn ->].
  destruct (cell g i j) as [y |] eqn:Hy; simpl; [| discriminate].
  intros [= <-].
  destruct (Hg i j y Hy) as [-> | ->], burn; simpl.
  - right. apply Rmax_right. lra.
  - left. apply Rmax_left. lra.
  - right. apply Rmax_left. lra.
  - right. apply Rmax_left. lra.
Qed.

(** A frame cell never decreases over one step. *)
Lemma snapshot_spread_step_le (self : engine) kernel roll (g : ndarray R) i j :
  binary g ->
  (item 0 (snapshot g) i j
   <= item 0 (snapshot (spread_step self kernel roll g)) i j)%Z.
Proof.
  intros Hg. rewrite !item_cell, !cell_snapshot.
  destruct (cell_spread_step self kernel roll g i j) as [burn ->].
  destruct (cell g i j) as [y |] eqn:Hy; simpl; [| lia].
  destruct (Hg i j y Hy) as [-> | ->], burn; simpl.
  - rewrite Rmax_right by lra.
    rewrite astype_uint8_unburnt, astype_uint8_burning. lia.
  - rewrite Rmax_left by lra. lia.
  - rewrite Rmax_left by lra. lia.
  - rewrite Rmax_left by lra. lia.
Qed.

Lemma spread_loop_length (self : engine) kernel rand steps :
  forall t g, List.length (spread_loop self kernel rand steps t g) = steps.
Proof.
  induction steps as [| n IH]; intros t g; simpl; [| rewrite IH]; reflexivity.
Qed.

Lemma spread_loop_monotone (self : engine) kernel rand steps :
  forall t0 g t i j,
    binary g ->
    (t < steps)%nat ->
    (item 0 (nth t (snapshot g :: spread_loop self kernel rand steps t0 g) []) i j
     <= item 0 (nth (S t) (snapshot g :: spread_loop self kernel rand steps t0 g) []) i j)%Z.
Proof.
  induction steps as [| n IH]; intros t0 g t i j Hg Ht; [lia |].
  destruct t as [| t].
  - simpl. now apply snapshot_spread_step_le.
  - change (nth (S (S t)) (snapshot g :: ?l) []) with (nth (S t) l []).
    change (nth (S t) (snapshot g :: ?l) []) with (nth t l []).
    simpl spread_loop.
    apply IH; [now apply binary_spread_step | lia].
Qed.

(** *** Runs that spread nothing *)

Lemma unburnt_item (g : ndarray R) i j : unburnt g -> item 0 g i j = 0.
Proof.
  intros Hg. rewrite item_cell.
  destruct (cell g i j) as [x |] eqn:Hx; [now apply (Hg i j) | reflexivity].
Qed.

Lemma unburnt_padded (g : ndarray R) i j : unburnt g -> padded g i j = 0.
Proof.
  intros Hg. unfold padded.
  destruct (_ && _); [now apply unburnt_item | reflexivity].
Qed.

Lemma unburnt_zeros_like (g : ndarray R) : unburnt (zeros_like g).
Proof. intros i j x. apply cell_zeros_like. Qed.

(** Without a burning cell no cell can ignite: the influence is zero and no
    draw of [np.random.rand] is negative. *)
Lemma spread_step_unburnt (self : engine) kernel roll (g : ndarray R) :
  unburnt g ->
  (forall i j, 0 <= roll i j) ->
  spread_step self kernel roll g = g.
Proof.
  intros Hg Hroll. unfold spread_step.
  apply imap2_id. intros i j x Hx.
  rewrite (Hg i j x Hx).
  rewrite item_cell, !cell_imap2. unfold convolve. rewrite cell_imap2, Hx.
  cbn [option_map taps fold_right].
  rewrite !(unburnt_padded g) by exact Hg.
  replace (Rgtb _ (roll i j)) with false; [apply Rmax_left; simpl; lra |].
  unfold Rgtb. destruct (Rlt_dec _ _) as [Hlt |]; [| reflexivity].
  exfalso. specialize (Hroll i j). lra.
Qed.

Lemma spread_loop_unburnt (self : engine) kernel rand steps :
  forall t g,
    unburnt g ->
    (forall t i j, 0 <= rand t i j) ->
    spread_loop self kernel rand steps t g = repeat (snapshot g) steps.
Proof.
  induction steps as [| n IH]; intros t g Hg Hrand; [reflexivity |].
  cbn [spread_loop repeat].
  rewrite spread_step_unburnt by auto.
  now rewrite IH.
Qed.

Lemma ignite_out_of_bounds (self : engine) (start_x start_y : Z) :
  ~ in_bounds self start_x start_y ->
  ignite self start_x start_y = zeros_like (risk_grid self).
Proof.
  intros Hout. unfold ignite.
  match goal with |- context [if ?c then _ else _] => destruct c eqn:Hc end;
    [| reflexivity].
  exfalso. apply Hout.
  apply andb_prop in Hc as [Hc H4]. apply andb_prop in Hc as [Hc H3].
  apply andb_prop in Hc as [H1 H2].
  apply Z.leb_le in H1, H3. apply Z.ltb_lt in H2, H4.
  unfold in_bounds. unfold zeros_like, shape0, shape1 in *.
  rewrite length_map in H2.
  destruct (risk_grid self) as [| row rest]; simpl in *.
  - lia.
  - rewrite length_map in H4. lia.
Qed.

(** The whole run from a pixel outside the grid. *)
Lemma out_of_bounds_series (self : engine) (start_x start_y : Z)
  (wind_speed wind_dir : R) (duration_hours : Z)
  (rand : nat -> nat -> nat -> R) :
  ~ in_bounds self start_x start_y ->
  (forall t i j, 0 <= rand t i j) ->
  frames (run_simulation self start_x start_y wind_speed wind_dir
                         duration_hours rand)
  = repeat (map (map (fun _ => 0%Z)) (risk_grid self))
           (S (Z.to_nat (duration_hours * 6))).
Proof.
  intros Hout Hrand. unfold run_simulation. cbn [frames].
  rewrite ignite_out_of_bounds by exact Hout.
  rewrite spread_loop_unburnt by (auto using unburnt_zeros_like).
  change (?x :: repeat ?x ?n) with (repeat x (S n)).
  f_equal. unfold snapshot, zeros_like.
  rewrite map_map. apply map_ext. intros row.
  rewrite map_map. apply map_ext. intros _.
  apply astype_uint8_unburnt.
Qed.

(** *** The initial frame *)

Lemma cell_in_range {A : Type} (g : ndarray A) i j :
  rectangular g -> (i < shape0 g)%nat -> (j < shape1 g)%nat ->
  exists x, cell g i j = Some x.
Proof.
  intros Hrect Hi Hj. unfold cell.
  destruct (nth_error g i) as [row |] eqn:Hrow.
  - destruct (nth_error row j) as [x |] eqn:Hx; [now exists x |].
    apply nth_error_None in Hx.
    apply nth_error_In in Hrow. apply Hrect in Hrow. lia.
  - apply nth_error_None in Hrow. unfold shape0 in Hi. lia.
Qed.

Lemma zeros_like_shape (g : ndarray R) :
  shape0 (zeros_like g) = shape0 g /\ shape1 (zeros_like g) = shape1 g.
Proof.
  unfold zeros_like, shape0, shape1. rewrite length_map. split; [reflexivity |].
  destruct g; simpl; [reflexivity | apply length_map].
Qed.

Lemma ignite_in_bounds (self : engine) (start_x start_y : Z) :
  in_bounds self start_x start_y ->
  ignite self start_x start_y
  = set_item (zeros_like (risk_grid self))
             (Z.to_nat start_y) (Z.to_nat start_x) 1.
Proof.
  intros [Hy Hx]. unfold ignite.
  destruct (zeros_like_shape (risk_grid self)) as [-> ->].
  replace (0 <=? start_y)%Z with true by (symmetry; apply Z.leb_le; lia).
  replace (start_y <? _)%Z with true by (symmetry; apply Z.ltb_lt; lia).
  replace (0 <=? start_x)%Z with true by (symmetry; apply Z.leb_le; lia).
  replace (start_x <? _)%Z with true by (symmetry; apply Z.ltb_lt; lia).
  reflexivity.
Qed.

(** The state after the ignition, from a pixel of the grid: 1.0 at that
    pixel and 0.0 in every other cell. *)
Lemma ignited_state (self : engine) (start_x start_y : Z) i j :
  rectangular (risk_grid self) ->
  in_bounds self start_x start_y ->
  (i < shape0 (risk_grid self))%nat ->
  (j < shape1 (risk_grid self))%nat ->
  cell (ignite self start_x start_y) i j
  = Some (if Nat.eqb i (Z.to_nat start_y) && Nat.eqb j (Z.to_nat start_x)
          then 1 else 0).
Proof.
  intros Hrect Hin Hi Hj.
  rewrite ignite_in_bounds by exact Hin.
  unfold set_item, zeros_like. rewrite cell_imap2, cell_map.
  destruct (cell_in_range (risk_grid self) i j Hrect Hi Hj) as [x ->].
  cbn [option_map]. now destruct (_ && _).
Qed.

(** Its snapshot, the first frame of the run: 255 at the ignition pixel and
    0 in every other cell. *)
Lemma initial_frame (self : engine) (start_x start_y : Z) i j :
  rectangular (risk_grid self) ->
  in_bounds self start_x start_y ->
  (i < shape0 (risk_grid self))%nat ->
  (j < shape1 (risk_grid self))%nat ->
  cell (snapshot (ignite self start_x start_y)) i j
  = Some (if Nat.eqb i (Z.to_nat start_y) && Nat.eqb j (Z.to_nat start_x)
          then 255%Z else 0%Z).
Proof.
  intros Hrect Hin Hi Hj.
  rewrite cell_snapshot, ignited_state by assumption.
  cbn [option_map].
  destruct (_ && _);
    [now rewrite astype_uint8_burning | now rewrite astype_uint8_unburnt].
Qed.

Lemma frame_count (self : engine) (start_x start_y : Z)
  (wind_speed wind_dir : R) (duration_hours : Z)
  (rand : nat -> nat -> nat -> R) :
  List.length (frames (run_simulation self start_x start_y wind_speed wind_dir
                                      duration_hours rand))
  = S (Z.to_nat (duration_hours * 6)).
Proof.
  unfold run_simulation. cbn [frames List.length].
  now rewrite spread_loop_length.
Qed.

(** *** Uniform rasters *)

Lemma uniform_shape (h w : nat) (hazard : R) :
  shape0 (risk_grid (uniform_engine (S h) w hazard)) = S h
  /\ shape1 (risk_grid (uniform_engine (S h) w hazard)) = w.
Proof.
  unfold shape0, shape1. cbn [uniform_engine risk_grid repeat hd].
  split; [| apply repeat_length].
  change (List.length (repeat (repeat hazard w) (S h)) = S h).
  apply repeat_length.
Qed.

Lemma uniform_rectangular (h w : nat) (hazard : R) :
  rectangular (risk_grid (uniform_engine (S h) w hazard)).
Proof.
  intros row Hrow.
  rewrite (proj2 (uniform_shape h w hazard)).
  cbn [uniform_engine risk_grid] in Hrow.
  apply repeat_spec in Hrow. subst row. apply repeat_length.
Qed.

(** C4 (monotonicity).  In every run, whatever the wind, the duration and
    the random draws, and for every cell, a frame is nowhere below the frame
    before it: for each step [t] of the run, [frame[t+1][c] >= frame[t][c]].
    The ignition pixel need not even be in bounds. *)
Theorem run_simulation_monotone (self : engine) (start_x start_y : Z)
  (wind_speed wind_dir : R) (duration_hours : Z)
  (rand : nat -> nat -> nat -> R) (t i j : nat) :
  (t < Z.to_nat (duration_hours * 6))%nat ->
  let series :=
    frames (run_simulation self start_x start_y wind_speed wind_dir
                           duration_hours rand) in
  (item 0 (nth (S t) series []) i j >= item 0 (nth t series []) i j)%Z.
Proof.
  intros Ht series. apply Z.le_ge.
  unfold series, run_simulation. cbn [frames].
  apply spread_loop_monotone; [apply binary_ignite | exact Ht].
Qed.

Lemma run_simulation_monotone_witness :
  (0 < Z.to_nat (1 * 6))%nat
  /\ let series :=
       frames (run_simulation (uniform_engine 3 3 0.8) 1 1 15 0 1 half_draws) in
     (item 0 (nth 1 series []) 1 2 >= item 0 (nth 0 series []) 1 2)%Z.
Proof.
  split; [simpl; lia |].
  apply (run_simulation_monotone (uniform_engine 3 3 0.8) 1 1 15 0 1
                                 half_draws 0 1 2).
  simpl; lia.
Defined.

(** C10 (zero duration, frame count).  From a pixel [p] of the grid and for
    every wind, a run of 0 hours yields exactly one frame: the snapshot of
    the fire state in which [p] has full intensity 1.0 and every other cell
    has 0.0, that is the frame with 255 at [p] and 0 in every other cell.
    In general a run of [d >= 0] hours yields [d * 6 + 1] frames. *)
Theorem run_simulation_zero_duration (self : engine) (start_x start_y : Z)
  (wind_speed wind_dir : R) (rand : nat -> nat -> nat -> R) :
  rectangular (risk_grid self) ->
  in_bounds self start_x start_y ->
  (exists state,
      frames (run_simulation self start_x start_y wind_speed wind_dir 0 rand)
      = [snapshot state]
      /\ forall i j,
           (i < shape0 (risk_grid self))%nat ->
           (j < shape1 (risk_grid self))%nat ->
           let at_p :=
             Nat.eqb i (Z.to_nat start_y) && Nat.eqb j (Z.to_nat start_x) in
           cell state i j = Some (if at_p then 1.0 else 0)
           /\ cell (snapshot state) i j = Some (if at_p then 255%Z else 0%Z))
  /\ forall duration_hours,
       (0 <= duration_hours)%Z ->
       Z.of_nat
         (List.length
            (frames (run_simulation self start_x start_y wind_speed wind_dir
                                    duration_hours rand)))
       = (duration_hours * 6 + 1)%Z.
Proof.
  intros Hrect Hin. split.
  - exists (ignite self start_x start_y).
    split; [reflexivity |].
    intros i j Hi Hj at_p. split.
    + rewrite ignited_state by assumption. fold at_p.
      destruct at_p; f_equal; lra.
    + now apply initial_frame.
  - intros duration_hours Hd. rewrite frame_count. lia.
Qed.

Lemma run_simulation_zero_duration_witness :
  rectangular (risk_grid (uniform_engine 3 3 0.8))
  /\ in_bounds (uniform_engine 3 3 0.8) 2 1
  /\ (exists state,
        frames (run_simulation (uniform_engine 3 3 0.8) 2 1 15 0 0 half_draws)
        = [snapshot state]
        /\ cell state 1 2 = Some 1.0
        /\ cell (snapshot state) 1 2 = Some 255%Z
        /\ cell (snapshot state) 1 1 = Some 0%Z)
  /\ Z.of_nat
       (List.length
          (frames (run_simulation (uniform_engine 3 3 0.8) 2 1 15 0 1
                                  half_draws)))
     = (1 * 6 + 1)%Z.
Proof.
  assert (Hrect : rectangular (risk_grid (uniform_engine 3 3 0.8)))
    by apply uniform_rectangular.
  assert (Hin : in_bounds (uniform_engine 3 3 0.8) 2 1)
    by (unfold in_bounds; destruct (uniform_shape 2 3 0.8) as [-> ->]; lia).
  assert (Hd : (0 <= 1)%Z) by lia.
  assert (H1 : (1 < shape0 (risk_grid (uniform_engine 3 3 0.8)))%nat)
    by (destruct (uniform_shape 2 3 0.8) as [-> _]; lia).
  assert (H1' : (1 < shape1 (risk_grid (uniform_engine 3 3 0.8)))%nat)
    by (destruct (uniform_shape 2 3 0.8) as [_ ->]; lia).
  assert (H2 : (2 < shape1 (risk_grid (uniform_engine 3 3 0.8)))%nat)
    by (destruct (uniform_shape 2 3 0.8) as [_ ->]; lia).
  split; [exact Hrect |]. split; [exact Hin |].
  destruct (run_simulation_zero_duration (uniform_engine 3 3 0.8) 2 1 15 0
                                         half_draws Hrect Hin)
    as [(state & Hframes & Hcells) Hcount].
  split.
  - exists state. split; [exact Hframes |].
    split; [exact (proj1 (Hcells 1%nat 2%nat H1 H2)) |].
    split; [exact (proj2 (Hcells 1%nat 2%nat H1 H2)) |].
    exact (proj2 (Hcells 1%nat 1%nat H1 H1')).
  - exact (Hcount 1%Z Hd).
Defined.

(** C1, as the code has it.  From an ignition pixel outside the grid
    [run_simulation] gives no failure signal: the guard skips the ignition
    and the call returns an ordinary series of [steps + 1] frames, all of
    them zero in every cell. *)
Theorem run_simulation_out_of_bounds (self : engine) (start_x start_y : Z)
  (wind_speed wind_dir : R) (duration_hours : Z)
  (rand : nat -> nat -> nat -> R) :
  ~ in_bounds self start_x start_y ->
  (forall t i j, 0 <= rand t i j) ->
  observed (run_simulation self start_x start_y wind_speed wind_dir
                           duration_hours rand)
  = FrameSeries (repeat (map (map (fun _ => 0%Z)) (risk_grid self))
                        (S (Z.to_nat (duration_hours * 6)))).
Proof.
  intros Hout Hrand. unfold observed.
  now rewrite out_of_bounds_series.
Qed.

Lemma outside_100_100 : ~ in_bounds (uniform_engine 100 100 0.8) 150 50.
Proof.
  unfold in_bounds. destruct (uniform_shape 99 100 0.8) as [-> ->]. lia.
Qed.

Lemma half_draws_nonneg : forall t i j, 0 <= half_draws t i j.
Proof. intros t i j. unfold half_draws. lra. Qed.

Lemma run_simulation_out_of_bounds_witness :
  ~ in_bounds (uniform_engine 100 100 0.8) 150 50
  /\ (forall t i j, 0 <= half_draws t i j)
  /\ observed (run_simulation (uniform_engine 100 100 0.8) 150 50 15 225 1
                              half_draws)
     = FrameSeries
         (repeat (map (map (fun _ => 0%Z))
                      (risk_grid (uniform_engine 100 100 0.8)))
                 (S (Z.to_nat (1 * 6)))).
Proof.
  split; [exact outside_100_100 |].
  split; [exact half_draws_nonneg |].
  apply (run_simulation_out_of_bounds (uniform_engine 100 100 0.8) 150 50
                                      15 225 1 half_draws).
  - exact outside_100_100.
  - exact half_draws_nonneg.
Defined.

(** C1, as the specification words it, fails: on the 100x100 grid, from
    pixel (150, 50), the call returns seven all-zero frames and not the
    signal [OutOfBounds]. *)
Lemma run_simulation_no_out_of_bounds_signal :
  observed (run_simulation (uniform_engine 100 100 0.8) 150 50 15 225 1
                           half_draws)
  = FrameSeries (repeat (repeat (repeat 0%Z 100) 100) 7)
  /\ observed (run_simulation (uniform_engine 100 100 0.8) 150 50 15 225 1
                              half_draws)
     <> OutOfBounds.
Proof.
  split; [| discriminate].
  unfold observed.
  rewrite out_of_bounds_series
    by (exact outside_100_100 || exact half_draws_nonneg).
  cbn [uniform_engine risk_grid].
  rewrite map_repeat, map_repeat. reflexivity.
Qed.

(** C3, as the code has it.  When the raster file is missing or cannot be
    opened, the constructor raises nothing: it yields an engine whose
    hazard grid is the 600x800 array of zeros and which has no transform
    and no reference system. *)
Theorem init_without_raster (fs : string -> raster_file) (path : string) :
  fs path = Missing \/ fs path = Unreadable ->
  construct fs path
  = Constructed
      {| risk_map_path := path;
         transform := None;
         crs := None;
         risk_grid := zeros 600 800;
         base_spread_prob := 0.15;
         wind_factor := 0.08 |}.
Proof.
  intros [H | H]; unfold construct, __init__; rewrite H; reflexivity.
Qed.

Lemma init_without_raster_witness :
  ((fun _ : string => Missing) "risk_map.tif"%string = Missing
   \/ (fun _ : string => Missing) "risk_map.tif"%string = Unreadable)
  /\ construct (fun _ => Missing) "risk_map.tif"
     = Constructed
         {| risk_map_path := "risk_map.tif";
            transform := None;
            crs := None;
            risk_grid := zeros 600 800;
            base_spread_prob := 0.15;
            wind_factor := 0.08 |}.
Proof.
  split; [left; reflexivity |].
  apply (init_without_raster (fun _ => Missing) "risk_map.tif").
  left; reflexivity.
Defined.

(** C3, as the specification words it, fails: with no file at the path the
    construction succeeds, and an unreadable file gives the same engine. *)
Lemma init_missing_raster_succeeds :
  construct (fun _ => Missing) "risk_map.tif" <> ConfigurationError
  /\ construct (fun _ => Unreadable) "risk_map.tif" <> ConfigurationError
  /\ exists self,
       construct (fun _ => Missing) "risk_map.tif" = Constructed self
       /\ risk_grid self = zeros 600 800.
Proof.
  split; [discriminate |]. split; [discriminate |].
  eexists. split; reflexivity.
Qed.

(** *** The wind kernel *)

Lemma radians_north : radians (0 - 90) = - (PI / 2).
Proof. unfold radians. lra. Qed.

Lemma radians_east : radians (90 - 90) = 0.
Proof. unfold radians. lra. Qed.

(** For a wind of bearing 0 the vector [(u, v)] points to row 0. *)
Lemma wind_vector_north (self : engine) (speed : R) :
  wind_u self speed 0 = 0
  /\ wind_v self speed 0 = - (speed * wind_factor self).
Proof.
  unfold wind_u, wind_v. rewrite radians_north, cos_neg, sin_neg.
  rewrite cos_PI2, sin_PI2. split; lra.
Qed.

Lemma add_row_3x3 (r : nat) (x k00 k01 k02 k10 k11 k12 k20 k21 k22 : R) :
  add_row r x [ [k00; k01; k02]; [k10; k11; k12]; [k20; k21; k22] ]
  = [ (if Nat.eqb 0 r then [k00 + x; k01 + x; k02 + x] else [k00; k01; k02]);
      (if Nat.eqb 1 r then [k10 + x; k11 + x; k12 + x] else [k10; k11; k12]);
      (if Nat.eqb 2 r then [k20 + x; k21 + x; k22 + x] else [k20; k21; k22]) ].
Proof.
  unfold add_row, imap2, imap. cbn [imap_from].
  destruct (Nat.eqb 0 r), (Nat.eqb 1 r), (Nat.eqb 2 r); reflexivity.
Qed.

Lemma add_col_3x3 (c : nat) (x k00 k01 k02 k10 k11 k12 k20 k21 k22 : R) :
  add_col c x [ [k00; k01; k02]; [k10; k11; k12]; [k20; k21; k22] ]
  = let bump j w := if Nat.eqb j c then w + x else w in
    [ [bump 0%nat k00; bump 1%nat k01; bump 2%nat k02];
      [bump 0%nat k10; bump 1%nat k11; bump 2%nat k12];
      [bump 0%nat k20; bump 1%nat k21; bump 2%nat k22] ].
Proof. reflexivity. Qed.

(** The kernel in closed form: the uniform kernel, whose centre stays 0,
    with the positive part of [v] on row 2, of [-v] on row 0, of [u] on
    column 2 and of [-u] on column 0. *)
Lemma wind_kernel_closed_form (self : engine) (speed direction : R) :
  let u := wind_u self speed direction in
  let v := wind_v self speed direction in
  let north := Rmax (- v) 0 in
  let south := Rmax v 0 in
  let west := Rmax (- u) 0 in
  let east := Rmax u 0 in
  _generate_wind_kernel self speed direction
  = [ [0.1 + north + west; 0.1 + north; 0.1 + north + east];
      [0.1 + west;         0;           0.1 + east];
      [0.1 + south + west; 0.1 + south; 0.1 + south + east] ].
Proof.
  intros u v north south west east.
  unfold _generate_wind_kernel, base_kernel.
  fold u v. subst north south west east.
  destruct (Rlt_dec 0 v) as [Hv1 | Hv1], (Rlt_dec v 0) as [Hv2 | Hv2];
    try (exfalso; lra);
    destruct (Rlt_dec 0 u) as [Hu1 | Hu1], (Rlt_dec u 0) as [Hu2 | Hu2];
    try (exfalso; lra);
    rewrite ?add_row_3x3; cbn [Nat.eqb];
    rewrite ?add_col_3x3; cbv zeta; cbn [Nat.eqb];
    unfold Rabs; repeat destruct (Rcase_abs _); try (exfalso; lra);
    unfold Rmax; repeat destruct (Rle_dec _ _); try (exfalso; lra);
    repeat (f_equal; try lra).
Qed.

(** Bearing 0 at any positive speed: the wind term lands on row 0, and
    row 2 keeps the uniform weights. *)
Lemma wind_kernel_north (self : engine) (speed : R) :
  0 < speed ->
  0 < wind_factor self ->
  _generate_wind_kernel self speed 0
  = [ [0.1 + speed * wind_factor self;
       0.1 + speed * wind_factor self;
       0.1 + speed * wind_factor self];
      [0.1; 0; 0.1];
      [0.1; 0.1; 0.1] ].
Proof.
  intros Hs Hw.
  assert (Hp : 0 < speed * wind_factor self) by now apply Rmult_lt_0_compat.
  pose proof (wind_kernel_closed_form self speed 0) as H. cbv zeta in H.
  destruct (wind_vector_north self speed) as [Hu Hv].
  rewrite Hu, Hv in H. rewrite H.
  rewrite Ropp_involutive, Ropp_0.
  rewrite (Rmax_left (speed * wind_factor self) 0) by lra.
  rewrite (Rmax_right (- (speed * wind_factor self)) 0) by lra.
  rewrite (Rmax_left 0 0) by lra.
  repeat (f_equal; try lra).
Qed.

(** With that kernel the fire runs up the grid: around one burning cell the
    influence on the cell above it (north) is 0.9, on the cell below it
    (south) 0.1, because the convolution mirrors the kernel. *)
Example northerly_wind_influence :
  let state := [ [0; 0; 0]; [0; 1; 0]; [0; 0; 0] ] in
  let kernel := _generate_wind_kernel (uniform_engine 100 100 0.8) 10 0 in
  item 0 (convolve state kernel) 0 1 = 0.9
  /\ item 0 (convolve state kernel) 2 1 = 0.1.
Proof.
  intros state kernel. unfold kernel, state.
  rewrite wind_kernel_north by (cbn [uniform_engine wind_factor]; lra).
  cbn [uniform_engine wind_factor].
  unfold convolve, imap2, imap, padded, item.
  simpl. split; lra.
Qed.

(** C2 at bearing 0.  For a northerly wind of 10 knots the code raises the
    weights of row 0, the top (north) row, from 0.1 to 0.9; those of row 2,
    the bottom (south) row, remain 0.1. *)
Theorem wind_kernel_northerly_raises_top_row :
  _generate_wind_kernel (uniform_engine 100 100 0.8) 10 0
  = [ [0.9; 0.9; 0.9];
      [0.1; 0;   0.1];
      [0.1; 0.1; 0.1] ].
Proof.
  rewrite wind_kernel_north by (cbn [uniform_engine wind_factor]; lra).
  cbn [uniform_engine wind_factor].
  repeat (f_equal; try lra).
Qed.

(** *** Tactical targets *)

Lemma argmax_from_spec (l : list R) :
  forall pre best_i,
    (best_i < List.length pre)%nat ->
    (forall y, In y pre -> y <= nth best_i pre 0) ->
    let k := argmax_from l (List.length pre) best_i (nth best_i pre 0) in
    (k < List.length (pre ++ l))%nat
    /\ forall y, In y (pre ++ l) -> y <= nth k (pre ++ l) 0.
Proof.
  induction l as [| x l IH]; intros pre best_i Hlt Hmax; cbn [argmax_from].
  - rewrite app_nil_r. auto.
  - assert (Hlen : List.length (pre ++ [x]) = S (List.length pre))
      by (rewrite length_app; simpl; lia).
    replace (pre ++ x :: l) with ((pre ++ [x]) ++ l)
      by (rewrite <- app_assoc; reflexivity).
    destruct (Rlt_dec (nth best_i pre 0) x) as [Hx | Hx].
    + specialize (IH (pre ++ [x]) (List.length pre)).
      rewrite Hlen in IH.
      rewrite app_nth2, Nat.sub_diag in IH by lia. cbn [nth] in IH.
      apply IH; [lia |].
      intros y Hy. apply in_app_or in Hy as [Hy | [<- | []]]; [| lra].
      specialize (Hmax y Hy). lra.
    + specialize (IH (pre ++ [x]) best_i).
      rewrite Hlen in IH.
      rewrite app_nth1 in IH by exact Hlt.
      apply IH; [lia |].
      intros y Hy. apply in_app_or in Hy as [Hy | [<- | []]]; [auto | lra].
Qed.

(** On a non-empty array [np.argmax] returns the index of a maximum. *)
Lemma argmax_spec (l : list R) :
  l <> [] ->
  exists k,
    argmax l = Return k
    /\ (k < List.length l)%nat
    /\ forall y, In y l -> y <= nth k l 0.
Proof.
  destruct l as [| x l]; [congruence | intros _].
  exists (argmax_from l 1 0 x). split; [reflexivity |].
  apply (argmax_from_spec l [x] 0%nat); simpl; [lia |].
  intros y [<- | []]. lra.
Qed.

Lemma argmin_returns (l : list R) :
  l <> [] -> exists k, argmin l = Return k.
Proof.
  destruct l as [| x l]; [congruence | intros _]. eexists. reflexivity.
Qed.

Lemma project_projection (cx cy : Z) (wx wy : R) (pts : contour) :
  project cx cy wx wy pts = map (projection cx cy wx wy) pts.
Proof.
  unfold project. apply map_ext. intros [x y]. reflexivity.
Qed.

Lemma project_nonempty (cx cy : Z) (wx wy : R) (pts : contour) :
  pts <> [] -> project cx cy wx wy pts <> [].
Proof. destruct pts as [| [x y] pts]; [congruence | discriminate]. Qed.

(** The vertex at the index that [np.argmax] returns for the projections. *)
Lemma argmax_project (cx cy : Z) (wx wy : R) (pts : contour) :
  pts <> [] ->
  exists k,
    argmax (project cx cy wx wy pts) = Return k
    /\ In (nth k pts (0, 0)%Z) pts
    /\ forall p, In p pts ->
         projection cx cy wx wy p
         <= projection cx cy wx wy (nth k pts (0, 0)%Z).
Proof.
  intros Hne.
  destruct (argmax_spec (project cx cy wx wy pts)) as (k & Hk & Hlt & Hmax);
    [now apply project_nonempty |].
  rewrite project_projection in *. rewrite length_map in Hlt.
  exists k. split; [exact Hk |]. split; [now apply nth_In |].
  intros p Hp.
  rewrite (nth_indep _ 0 (projection cx cy wx wy (0, 0)%Z)) in Hmax
    by now rewrite length_map.
  rewrite map_nth in Hmax.
  apply Hmax. now apply in_map.
Qed.

(** [max] with a key returns the first element of greatest key. *)
Lemma max_by_first {A : Type} (key : A -> R) (rest : list A) :
  forall first,
    exists k,
      nth_error (first :: rest) k = Some (max_by key first rest)
      /\ (forall j x, (j < k)%nat -> nth_error (first :: rest) j = Some x ->
            key x < key (max_by key first rest))
      /\ (forall x, In x (first :: rest) ->
            key x <= key (max_by key first rest)).
Proof.
  unfold max_by.
  induction rest as [| y rest IH]; intros first; cbn [fold_left].
  - exists 0%nat. split; [reflexivity |]. split; [intros j x Hj; lia |].
    intros x [<- | []]. lra.
  - destruct (Rlt_dec (key first) (key y)) as [Hlt | Hge].
    + destruct (IH y) as (k & Hk & Hbefore & Hmax).
      exists (S k). split; [exact Hk |]. split.
      * intros [| j] x Hj Hx; cbn [nth_error] in Hx.
        -- injection Hx as <-.
           specialize (Hmax y (or_introl eq_refl)). lra.
        -- apply (Hbefore j x); [lia | exact Hx].
      * intros x [<- | Hx]; [| now apply Hmax].
        specialize (Hmax y (or_introl eq_refl)). lra.
    + destruct (IH first) as (k & Hk & Hbefore & Hmax).
      destruct k as [| k].
      * exists 0%nat. split; [exact Hk |]. split; [intros j x Hj; lia |].
        intros x [<- | [<- | Hx]].
        -- apply Hmax. now left.
        -- specialize (Hmax first (or_introl eq_refl)). lra.
        -- apply Hmax. now right.
      * exists (S (S k)). split; [exact Hk |].
        assert (Hfirst : key first
                         < key (fold_left
                                  (fun best x =>
                                     if Rlt_dec (key best) (key x)
                                     then x else best) rest first))
          by (apply (Hbefore 0%nat first); [lia | reflexivity]).
        split.
        -- intros [| [| j]] x Hj Hx; cbn [nth_error] in Hx.
           ++ injection Hx as <-. exact Hfirst.
           ++ injection Hx as <-. lra.
           ++ apply (Hbefore (S j) x); [lia | exact Hx].
        -- intros x [<- | [<- | Hx]].
           ++ apply Hmax. now left.
           ++ lra.
           ++ apply Hmax. now right.
Qed.

(** The kernel is the uniform one biased by the wind term
    [wind_speed * wind_factor] along [(cos r, sin r)], with
    [r = radians (direction - 90)]. *)
Lemma wind_kernel_biased (self : engine) (speed direction : R) :
  _generate_wind_kernel self speed direction
  = biased_kernel
      (speed * wind_factor self * cos (radians (direction - 90)))
      (speed * wind_factor self * sin (radians (direction - 90))).
Proof.
  rewrite wind_kernel_closed_form. cbv zeta.
  unfold wind_u, wind_v, biased_kernel.
  replace (speed * cos (radians (direction - 90)) * wind_factor self)
    with (speed * wind_factor self * cos (radians (direction - 90))) by ring.
  replace (speed * sin (radians (direction - 90)) * wind_factor self)
    with (speed * wind_factor self * sin (radians (direction - 90))) by ring.
  reflexivity.
Qed.

(** C5 (Alpha Head).  Whenever the largest contour has vertices and area,
    it is a contour that OpenCV found and no contour found has a greater
    area; [analyze_tactics] returns targets whose first entry, "Alpha
    Head", is the vertex of that contour of greatest projection, from the
    centroid, onto [(vx, vy) = (cos r, sin r)] with
    [r = radians (wind_dir - 90)].  This is a unit vector, and the one along
    which [_generate_wind_kernel] biases the spread kernel for the same
    bearing.  At bearing 90 it is [(1, 0)], pointing east along the
    columns, and Alpha Head is an easternmost vertex: no vertex has a
    greater column.  An ellipse lying east-west is one such contour. *)
Theorem analyze_tactics_alpha_head {cv2 : OpenCV} (self : engine)
  (fire_mask : frame) (wind_speed wind_dir : R)
  (first : contour) (rest : list contour) :
  findContours fire_mask = first :: rest ->
  max_by contourArea first rest <> [] ->
  m00 (moments (max_by contourArea first rest)) <> 0 ->
  let largest := max_by contourArea first rest in
  let vx := cos (radians (wind_dir - 90)) in
  let vy := sin (radians (wind_dir - 90)) in
  exists plan alpha,
    analyze_tactics self fire_mask wind_speed wind_dir = Return (Some plan)
    /\ nth_error (targets plan) 0 = Some ("Alpha Head"%string, alpha)
    /\ In largest (findContours fire_mask)
    /\ (forall c, In c (findContours fire_mask) ->
          contourArea c <= contourArea largest)
    /\ In alpha largest
    /\ vx * vx + vy * vy = 1
    /\ _generate_wind_kernel self wind_speed wind_dir
       = biased_kernel (wind_speed * wind_factor self * vx)
                       (wind_speed * wind_factor self * vy)
    /\ (forall p, In p largest ->
          projection (fst (centroid plan)) (snd (centroid plan)) vx vy p
          <= projection (fst (centroid plan)) (snd (centroid plan)) vx vy alpha)
    /\ (wind_dir = 90 ->
        vx = 1 /\ vy = 0
        /\ forall p, In p largest -> (fst p <= fst alpha)%Z).
Proof.
  intros Hfind Hne Harea largest vx vy.
  destruct (max_by_first contourArea rest first) as (k & Hk & _ & Hgreatest).
  fold largest in Hk, Hgreatest.
  unfold analyze_tactics. rewrite Hfind. fold largest.
  destruct (Req_dec_T (m00 (moments largest)) 0) as [H0 | _];
    [now elim Harea |].
  set (cx := int (m10 (moments largest) / m00 (moments largest))).
  set (cy := int (m01 (moments largest) / m00 (moments largest))).
  fold vx vy.
  destruct (argmax_project cx cy vx vy largest Hne) as (ka & -> & Hin & Hmax).
  destruct (argmin_returns (project cx cy (- vy) vx largest)) as [kb ->];
    [now apply project_nonempty |].
  destruct (argmax_project cx cy (- vy) vx largest Hne) as (kc & -> & _ & _).
  cbn [bind].
  eexists. exists (nth ka largest (0, 0)%Z).
  split; [reflexivity |]. cbn [targets centroid fst snd nth_error].
  split; [reflexivity |].
  split; [now apply nth_error_In in Hk |].
  split; [exact Hgreatest |]. split; [exact Hin |].
  split; [pose proof (sin2_cos2 (radians (wind_dir - 90))) as Hunit;
          unfold Rsqr in Hunit; subst vx vy; lra |].
  split; [apply wind_kernel_biased |].
  split; [exact Hmax |].
  intros ->. subst vx vy. rewrite radians_east, cos_0, sin_0 in *.
  split; [reflexivity |]. split; [reflexivity |].
  intros p Hp. specialize (Hmax p Hp).
  unfold projection in Hmax.
  assert (Hle : IZR (fst p - cx) <= IZR (fst (nth ka largest (0, 0)%Z) - cx))
    by lra.
  apply le_IZR in Hle. lia.
Qed.

Lemma analyze_tactics_alpha_head_witness :
  @findContours ellipse_cv2 [] = [ellipse]
  /\ @max_by contour (@contourArea ellipse_cv2) ellipse [] <> []
  /\ m00 (@moments ellipse_cv2
            (@max_by contour (@contourArea ellipse_cv2) ellipse [])) <> 0
  /\ exists plan,
       @analyze_tactics ellipse_cv2 (uniform_engine 12 16 0.8) [] 15 90
       = Return (Some plan)
       /\ exists alpha,
            nth_error (targets plan) 0 = Some ("Alpha Head"%string, alpha)
            /\ forall p, In p ellipse -> (fst p <= fst alpha)%Z.
Proof.
  assert (Hne : @max_by contour (@contourArea ellipse_cv2) ellipse [] <> [])
    by discriminate.
  assert (Harea : m00 (@moments ellipse_cv2
                         (@max_by contour (@contourArea ellipse_cv2) ellipse []))
                  <> 0)
    by (simpl; lra).
  split; [reflexivity |]. split; [exact Hne |]. split; [exact Harea |].
  destruct (@analyze_tactics_alpha_head ellipse_cv2 (uniform_engine 12 16 0.8)
              [] 15 90 ellipse [] eq_refl Hne Harea)
    as (plan & alpha & Hrun & Hfirst & _ & _ & _ & _ & _ & _ & Heast).
  exists plan. split; [exact Hrun |].
  exists alpha. split; [exact Hfirst |].
  exact (proj2 (proj2 (Heast eq_refl))).
Defined.

(** *** A run of the analysis on the ellipse *)

Lemma argmax_from_IZR (l : list Z) :
  forall i best_i best,
    argmax_from (map IZR l) i best_i (IZR best)
    = argmaxZ_from l i best_i best.
Proof.
  induction l as [| x l IH]; intros i best_i best; [reflexivity |].
  cbn [map argmax_from argmaxZ_from].
  destruct (Rlt_dec (IZR best) (IZR x)) as [Hlt | Hge],
           (Z.ltb_spec best x) as [Hz | Hz]; try apply IH.
  - apply lt_IZR in Hlt. lia.
  - elim Hge. now apply IZR_lt.
Qed.

Lemma argmin_from_IZR (l : list Z) :
  forall i best_i best,
    argmin_from (map IZR l) i best_i (IZR best)
    = argminZ_from l i best_i best.
Proof.
  induction l as [| x l IH]; intros i best_i best; [reflexivity |].
  cbn [map argmin_from argminZ_from].
  destruct (Rlt_dec (IZR x) (IZR best)) as [Hlt | Hge],
           (Z.ltb_spec x best) as [Hz | Hz]; try apply IH.
  - apply lt_IZR in Hlt. lia.
  - elim Hge. now apply IZR_lt.
Qed.

Lemma project_east (cx cy : Z) (pts : contour) :
  project cx cy 1 0 pts = map IZR (map (fun p => (fst p - cx)%Z) pts).
Proof.
  unfold project. rewrite map_map. apply map_ext. intros [x y].
  cbn [fst]. ring.
Qed.

Lemma project_south (cx cy : Z) (pts : contour) :
  project cx cy (- 0) 1 pts = map IZR (map (fun p => (snd p - cy)%Z) pts).
Proof.
  unfold project. rewrite map_map. apply map_ext. intros [x y].
  cbn [snd]. ring.
Qed.

Lemma argmax_IZR (l : list Z) :
  argmax (map IZR l)
  = match l with
    | [] => Raise ValueError
    | z :: zs => Return (argmaxZ_from zs 1 0 z)
    end.
Proof.
  destruct l as [| z zs]; [reflexivity |].
  cbn [map argmax]. now rewrite argmax_from_IZR.
Qed.

Lemma argmin_IZR (l : list Z) :
  argmin (map IZR l)
  = match l with
    | [] => Raise ValueError
    | z :: zs => Return (argminZ_from zs 1 0 z)
    end.
Proof.
  destruct l as [| z zs]; [reflexivity |].
  cbn [map argmin]. now rewrite argmin_from_IZR.
Qed.

(** At bearing 90 the analysis of the ellipse puts Alpha Head on its east
    end (12, 3), and the flanks on its north and south sides. *)
Example analyze_tactics_on_ellipse :
  exists plan,
    @analyze_tactics ellipse_cv2 (uniform_engine 12 16 0.8) [] 15 90
    = Return (Some plan)
    /\ targets plan
       = [ ("Alpha Head", (12, 3)); ("Bravo Flank", (3, 0));
           ("Charlie Flank", (9, 6)) ]%Z%string
    /\ centroid plan = (6, 3)%Z.
Proof.
  unfold analyze_tactics.
  cbn [findContours contourArea moments arcLength ellipse_cv2 max_by fold_left
       m00 m10 m01].
  destruct (Req_dec_T 54 0) as [Hbad | _]; [exfalso; lra |].
  replace (324 / 54) with (IZR 6) by lra.
  replace (162 / 54) with (IZR 3) by lra.
  rewrite !int_IZR by lia.
  rewrite radians_east, cos_0, sin_0, project_east, project_south.
  rewrite !argmax_IZR, argmin_IZR.
  replace (map (fun p => (fst p - 6)%Z) ellipse)
    with [6; 5; 3; 0; -3; -5; -6; -5; -3; 0; 3; 5]%Z by reflexivity.
  replace (map (fun p => (snd p - 3)%Z) ellipse)
    with [0; 2; 3; 3; 3; 2; 0; -2; -3; -3; -3; -2]%Z by reflexivity.
  cbn [bind].
  eexists. split; [reflexivity |]. cbn [targets centroid].
  split; [| reflexivity].
  vm_compute. reflexivity.
Qed.
End FireProperties.

(** * Properties of the allocator *)

Module AllocatorProperties.
Import QuantumResourceSolver AllocatorVocabulary.
Open Scope Q_scope.

(** *** The inner loop *)

Lemma consider_merit (uniform : nat -> Q) (t_name : string) (st : search)
  (candidate : asset) :
  consider uniform t_name st candidate
  = let score := merit t_name candidate + uniform (drawn st) in
    if exceeds score (best_score st)
    then {| best_asset := Some candidate;
            best_score := Finite score;
            drawn := S (drawn st) |}
    else {| best_asset := best_asset st;
            best_score := best_score st;
            drawn := S (drawn st) |}.
Proof. reflexivity. Qed.

(** A candidate whose score does not pass the best one changes nothing but
    the count of draws. *)
Lemma consider_keeps (uniform : nat -> Q) (t_name : string) (candidate : asset)
  (best : option asset) (s : Q) (n : nat) :
  merit t_name candidate + uniform n <= s ->
  consider uniform t_name
           {| best_asset := best; best_score := Finite s; drawn := n |}
           candidate
  = {| best_asset := best; best_score := Finite s; drawn := S n |}.
Proof.
  intros Hle. rewrite consider_merit. cbn [best_score best_asset drawn exceeds].
  destruct (Qlt_le_dec s (merit t_name candidate + uniform n)) as [Hlt | _];
    [| reflexivity].
  exfalso. apply (Qlt_not_le _ _ Hlt). exact Hle.
Qed.

(** The first candidate always passes [-inf]. *)
Lemma consider_first (uniform : nat -> Q) (t_name : string) (candidate : asset)
  (n : nat) :
  consider uniform t_name
           {| best_asset := None; best_score := NegInf; drawn := n |}
           candidate
  = {| best_asset := Some candidate;
       best_score := Finite (merit t_name candidate + uniform n);
       drawn := S n |}.
Proof. reflexivity. Qed.

(** The unit that the inner loop settles on is one of the pool. *)
Lemma found_in_pool (uniform : nat -> Q) (t_name : string) (units : list asset) :
  forall st best,
    best_asset (fold_left (consider uniform t_name) units st) = Some best ->
    best_asset st = Some best \/ In best units.
Proof.
  induction units as [| unit units IH]; intros st best Hbest; [now left |].
  cbn [fold_left] in Hbest. apply IH in Hbest as [Hbest | Hin].
  - rewrite consider_merit in Hbest. cbv zeta in Hbest.
    destruct (exceeds _ _); cbn [best_asset] in Hbest.
    + injection Hbest as <-. right. now left.
    + now left.
  - right. now right.
Qed.

(** A non-empty pool always yields a unit. *)
Lemma found_some (uniform : nat -> Q) (t_name : string) (units : list asset) :
  forall st,
    (best_asset st <> None \/ (best_score st = NegInf /\ units <> [])) ->
    best_asset (fold_left (consider uniform t_name) units st) <> None.
Proof.
  induction units as [| unit units IH]; intros st [Hst | [Hinf Hne]].
  - exact Hst.
  - congruence.
  - cbn [fold_left]. apply IH. left.
    rewrite consider_merit. cbv zeta.
    destruct (exceeds _ _); cbn [best_asset]; [discriminate | exact Hst].
  - cbn [fold_left]. apply IH. left.
    rewrite consider_merit. cbv zeta. rewrite Hinf. cbn [exceeds best_asset].
    discriminate.
Qed.

(** *** The outer loop *)

Lemma NoDup_snoc {A : Type} (l : list A) (x : A) :
  NoDup l -> ~ In x l -> NoDup (l ++ [x]).
Proof.
  intros Hl Hx. apply NoDup_app; [exact Hl | repeat constructor; auto |].
  intros y Hy [<- | []]. contradiction.
Qed.

(** Removing the chosen unit from a pool that holds it shortens the pool. *)
Lemma remove_shortens (best : asset) (units : list asset) :
  In best units ->
  (List.length (filter (fun x => negb (String.eqb (id x) (id best))) units)
   < List.length units)%nat.
Proof.
  induction units as [| unit units IH]; intros Hin; [contradiction |].
  cbn [filter]. destruct Hin as [-> | Hin].
  - rewrite String.eqb_refl. cbn [negb].
    pose proof (filter_length_le
                  (fun x => negb (String.eqb (id x) (id best))) units).
    simpl. lia.
  - specialize (IH Hin). destruct (negb _); simpl; lia.
Qed.

Lemma allocating_start (fleet0 : list asset) (n : nat) :
  allocating fleet0 [] {| solution := []; pool := fleet0; used := n |}.
Proof.
  constructor; cbn [solution pool List.length map];
    try constructor; try lia; auto; intros x [].
Qed.

(** One target more, whose label has not been met before. *)
Lemma allocating_assign (uniform : nat -> Q) (fleet0 : list asset)
  (done : list (string * (Z * Z))) (st : progress) (t : string * (Z * Z)) :
  allocating fleet0 done st ->
  ~ In (fst t) (map fst done) ->
  allocating fleet0 (t :: done) (assign uniform st t).
Proof.
  intros Inv Hnew. destruct t as [t_name t_coords]. cbn [fst] in Hnew.
  unfold assign.
  destruct (best_asset (fold_left _ _ _)) as [best |] eqn:Hbest.
  - apply found_in_pool in Hbest as [Hbest | Hin]; [discriminate |].
    pose proof (remove_shortens best (pool st) Hin) as Hshort.
    constructor; cbn [solution pool].
    + rewrite length_app. pose proof (few_for_targets _ _ _ Inv). simpl. lia.
    + rewrite length_app. pose proof (few_for_fleet _ _ _ Inv). simpl. lia.
    + rewrite map_app. cbn [map asset_id].
      apply NoDup_snoc; [apply (assets_once _ _ _ Inv) |].
      now apply (assets_taken _ _ _ Inv).
    + intros unit Hunit. apply filter_In in Hunit as [Hunit Hid].
      rewrite map_app. cbn [map asset_id]. intros Hbad.
      apply in_app_or in Hbad as [Hbad | [Hbad | []]].
      * now apply (assets_taken _ _ _ Inv unit).
      * rewrite <- Hbad, String.eqb_refl in Hid. discriminate.
    + intros unit Hunit. apply filter_In in Hunit as [Hunit _].
      now apply (pool_of_fleet _ _ _ Inv).
    + intros x Hx. apply in_app_or in Hx as [Hx | [<- | []]].
      * now apply (assets_of_fleet _ _ _ Inv).
      * cbn [asset_id]. apply in_map. now apply (pool_of_fleet _ _ _ Inv).
    + rewrite map_app. cbn [map target].
      apply NoDup_snoc; [apply (targets_once _ _ _ Inv) |].
      intros Hbad. apply in_map_iff in Hbad as (x & Hx & Hin').
      apply Hnew. apply in_map_iff.
      exists (target x, coords x). split; [exact Hx |].
      now apply (targets_done _ _ _ Inv).
    + intros x Hx. apply in_app_or in Hx as [Hx | [<- | []]].
      * right. now apply (targets_done _ _ _ Inv).
      * now left.
  - constructor; cbn [solution pool].
    + pose proof (few_for_targets _ _ _ Inv). simpl. lia.
    + apply (few_for_fleet _ _ _ Inv).
    + apply (assets_once _ _ _ Inv).
    + apply (assets_taken _ _ _ Inv).
    + apply (pool_of_fleet _ _ _ Inv).
    + apply (assets_of_fleet _ _ _ Inv).
    + apply (targets_once _ _ _ Inv).
    + intros x Hx. right. now apply (targets_done _ _ _ Inv).
Qed.

Lemma allocating_fold (uniform : nat -> Q) (fleet0 : list asset)
  (targets : list (string * (Z * Z))) :
  forall done st,
    allocating fleet0 done st ->
    NoDup (map fst targets) ->
    (forall s, In s (map fst targets) -> ~ In s (map fst done)) ->
    allocating fleet0 (rev targets ++ done)
               (fold_left (assign uniform) targets st).
Proof.
  induction targets as [| t targets IH]; intros done st Inv Hdup Hfresh;
    [exact Inv |].
  cbn [fold_left rev]. rewrite <- app_assoc. cbn [app].
  cbn [map] in Hdup, Hfresh. inversion Hdup as [| ? ? Hnotin Hdup']; subst.
  apply IH.
  - apply allocating_assign; [exact Inv |]. apply Hfresh. now left.
  - exact Hdup'.
  - intros s Hs. cbn [map]. intros [<- | Hbad]; [contradiction |].
    apply (Hfresh s); [now right | exact Hbad].
Qed.

(** C9 (one-to-one, partial).  For every solver state, every dictionary of
    targets (its keys are distinct) and every outcome of the draws, the
    returned list has at most min(#targets, #fleet) entries, no asset id and
    no target label occurs twice in it, and every entry pairs a unit of the
    fleet with an item of the dictionary.  The function is total: targets
    beyond the fleet get no entry and nothing is raised. *)
Theorem optimize_response_one_to_one (self : solver)
  (targets : list (string * (Z * Z))) (uniform : nat -> Q) :
  NoDup (map fst targets) ->
  let answer := fst (optimize_response self targets uniform) in
  (List.length answer
   <= Nat.min (List.length targets) (List.length (fleet self)))%nat
  /\ NoDup (map asset_id answer)
  /\ NoDup (map target answer)
  /\ forall x, In x answer ->
       In (asset_id x) (map id (fleet self))
       /\ In (target x, coords x) targets.
Proof.
  intros Hdup answer.
  pose proof (allocating_fold uniform (fleet self) targets [] _
                (allocating_start (fleet self) 0) Hdup
                (fun s _ Hbad => Hbad)) as Inv.
  rewrite app_nil_r in Inv.
  unfold answer, optimize_response. cbn [fst].
  split; [| split; [| split]].
  - pose proof (few_for_targets _ _ _ Inv) as H1.
    pose proof (few_for_fleet _ _ _ Inv) as H2.
    rewrite length_rev in H1. lia.
  - apply (assets_once _ _ _ Inv).
  - apply (targets_once _ _ _ Inv).
  - intros x Hx. split; [now apply (assets_of_fleet _ _ _ Inv) |].
    apply in_rev. now apply (targets_done _ _ _ Inv).
Qed.

Lemma ellipse_targets_distinct : NoDup (map fst ellipse_targets).
Proof.
  cbn [map fst ellipse_targets].
  repeat constructor; cbn [In]; intuition discriminate.
Qed.

Lemma optimize_response_one_to_one_witness :
  NoDup (map fst ellipse_targets)
  /\ let answer := fst (optimize_response __init__ ellipse_targets no_noise) in
     (List.length answer
      <= Nat.min (List.length ellipse_targets) (List.length (fleet __init__)))%nat
     /\ NoDup (map asset_id answer)
     /\ NoDup (map target answer)
     /\ forall x, In x answer ->
          In (asset_id x) (map id (fleet __init__))
          /\ In (target x, coords x) ellipse_targets.
Proof.
  split; [exact ellipse_targets_distinct |].
  apply (optimize_response_one_to_one __init__ ellipse_targets no_noise).
  exact ellipse_targets_distinct.
Defined.

(** The allocator run on the three targets with the noise pinned to zero:
    the tanker takes the head, the first two engines take the flanks. *)
Example optimize_response_without_noise :
  fst (optimize_response __init__ ellipse_targets no_noise)
  = [ {| asset_id := "TANKER-01"; target := "Alpha Head";
         coords := (12, 3)%Z |};
      {| asset_id := "ENGINE-A"; target := "Bravo Flank";
         coords := (3, 0)%Z |};
      {| asset_id := "ENGINE-B"; target := "Charlie Flank";
         coords := (9, 6)%Z |} ].
Proof. vm_compute. reflexivity. Qed.

(** *** The head goes to the tanker *)

(** C7 (the aerial unit takes Alpha Head).  On the roster, whose only
    Aerial unit is TANKER-01, and for the targets {"Alpha Head": (0, 0)},
    the answer is the single assignment of TANKER-01 to Alpha Head, for
    every outcome of the draws in [-5, 5], the draws pinned to zero among
    them: the tanker scores at least 75 and every other unit at most 5. *)
Theorem optimize_response_alpha_head (uniform : nat -> Q) :
  (forall n, -5 <= uniform n <= 5) ->
  map id (filter (fun unit => String.eqb (type unit) "Aerial") (fleet __init__))
  = [ "TANKER-01"%string ]
  /\ fst (optimize_response __init__ [ ("Alpha Head"%string, (0, 0)%Z) ]
                            uniform)
     = [ {| asset_id := "TANKER-01"; target := "Alpha Head";
            coords := (0, 0)%Z |} ].
Proof.
  intros Hnoise. split; [reflexivity |].
  pose proof (Hnoise 0%nat) as H0. pose proof (Hnoise 1%nat) as H1.
  pose proof (Hnoise 2%nat) as H2. pose proof (Hnoise 3%nat) as H3.
  pose proof (Hnoise 4%nat) as H4.
  unfold optimize_response, __init__, roster.
  cbn [fst fold_left fleet]. unfold assign. cbn [pool used fold_left].
  rewrite consider_first.
  change (merit "Alpha Head" _) with (0 + 50 + 30).
  rewrite !consider_keeps
    by (change (merit "Alpha Head" _) with 0; Lqa.lra).
  reflexivity.
Qed.

Lemma no_noise_in_range : forall n, -5 <= no_noise n <= 5.
Proof. intros n. unfold no_noise. split; Lqa.lra. Qed.

Lemma optimize_response_alpha_head_witness :
  (forall n, -5 <= no_noise n <= 5)
  /\ fst (optimize_response __init__ [ ("Alpha Head"%string, (0, 0)%Z) ]
                            no_noise)
     = [ {| asset_id := "TANKER-01"; target := "Alpha Head";
            coords := (0, 0)%Z |} ].
Proof.
  split; [exact no_noise_in_range |].
  apply (proj2 (optimize_response_alpha_head no_noise no_noise_in_range)).
Defined.

(** *** The roster after a call *)

Lemma session_fresh (calls : list (list (string * (Z * Z)) * (nat -> Q))) :
  session __init__ calls
  = (map (fun call => fst (optimize_response __init__ (fst call) (snd call)))
         calls,
     __init__).
Proof.
  induction calls as [| [targets uniform] calls IH]; [reflexivity |].
  cbn [session]. unfold optimize_response at 1. rewrite IH. reflexivity.
Qed.

(** C8 (no state across calls).  Whatever fleet a solver holds when
    [optimize_response] is entered, it holds the roster of five units
    again when the call returns.  Hence in any series of calls on a new
    solver every call starts from that roster and answers as the first
    call of a new solver would, and the roster is what remains. *)
Theorem optimize_response_resets_fleet (self : solver)
  (targets : list (string * (Z * Z))) (uniform : nat -> Q) :
  snd (optimize_response self targets uniform) = __init__
  /\ fleet (snd (optimize_response self targets uniform)) = roster
  /\ List.length roster = 5%nat
  /\ forall calls,
       fst (session __init__ calls)
       = map (fun call =>
                fst (optimize_response __init__ (fst call) (snd call)))
             calls
       /\ snd (session __init__ calls) = __init__.
Proof.
  split; [reflexivity |]. split; [reflexivity |]. split; [reflexivity |].
  intros calls. rewrite session_fresh. split; reflexivity.
Qed.

End AllocatorProperties.

(** * Properties of the router *)

Module RouterProperties.
Import LogisticsRouter RouterVocabulary.
Open Scope R_scope.

(** *** Exact arithmetic: the distance never fails *)

Lemma unit_dot (a b c d : R) :
  a * a + b * b = 1 -> c * c + d * d = 1 ->
  -1 <= a * c + b * d <= 1 /\ -1 <= a * c - b * d <= 1.
Proof.
  intros H1 H2.
  pose proof (Rle_0_sqr (a - c)). pose proof (Rle_0_sqr (b - d)).
  pose proof (Rle_0_sqr (a + c)). pose proof (Rle_0_sqr (b + d)).
  unfold Rsqr in *. repeat split; lra.
Qed.

Lemma half_angle_bounds (x y h : R) :
  0 <= sin ((y - x) / 2) ^ 2 + cos x * cos y * sin h ^ 2 <= 1.
Proof.
  assert (Hhalf : sin ((y - x) / 2) ^ 2 = (1 - cos (y - x)) / 2).
  { replace (y - x) with (2 * ((y - x) / 2)) at 2 by lra.
    rewrite cos_2a_sin. lra. }
  rewrite Hhalf, cos_minus.
  pose proof (sin2_cos2 x) as Hx. pose proof (sin2_cos2 y) as Hy.
  pose proof (sin2_cos2 h) as Hh. unfold Rsqr in *.
  destruct (unit_dot (cos y) (sin y) (cos x) (sin x)) as [[A1 A2] [B1 B2]];
    [lra | lra |].
  set (s := sin h ^ 2).
  assert (Hs : 0 <= s <= 1) by (unfold s; nra).
  set (p := cos y * cos x) in *. set (q := sin y * sin x) in *.
  replace (cos x * cos y) with p by (unfold p; ring).
  split; nra.
Qed.

(** Without rounding [a] is the haversine of the central angle. *)
Lemma haversine_a_exact (lat1 lon1 lat2 lon2 : R) :
  @haversine_a exact_arithmetic lat1 lon1 lat2 lon2
  = sin (radians (lat2 - lat1) / 2) ^ 2
    + cos (radians lat1) * cos (radians lat2)
      * sin (radians (lon2 - lon1) / 2) ^ 2.
Proof. reflexivity. Qed.

(** Without rounding both square roots of [_haversine] are taken of
    numbers in [0, 1]. *)
Lemma haversine_a_bounds (lat1 lon1 lat2 lon2 : R) :
  0 <= @haversine_a exact_arithmetic lat1 lon1 lat2 lon2 <= 1.
Proof.
  rewrite haversine_a_exact.
  replace (radians (lat2 - lat1)) with (radians lat2 - radians lat1)
    by (unfold radians; field).
  apply half_angle_bounds.
Qed.

(** The two ways out of [_haversine]. *)
Lemma haversine_outcome {fp : Float64} (lat1 lon1 lat2 lon2 : R) :
  let a := haversine_a lat1 lon1 lat2 lon2 in
  (0 <= a /\ 0 <= RN (1 - a)
   /\ _haversine lat1 lon1 lat2 lon2
      = Return (RN (6371 * RN (2 * math_atan2 (RN (sqrt a))
                                             (RN (sqrt (RN (1 - a))))))))
  \/ ((a < 0 \/ RN (1 - a) < 0)
      /\ _haversine lat1 lon1 lat2 lon2 = Raise ValueError).
Proof.
  intros a. unfold _haversine, math_sqrt. fold a.
  destruct (Rlt_dec a 0) as [Hneg | Hpos]; cbn [bind];
    [right; split; [now left | reflexivity] |].
  destruct (Rlt_dec (RN (1 - a)) 0) as [Hneg | Hpos']; cbn [bind];
    [right; split; [now right | reflexivity] |].
  left. split; [lra |]. split; [lra | reflexivity].
Qed.

Lemma haversine_raises {fp : Float64} (lat1 lon1 lat2 lon2 : R)
  (e : exception) :
  _haversine lat1 lon1 lat2 lon2 = Raise e -> e = ValueError.
Proof.
  destruct (haversine_outcome lat1 lon1 lat2 lon2)
    as [(_ & _ & ->) | (_ & ->)]; [discriminate | now intros [= <-]].
Qed.

Lemma haversine_returns (lat1 lon1 lat2 lon2 : R) :
  exists dist, @_haversine exact_arithmetic lat1 lon1 lat2 lon2 = Return dist.
Proof.
  pose proof (haversine_a_bounds lat1 lon1 lat2 lon2) as [H0 H1].
  destruct (@haversine_outcome exact_arithmetic lat1 lon1 lat2 lon2)
    as [(_ & _ & ->) | ([Hneg | Hneg] & _)].
  - eexists. reflexivity.
  - lra.
  - cbn [RN exact_arithmetic] in Hneg. lra.
Qed.

(** *** The base of an asset *)

Lemma has_key_getitem {V : Type} (dict : list (string * V)) (key : string) :
  has_key dict key = true -> exists v, getitem dict key = Return v.
Proof.
  induction dict as [| [k v] dict IH]; cbn [has_key existsb getitem fst];
    [discriminate |].
  destruct (String.eqb k key); [intros _; now exists v | exact IH].
Qed.

(** The key chosen for an asset id is always a key of [BASES]. *)
Lemma base_key_known (asset_id : string) :
  has_key BASES (base_key_of asset_id) = true.
Proof.
  unfold base_key_of.
  destruct (has_key BASES (if contains "TANKER" asset_id then _ else _))
    eqn:Hkey; cbn [negb]; [exact Hkey |].
  destruct (contains "ENGINE" asset_id); [reflexivity |].
  destruct (contains "CREW" asset_id); reflexivity.
Qed.

Lemma base_found (asset_id : string) :
  exists start, getitem BASES (base_key_of asset_id) = Return start.
Proof. apply has_key_getitem, base_key_known. Qed.

(** An id that is a key of [BASES] and names no tanker has its own base. *)
Lemma base_key_own (asset_id : string) :
  contains "TANKER" asset_id = false ->
  has_key BASES asset_id = true ->
  base_key_of asset_id = asset_id.
Proof.
  intros Htanker Hkey. unfold base_key_of. rewrite Htanker, Hkey.
  reflexivity.
Qed.

(** *** The direct route *)

(** The direct route is made exactly when the distance is computed. *)
Lemma direct_route_outcome {fp : Float64} (start : base)
  (lat_target lon_target : R) (speed_kmh : R) (mode : string) :
  (exists dist_km,
     _haversine (lat start) (lon start) lat_target lon_target = Return dist_km
     /\ _make_direct_route start lat_target lon_target speed_kmh mode
        = Return
            {| origin := name start;
               distance_km := round2 dist_km;
               duration_min := Z.max 1 (int (dist_km / speed_kmh * 60) + 2);
               path := [ (lat start, lon start); (lat_target, lon_target) ];
               type := mode |})
  \/ (_haversine (lat start) (lon start) lat_target lon_target
      = Raise ValueError
      /\ _make_direct_route start lat_target lon_target speed_kmh mode
         = Raise ValueError).
Proof.
  unfold _make_direct_route.
  destruct (haversine_outcome (lat start) (lon start) lat_target lon_target)
    as [(_ & _ & ->) | (_ & ->)]; cbn [bind].
  - left. eexists. split; reflexivity.
  - right. split; reflexivity.
Qed.

Lemma direct_route_returns (start : base) (lat_target lon_target : R)
  (speed_kmh : R) (mode : string) :
  exists dist_km,
    @_haversine exact_arithmetic (lat start) (lon start) lat_target lon_target
    = Return dist_km
    /\ @_make_direct_route exact_arithmetic start lat_target lon_target
         speed_kmh mode
       = Return
           {| origin := name start;
              distance_km := round2 dist_km;
              duration_min := Z.max 1 (int (dist_km / speed_kmh * 60) + 2);
              path := [ (lat start, lon start); (lat_target, lon_target) ];
              type := mode |}.
Proof.
  destruct (haversine_returns (lat start) (lon start) lat_target lon_target)
    as [dist_km Hdist].
  exists dist_km. split; [exact Hdist |].
  unfold _make_direct_route. rewrite Hdist. reflexivity.
Qed.

(** A smart route that returns is tagged as such. *)
Lemma smart_route_type {fp : Float64} {libs : RoadLibraries} (g : Graph)
  (start : base) (lat_target lon_target : R)
  (avoid_polygon : option (list (R * R))) (r : route) :
  smart_route g start lat_target lon_target avoid_polygon = Return r ->
  type r = "Road (Smart)"%string.
Proof.
  unfold smart_route.
  repeat match goal with
         | |- context [bind ?m _] =>
             destruct m; cbn [bind]; [| discriminate]
         end.
  intros [= <-]. reflexivity.
Qed.

(** What makes the smart route raise: a failed snap to the network ... *)
Lemma smart_route_snap_fails {fp : Float64} {libs : RoadLibraries}
  (g : Graph) (start : base) (lat_target lon_target : R)
  (avoid_polygon : option (list (R * R))) :
  (forall g' x y, exists e, nearest_nodes g' x y = Raise e) ->
  exists e,
    smart_route g start lat_target lon_target avoid_polygon = Raise e.
Proof.
  intros Hsnap. unfold smart_route.
  match goal with
  | |- context [nearest_nodes ?g' (lon start) (lat start)] =>
      destruct (Hsnap g' (lon start) (lat start)) as [e ->]
  end.
  exists e. reflexivity.
Qed.

(** ... or two nodes with no path between them. *)
Lemma smart_route_no_path {fp : Float64} {libs : RoadLibraries}
  (g : Graph) (start : base) (lat_target lon_target : R)
  (avoid_polygon : option (list (R * R))) :
  (forall g' n m, exists e, shortest_path g' n m = Raise e) ->
  exists e,
    smart_route g start lat_target lon_target avoid_polygon = Raise e.
Proof.
  intros Hpath. unfold smart_route.
  repeat match goal with
         | |- context [bind (nearest_nodes ?g' ?x ?y) _] =>
             destruct (nearest_nodes g' x y) as [? | e];
             cbn [bind]; [| now exists e]
         end.
  match goal with
  | |- context [shortest_path ?g' ?n ?m] =>
      destruct (Hpath g' n m) as [e ->]
  end.
  exists e. reflexivity.
Qed.

(** *** The fallback *)

(** For a ground unit without a usable smart route the call is the direct
    route at 15 km/h from the base of the unit, whatever that call does. *)
Lemma calculate_route_fallback {fp : Float64} {libs : RoadLibraries}
  (self : router) (lat_target lon_target : R) (asset_id : string)
  (avoid_polygon : option (list (R * R))) :
  ground asset_id ->
  degraded self lat_target lon_target asset_id avoid_polygon ->
  exists start,
    getitem BASES (base_key_of asset_id) = Return start
    /\ calculate_route self lat_target lon_target asset_id avoid_polygon
       = _make_direct_route start lat_target lon_target 15.0
                            "Direct (Nav Fail)".
Proof.
  intros Hground Hdegraded.
  destruct (base_found asset_id) as [start Hstart].
  exists start. split; [exact Hstart |].
  unfold calculate_route. rewrite Hstart. cbn [bind].
  unfold ground in Hground. rewrite Hground.
  cbn [SPEEDS getitem String.eqb Ascii.eqb Bool.eqb bind].
  destruct Hdegraded as [Hnone | [Hnone | (g & Hsome & Hfails)]].
  - rewrite Hnone. reflexivity.
  - rewrite Hnone. reflexivity.
  - rewrite Hsome. destruct (Hfails start Hstart) as [e ->]. reflexivity.
Qed.

Lemma engine_a_ground : ground "ENGINE-A".
Proof. reflexivity. Qed.

Lemma one_node_router_degraded {fp : Float64} (lat_target lon_target : R) :
  @degraded fp failing_libraries one_node_router lat_target lon_target
            "ENGINE-A" None.
Proof.
  right. right. eexists. split; [reflexivity |].
  intros start _. apply smart_route_snap_fails.
  intros g' x y. exists LibraryError. reflexivity.
Qed.

(** *** The doubles near the antipode *)

Ltac met :=
  match goal with
  | |- context [Req_dec_T ?x ?k] =>
      destruct (Req_dec_T x k) as [? | ?]; try (exfalso; lra)
  end.

(** From the base of ENGINE-A to the far target, the sum [a] is the double
    next above 1. *)
Lemma haversine_a_far :
  @haversine_a doubles_met 19.0520 (-104.3140) far_lat far_lon
  = 4503599627370497 / 4503599627370496.
Proof.
  unfold haversine_a.
  (* the latitudes *)
  replace (@RN doubles_met (far_lat - 19.0520))
    with (- 1340665329800269 / 35184372088832)
    by (cbn [RN doubles_met]; repeat met; reflexivity).
  replace (@math_radians doubles_met (- 1340665329800269 / 35184372088832))
    with (- 5990150188121689 / 9007199254740992)
    by (cbn [math_radians doubles_met]; repeat met; reflexivity).
  replace (@RN doubles_met (- 5990150188121689 / 9007199254740992 / 2))
    with (- 5990150188121689 / 9007199254740992 / 2)
    by (cbn [RN doubles_met]; unfold far_lat; repeat met; reflexivity).
  replace (@math_sin doubles_met (- 5990150188121689 / 9007199254740992 / 2))
    with (- 1470092684722233 / 4503599627370496)
    by (cbn [math_sin doubles_met]; repeat met; reflexivity).
  replace (@RN doubles_met ((- 1470092684722233 / 4503599627370496) ^ 2))
    with (7678027108944089 / 72057594037927936)
    by (cbn [RN doubles_met]; unfold far_lat; repeat met; reflexivity).
  (* the longitudes *)
  replace (@RN doubles_met (far_lon - -104.3140)) with 180
    by (cbn [RN doubles_met]; unfold far_lat, far_lon; repeat met; lra).
  replace (@math_radians doubles_met 180)
    with (884279719003555 / 281474976710656)
    by (cbn [math_radians doubles_met]; repeat met; reflexivity).
  replace (@RN doubles_met (884279719003555 / 281474976710656 / 2))
    with (884279719003555 / 281474976710656 / 2)
    by (cbn [RN doubles_met]; unfold far_lat; repeat met; reflexivity).
  replace (@math_sin doubles_met (884279719003555 / 281474976710656 / 2))
    with 1
    by (cbn [math_sin doubles_met]; repeat met; reflexivity).
  replace (@RN doubles_met (1 ^ 2)) with 1
    by (cbn [RN doubles_met]; unfold far_lat; repeat met; lra).
  (* the cosines *)
  replace (@math_radians doubles_met 19.0520)
    with (2995075058925463 / 9007199254740992)
    by (cbn [math_radians doubles_met]; repeat met; reflexivity).
  replace (@math_radians doubles_met far_lat)
    with (- 2995075129196225 / 9007199254740992)
    by (cbn [math_radians doubles_met]; unfold far_lat; repeat met;
        reflexivity).
  replace (@math_cos doubles_met (2995075058925463 / 9007199254740992))
    with (8513809288632379 / 9007199254740992)
    by (cbn [math_cos doubles_met]; repeat met; reflexivity).
  replace (@math_cos doubles_met (- 2995075129196225 / 9007199254740992))
    with (8513809265694165 / 9007199254740992)
    by (cbn [math_cos doubles_met]; repeat met; reflexivity).
  replace (@RN doubles_met (8513809288632379 / 9007199254740992
                            * (8513809265694165 / 9007199254740992)))
    with (4023722933061491 / 4503599627370496)
    by (cbn [RN doubles_met]; unfold far_lat; repeat met; reflexivity).
  replace (@RN doubles_met (4023722933061491 / 4503599627370496 * 1))
    with (4023722933061491 / 4503599627370496)
    by (cbn [RN doubles_met]; unfold far_lat; repeat met; lra).
  (* the sum *)
  cbn [RN doubles_met]. unfold far_lat. repeat met. reflexivity.
Qed.

(** Hence the distance from that base to the far target raises. *)
Lemma haversine_far_raises :
  @_haversine doubles_met 19.0520 (-104.3140) far_lat far_lon
  = Raise ValueError.
Proof.
  destruct (@haversine_outcome doubles_met 19.0520 (-104.3140) far_lat far_lon)
    as [(_ & Hpos & _) | (_ & Hraise)]; [| exact Hraise].
  exfalso. revert Hpos. cbv zeta. rewrite haversine_a_far.
  cbn [RN doubles_met]. unfold far_lat. repeat met. lra.
Qed.

(** C6 (route fallback), as the code has it.  For a ground unit whose smart
    route cannot be had, because there is no graph, the graph is empty or
    an exception leaves the smart route, [calculate_route] is the call of
    [_make_direct_route] on line 103, outside the [try], from the base
    filed under the unit's key, its own id when that is a key of [BASES]:
    when [_haversine] returns, the call returns the route "Direct (Nav
    Fail)" with the two points base and target; when [_haversine] raises,
    the exception leaves [calculate_route].  And it does raise: from the
    base of ENGINE-A to the target (-19.052000447, 75.686), near the
    antipode, the doubles add up to [a = 1 + 2^-52], [math.sqrt(1 - a)]
    raises, and [ValueError] leaves [calculate_route], without road graph
    and with a graph on which the snap fails. *)
Theorem calculate_route_fallback_raises :
  (forall (fp : Float64) (libs : RoadLibraries) (self : router)
          (lat_target lon_target : R) (asset_id : string)
          (avoid_polygon : option (list (R * R))),
     ground asset_id ->
     degraded self lat_target lon_target asset_id avoid_polygon ->
     exists start,
       getitem BASES (base_key_of asset_id) = Return start
       /\ (has_key BASES asset_id = true ->
           getitem BASES asset_id = Return start)
       /\ match _haversine (lat start) (lon start) lat_target lon_target with
          | Return dist_km =>
              calculate_route self lat_target lon_target asset_id
                              avoid_polygon
              = Return
                  {| origin := name start;
                     distance_km := round2 dist_km;
                     duration_min :=
                       Z.max 1 (int (dist_km / 15.0 * 60) + 2);
                     path :=
                       [ (lat start, lon start); (lat_target, lon_target) ];
                     type := "Direct (Nav Fail)" |}
          | Raise e =>
              calculate_route self lat_target lon_target asset_id
                              avoid_polygon
              = Raise e
          end)
  /\ @calculate_route doubles_met failing_libraries
       (@Build_router failing_libraries None) far_lat far_lon "ENGINE-A" None
     = Raise ValueError
  /\ @calculate_route doubles_met failing_libraries one_node_router
       far_lat far_lon "ENGINE-A" None
     = Raise ValueError.
Proof.
  split.
  { intros fp libs self lat_target lon_target asset_id avoid_polygon
           Hground Hdegraded.
    destruct (calculate_route_fallback self lat_target lon_target asset_id
                avoid_polygon Hground Hdegraded) as (start & Hstart & ->).
    exists start. split; [exact Hstart |]. split.
    - intros Hkey. unfold ground in Hground.
      apply orb_false_elim in Hground as [Htanker _].
      now rewrite <- (base_key_own asset_id Htanker Hkey) at 1.
    - destruct (direct_route_outcome start lat_target lon_target 15.0
                                     "Direct (Nav Fail)")
        as [(dist & -> & ->) | (-> & ->)]; reflexivity. }
  assert (Hdirect :
            @_make_direct_route doubles_met
              {| lat := 19.0520; lon := -104.3140;
                 name := "Bomberos Manzanillo Central" |}
              far_lat far_lon 15.0 "Direct (Nav Fail)"
            = Raise ValueError)
    by (unfold _make_direct_route; cbn [lat lon];
        rewrite haversine_far_raises; reflexivity).
  split.
  - destruct (@calculate_route_fallback doubles_met failing_libraries
                (@Build_router failing_libraries None) far_lat far_lon
                "ENGINE-A" None engine_a_ground (or_introl eq_refl))
      as (start & Hstart & ->).
    injection Hstart as <-. exact Hdirect.
  - destruct (@calculate_route_fallback doubles_met failing_libraries
                one_node_router far_lat far_lon "ENGINE-A" None
                engine_a_ground (one_node_router_degraded far_lat far_lon))
      as (start & Hstart & ->).
    injection Hstart as <-. exact Hdirect.
Qed.

End RouterProperties.

(** * Further properties of the simulation *)

Module FireInvariants.
Import FireSimulationEngine FireVocabulary FireProperties.
Open Scope R_scope.

(** *** The step, cell by cell *)

Lemma spread_step_cell (self : engine) kernel roll (g : ndarray R) i j :
  cell (spread_step self kernel roll g) i j
  = option_map
      (fun x => Rmax x (astype_float (ignites self kernel roll g i j)))
      (cell g i j).
Proof.
  unfold spread_step. rewrite cell_imap2.
  destruct (cell g i j) as [x |] eqn:Hx; [| reflexivity].
  cbn [option_map]. do 3 f_equal.
  rewrite item_cell, !cell_imap2. unfold convolve. rewrite cell_imap2, Hx.
  reflexivity.
Qed.

(** *** What holds of every state of a run holds behind every frame *)

Lemma spread_loop_states (self : engine) kernel rand
  (good : (nat -> nat -> R) -> Prop) (Q : nat -> ndarray R -> Prop) :
  (forall t, good (rand t)) ->
  (forall k roll st,
      good roll -> Q k st -> Q (S k) (spread_step self kernel roll st)) ->
  forall steps t0 k0 g n f,
    Q k0 g ->
    nth_error (snapshot g :: spread_loop self kernel rand steps t0 g) n
    = Some f ->
    exists st, f = snapshot st /\ Q (k0 + n)%nat st.
Proof.
  intros Hgood Hstep.
  induction steps as [| steps IH]; intros t0 k0 g n f HQ Hn.
  - destruct n as [| n]; cbn in Hn.
    + injection Hn as <-. exists g. now rewrite Nat.add_0_r.
    + destruct n; discriminate.
  - destruct n as [| n].
    + cbn in Hn. injection Hn as <-. exists g. now rewrite Nat.add_0_r.
    + cbn [spread_loop nth_error] in Hn.
      destruct (IH (S t0) (S k0) _ n f (Hstep k0 _ g (Hgood t0) HQ) Hn)
        as (st & -> & Hst).
      exists st. split; [reflexivity |].
      now rewrite Nat.add_succ_r.
Qed.

Lemma run_states (self : engine) (start_x start_y : Z)
  (wind_speed wind_dir : R) (duration_hours : Z)
  (rand : nat -> nat -> nat -> R)
  (good : (nat -> nat -> R) -> Prop) (Q : nat -> ndarray R -> Prop) :
  (forall t, good (rand t)) ->
  Q 0%nat (ignite self start_x start_y) ->
  (forall k roll st,
      good roll -> Q k st ->
      Q (S k) (spread_step self
                 (_generate_wind_kernel self wind_speed wind_dir) roll st)) ->
  forall t f,
    nth_error (frames (run_simulation self start_x start_y wind_speed wind_dir
                                      duration_hours rand)) t = Some f ->
    exists st, f = snapshot st /\ Q t st.
Proof.
  intros Hgood Hinit Hstep t f Hf.
  unfold run_simulation in Hf. cbn [frames] in Hf.
  exact (spread_loop_states self _ rand good Q Hgood Hstep _ _ 0%nat _ t f
                            Hinit Hf).
Qed.

(** *** Shapes *)

Lemma map_length_imap_from {A B : Type} (f : nat -> nat -> A -> B)
  (g : ndarray A) :
  forall n,
    map (@List.length B)
        (imap_from (fun i row => imap (fun j x => f i j x) row) n g)
    = map (@List.length A) g.
Proof.
  induction g as [| row g IH]; intros n; [reflexivity |].
  cbn [imap_from map]. rewrite IH. f_equal.
  unfold imap. apply imap_from_length.
Qed.

Lemma same_shape_imap2 {A B : Type} (f : nat -> nat -> A -> B) (g : ndarray A) :
  same_shape (imap2 f g) g.
Proof. apply map_length_imap_from. Qed.

Lemma same_shape_map {A B : Type} (h : A -> B) (g : ndarray A) :
  same_shape (map (map h) g) g.
Proof.
  unfold same_shape. rewrite map_map. apply map_ext. intros row.
  apply length_map.
Qed.

Lemma same_shape_ignite (self : engine) (start_x start_y : Z) :
  same_shape (ignite self start_x start_y) (risk_grid self).
Proof.
  unfold ignite, set_item.
  destruct (_ && _).
  - unfold same_shape. rewrite same_shape_imap2. apply same_shape_map.
  - apply same_shape_map.
Qed.

Lemma same_shape_spread_step (self : engine) kernel roll (g : ndarray R) :
  same_shape (spread_step self kernel roll g) g.
Proof. apply same_shape_imap2. Qed.

(** *** The ignition pixel *)

(** After the ignition only the ignition pixel can differ from zero. *)
Lemma ignite_nonzero (self : engine) (start_x start_y : Z) i j x :
  cell (ignite self start_x start_y) i j = Some x ->
  x <> 0 ->
  Z.of_nat i = start_y /\ Z.of_nat j = start_x.
Proof.
  unfold ignite.
  destruct (_ && _) eqn:Hguard.
  - apply andb_prop in Hguard as [Hguard _].
    apply andb_prop in Hguard as [Hguard H3].
    apply andb_prop in Hguard as [H1 _].
    apply Z.leb_le in H1, H3.
    unfold set_item. rewrite cell_imap2.
    destruct (cell (zeros_like (risk_grid self)) i j) as [y |] eqn:Hy;
      [| discriminate].
    apply cell_zeros_like in Hy. subst y. cbn [option_map].
    destruct (Nat.eqb i (Z.to_nat start_y) && Nat.eqb j (Z.to_nat start_x))
      eqn:Hij; intros [= <-] Hx; [| now elim Hx].
    apply andb_prop in Hij as [Hi Hj].
    apply Nat.eqb_eq in Hi, Hj. subst i j. lia.
  - intros Hcell Hx. apply cell_zeros_like in Hcell. contradiction.
Qed.

(** *** Neighbours *)

(** A convolution sum that is not zero has a burning cell under one of
    its nine taps. *)
Lemma influence_nonzero (g kernel : ndarray R) (i j : nat) :
  influence g kernel i j <> 0 ->
  exists di dj : Z,
    (-1 <= di <= 1)%Z /\ (-1 <= dj <= 1)%Z
    /\ padded g (Z.of_nat i + di) (Z.of_nat j + dj) <> 0.
Proof.
  intros Hne.
  assert (Hpad : forall a b : nat,
             (a <= 2)%nat -> (b <= 2)%nat ->
             padded g (Z.of_nat i + 1 - Z.of_nat a)
                      (Z.of_nat j + 1 - Z.of_nat b) <> 0 ->
             exists di dj : Z,
               (-1 <= di <= 1)%Z /\ (-1 <= dj <= 1)%Z
               /\ padded g (Z.of_nat i + di) (Z.of_nat j + dj) <> 0).
  { intros a b Ha Hb Hp.
    exists (1 - Z.of_nat a)%Z, (1 - Z.of_nat b)%Z.
    split; [lia |]. split; [lia |].
    replace (Z.of_nat i + (1 - Z.of_nat a))%Z
      with (Z.of_nat i + 1 - Z.of_nat a)%Z by lia.
    replace (Z.of_nat j + (1 - Z.of_nat b))%Z
      with (Z.of_nat j + 1 - Z.of_nat b)%Z by lia.
    exact Hp. }
  unfold influence in Hne. cbn [fold_right taps] in Hne.
  repeat match type of Hne with
         | context [padded g (Z.of_nat i + 1 - Z.of_nat ?a)
                             (Z.of_nat j + 1 - Z.of_nat ?b)] =>
             destruct (Req_dec_T (padded g (Z.of_nat i + 1 - Z.of_nat a)
                                         (Z.of_nat j + 1 - Z.of_nat b)) 0)
               as [Hz | Hz];
             [rewrite Hz in Hne; clear Hz | apply (Hpad a b); [lia | lia | exact Hz]]
         end.
  exfalso. apply Hne. ring.
Qed.

Lemma padded_nonzero (g : ndarray R) (i j : Z) :
  padded g i j <> 0 ->
  (0 <= i)%Z /\ (0 <= j)%Z
  /\ exists x, cell g (Z.to_nat i) (Z.to_nat j) = Some x /\ x <> 0.
Proof.
  unfold padded.
  destruct ((0 <=? i)%Z && (0 <=? j)%Z) eqn:Hpos; [| intros H; now elim H].
  apply andb_prop in Hpos as [Hi Hj]. apply Z.leb_le in Hi, Hj.
  rewrite item_cell.
  destruct (cell g (Z.to_nat i) (Z.to_nat j)) as [x |];
    [| intros H; now elim H].
  intros Hx. split; [exact Hi |]. split; [exact Hj |]. now exists x.
Qed.

(** A cell that ignites has drawn less than a positive influence. *)
Lemma ignites_influence (self : engine) kernel roll (g : ndarray R) i j :
  nonneg_draws roll ->
  ignites self kernel roll g i j = true ->
  0.1 < item 0 (risk_grid self) i j /\ influence g kernel i j <> 0.
Proof.
  intros Hroll Hig. unfold ignites in Hig.
  apply andb_prop in Hig as [Hp Hr]. unfold Rgtb in Hp, Hr.
  destruct (Rlt_dec 0.1 _) as [Hrisk |]; [| discriminate].
  destruct (Rlt_dec (roll i j) _) as [Hprob |]; [| discriminate].
  split; [exact Hrisk |].
  intros Hzero. rewrite Hzero in Hprob. specialize (Hroll i j). lra.
Qed.

(** *** Four invariants of a run *)

(** X1 (shape and levels of the frames).  Every frame of every run has the
    rows and the row lengths of the hazard raster, and each of its cells
    is 0 or 255. *)
Theorem frames_keep_shape_and_levels (self : engine) (start_x start_y : Z)
  (wind_speed wind_dir : R) (duration_hours : Z)
  (rand : nat -> nat -> nat -> R) (t : nat) (f : frame) :
  nth_error (frames (run_simulation self start_x start_y wind_speed wind_dir
                                    duration_hours rand)) t = Some f ->
  same_shape f (risk_grid self)
  /\ forall i j v, cell f i j = Some v -> v = 0%Z \/ v = 255%Z.
Proof.
  intros Hf.
  destruct (run_states self start_x start_y wind_speed wind_dir duration_hours
              rand (fun _ => True)
              (fun _ st => same_shape st (risk_grid self) /\ binary st))
    with (t := t) (f := f) as (st & -> & Hshape & Hbin); auto.
  - split; [apply same_shape_ignite | apply binary_ignite].
  - intros _ roll st _ [Hshape Hbin]. split.
    + unfold same_shape in *. now rewrite same_shape_spread_step.
    + now apply binary_spread_step.
  - split.
    + unfold same_shape in *. unfold snapshot.
      now rewrite same_shape_map.
    + intros i j v. rewrite cell_snapshot.
      destruct (cell st i j) as [x |] eqn:Hx; [| discriminate].
      cbn [option_map]. intros [= <-].
      destruct (Hbin i j x Hx) as [-> | ->];
        [left; apply astype_uint8_unburnt | right; apply astype_uint8_burning].
Qed.

Lemma frames_keep_shape_and_levels_witness :
  exists f,
    nth_error (frames (run_simulation (uniform_engine 3 3 0.8) 1 1 15 225 1
                                      half_draws)) 1 = Some f
    /\ same_shape f (risk_grid (uniform_engine 3 3 0.8))
    /\ forall i j v, cell f i j = Some v -> v = 0%Z \/ v = 255%Z.
Proof.
  eexists. split; [reflexivity |].
  apply (frames_keep_shape_and_levels (uniform_engine 3 3 0.8) 1 1 15 225 1
                                      half_draws 1).
  reflexivity.
Defined.

(** X2 (flammability floor).  A cell whose hazard value is at most 0.1,
    and which is not the ignition pixel, is 0 in every frame of every
    run: it never ignites, whatever the wind and the draws. *)
Theorem floor_cells_never_ignite (self : engine) (start_x start_y : Z)
  (wind_speed wind_dir : R) (duration_hours : Z)
  (rand : nat -> nat -> nat -> R) (t : nat) (f : frame) (i j : nat) :
  nth_error (frames (run_simulation self start_x start_y wind_speed wind_dir
                                    duration_hours rand)) t = Some f ->
  item 0 (risk_grid self) i j <= 0.1 ->
  (Z.of_nat i, Z.of_nat j) <> (start_y, start_x) ->
  item 0%Z f i j = 0%Z.
Proof.
  intros Hf Hrisk Hfar.
  destruct (run_states self start_x start_y wind_speed wind_dir duration_hours
              rand (fun _ => True)
              (fun _ st => forall x, cell st i j = Some x -> x = 0))
    with (t := t) (f := f) as (st & -> & Hzero); auto.
  - intros x Hx.
    destruct (Req_dec_T x 0) as [Hx0 | Hx0]; [exact Hx0 |].
    destruct (ignite_nonzero self start_x start_y i j x Hx Hx0) as [Hi Hj].
    elim Hfar. now rewrite Hi, Hj.
  - intros _ roll st _ Hst x. rewrite spread_step_cell.
    destruct (cell st i j) as [y |] eqn:Hy; [| discriminate].
    cbn [option_map]. intros [= <-]. rewrite (Hst y eq_refl).
    unfold ignites, Rgtb at 2.
    destruct (Rlt_dec 0.1 (item 0 (risk_grid self) i j)) as [Hbad |];
      [lra |].
    rewrite andb_false_r. cbn [astype_float]. apply Rmax_left. lra.
  - rewrite item_cell, cell_snapshot.
    destruct (cell st i j) as [x |] eqn:Hx; [| reflexivity].
    cbn [option_map]. rewrite (Hzero x eq_refl). apply astype_uint8_unburnt.
Qed.

Lemma floor_cells_never_ignite_witness :
  exists f,
    nth_error (frames (run_simulation (uniform_engine 3 3 0.05) 1 1 15 225 1
                                      half_draws)) 6 = Some f
    /\ item 0 (risk_grid (uniform_engine 3 3 0.05)) 0 2 <= 0.1
    /\ (Z.of_nat 0, Z.of_nat 2) <> (1%Z, 1%Z)
    /\ item 0%Z f 0 2 = 0%Z.
Proof.
  assert (Hrisk : item 0 (risk_grid (uniform_engine 3 3 0.05)) 0 2 <= 0.1)
    by (unfold item; cbn [uniform_engine risk_grid repeat nth]; lra).
  assert (Hfar : (Z.of_nat 0, Z.of_nat 2) <> (1%Z, 1%Z)) by discriminate.
  eexists. split; [reflexivity |].
  split; [exact Hrisk |]. split; [exact Hfar |].
  apply (floor_cells_never_ignite (uniform_engine 3 3 0.05) 1 1 15 225 1
                                  half_draws 6 _ 0 2 eq_refl Hrisk Hfar).
Defined.

(** X3 (the ignition pixel stays lit).  In a run from a pixel of the
    grid, that pixel holds 255 in every frame. *)
Theorem ignition_pixel_stays_burning (self : engine) (start_x start_y : Z)
  (wind_speed wind_dir : R) (duration_hours : Z)
  (rand : nat -> nat -> nat -> R) (t : nat) (f : frame) :
  rectangular (risk_grid self) ->
  in_bounds self start_x start_y ->
  nth_error (frames (run_simulation self start_x start_y wind_speed wind_dir
                                    duration_hours rand)) t = Some f ->
  cell f (Z.to_nat start_y) (Z.to_nat start_x) = Some 255%Z.
Proof.
  intros Hrect Hin Hf.
  destruct (run_states self start_x start_y wind_speed wind_dir duration_hours
              rand (fun _ => True)
              (fun _ st =>
                 cell st (Z.to_nat start_y) (Z.to_nat start_x) = Some 1))
    with (t := t) (f := f) as (st & -> & Hlit); auto.
  - rewrite ignited_state; try assumption.
    + now rewrite !Nat.eqb_refl.
    + destruct Hin as [Hy _]. lia.
    + destruct Hin as [_ Hx]. lia.
  - intros _ roll st _ Hst. rewrite spread_step_cell, Hst. cbn [option_map].
    f_equal. destruct (ignites _ _ _ _ _ _); cbn [astype_float];
      apply Rmax_left; lra.
  - rewrite cell_snapshot, Hlit. cbn [option_map].
    now rewrite astype_uint8_burning.
Qed.

Lemma ignition_pixel_stays_burning_witness :
  rectangular (risk_grid (uniform_engine 3 3 0.8))
  /\ in_bounds (uniform_engine 3 3 0.8) 2 1
  /\ exists f,
       nth_error (frames (run_simulation (uniform_engine 3 3 0.8) 2 1 15 225 1
                                         half_draws)) 6 = Some f
       /\ cell f (Z.to_nat 1) (Z.to_nat 2) = Some 255%Z.
Proof.
  assert (Hrect : rectangular (risk_grid (uniform_engine 3 3 0.8)))
    by apply uniform_rectangular.
  assert (Hin : in_bounds (uniform_engine 3 3 0.8) 2 1)
    by (unfold in_bounds; destruct (uniform_shape 2 3 0.8) as [-> ->]; lia).
  split; [exact Hrect |]. split; [exact Hin |].
  eexists. split; [reflexivity |].
  apply (ignition_pixel_stays_burning (uniform_engine 3 3 0.8) 2 1 15 225 1
                                      half_draws 6 _ Hrect Hin eq_refl).
Defined.

(** X4 (the front moves one cell per step).  When no draw is negative, a
    cell that is not 0 in frame [t] lies within [t] rows and [t] columns
    of the ignition pixel: in each step the fire reaches at most the eight
    neighbours of the burning cells, whatever the wind. *)
Theorem fire_spreads_one_cell_per_step (self : engine) (start_x start_y : Z)
  (wind_speed wind_dir : R) (duration_hours : Z)
  (rand : nat -> nat -> nat -> R) (t : nat) (f : frame) (i j : nat) :
  (forall s, nonneg_draws (rand s)) ->
  nth_error (frames (run_simulation self start_x start_y wind_speed wind_dir
                                    duration_hours rand)) t = Some f ->
  item 0%Z f i j <> 0%Z ->
  near start_x start_y t i j.
Proof.
  intros Hdraws Hf Hlit.
  destruct (run_states self start_x start_y wind_speed wind_dir duration_hours
              rand nonneg_draws
              (fun k st => forall i j x,
                   cell st i j = Some x -> x <> 0 -> near start_x start_y k i j))
    with (t := t) (f := f) as (st & -> & Hnear); auto.
  - intros i' j' x Hx Hx0.
    destruct (ignite_nonzero self start_x start_y i' j' x Hx Hx0) as [Hi Hj].
    unfold near. lia.
  - intros k roll st Hroll Hst i' j' y. rewrite spread_step_cell.
    destruct (cell st i' j') as [x |] eqn:Hx; [| discriminate].
    cbn [option_map]. intros [= <-] Hy.
    destruct (Req_dec_T x 0) as [-> | Hx0].
    + destruct (ignites self _ roll st i' j') eqn:Hig.
      * apply ignites_influence in Hig as [_ Hinf]; [| exact Hroll].
        apply influence_nonzero in Hinf as (di & dj & Hdi & Hdj & Hpad).
        apply padded_nonzero in Hpad as (Hi0 & Hj0 & x' & Hx' & Hx'0).
        specialize (Hst _ _ x' Hx' Hx'0). unfold near in *.
        rewrite !Z2Nat.id in Hst by assumption. lia.
      * elim Hy. cbn [astype_float]. apply Rmax_left. lra.
    + specialize (Hst i' j' x Hx Hx0). unfold near in *. lia.
  - rewrite item_cell, cell_snapshot in Hlit.
    destruct (cell st i j) as [x |] eqn:Hx; [| now elim Hlit].
    cbn [option_map] in Hlit. apply (Hnear i j x Hx).
    intros ->. apply Hlit. apply astype_uint8_unburnt.
Qed.

Lemma fire_spreads_one_cell_per_step_witness :
  (forall s, nonneg_draws (half_draws s))
  /\ exists f,
       nth_error (frames (run_simulation (uniform_engine 3 3 0.8) 1 1 15 225 1
                                         half_draws)) 0 = Some f
       /\ item 0%Z f 1 1 <> 0%Z
       /\ near 1 1 0 1 1.
Proof.
  assert (Hdraws : forall s, nonneg_draws (half_draws s))
    by (intros s i j; apply half_draws_nonneg).
  assert (Hlit : item 0%Z (snapshot (ignite (uniform_engine 3 3 0.8) 1 1)) 1 1
                 <> 0%Z).
  { rewrite item_cell, initial_frame.
    - discriminate.
    - apply uniform_rectangular.
    - unfold in_bounds. destruct (uniform_shape 2 3 0.8) as [-> ->]. lia.
    - destruct (uniform_shape 2 3 0.8) as [-> _]. lia.
    - destruct (uniform_shape 2 3 0.8) as [_ ->]. lia. }
  split; [exact Hdraws |].
  eexists. split; [reflexivity |]. split; [exact Hlit |].
  apply (fire_spreads_one_cell_per_step (uniform_engine 3 3 0.8) 1 1 15 225 1
                                        half_draws 0 _ 1 1 Hdraws eq_refl Hlit).
Defined.

End FireInvariants.

(** * Further properties of the wind kernel *)

Module KernelProperties.
Import FireSimulationEngine FireVocabulary FireProperties.
Open Scope R_scope.

Lemma Rabs_parts (x : R) : Rabs x = Rmax x 0 + Rmax (- x) 0.
Proof.
  unfold Rabs, Rmax.
  destruct (Rcase_abs x), (Rle_dec x 0), (Rle_dec (- x) 0); lra.
Qed.

(** X5 (weights of the kernel).  For every speed and bearing the centre
    weight of the kernel is 0, no other weight is below the uniform 0.1,
    and the nine weights add up to [0.8 + 3 * (|u| + |v|)]; at speed 0 the
    kernel is the uniform one, whatever the bearing. *)
Theorem wind_kernel_weights (self : engine) (speed direction : R) :
  let k := _generate_wind_kernel self speed direction in
  item 0 k 1 1 = 0
  /\ (forall i j, (i <= 2)%nat -> (j <= 2)%nat -> (i, j) <> (1, 1)%nat ->
        0.1 <= item 0 k i j)
  /\ fold_right Rplus 0 (List.concat k)
     = 0.8 + 3 * (Rabs (wind_u self speed direction)
                  + Rabs (wind_v self speed direction))
  /\ _generate_wind_kernel self 0 direction = base_kernel.
Proof.
  intros k. unfold k.
  rewrite (wind_kernel_closed_form self 0 direction).
  rewrite (wind_kernel_closed_form self speed direction). cbv zeta.
  rewrite !Rabs_parts.
  set (u := wind_u self speed direction). set (v := wind_v self speed direction).
  pose proof (Rmax_r u 0). pose proof (Rmax_r (- u) 0).
  pose proof (Rmax_r v 0). pose proof (Rmax_r (- v) 0).
  split; [reflexivity |]. split; [| split].
  - intros i j Hi Hj Hij.
    destruct i as [| [| [| i]]]; [| | | lia];
      (destruct j as [| [| [| j]]]; [| | | lia]);
      unfold item; cbn [nth]; try lra.
    now elim Hij.
  - cbn [List.concat app fold_right]. lra.
  - unfold wind_u, wind_v, base_kernel.
    rewrite !Rmult_0_l, Ropp_0, (Rmax_left 0 0) by lra.
    repeat (f_equal; try lra).
Qed.

Lemma radians_opposite (direction : R) :
  radians (direction + 180 - 90) = radians (direction - 90) + PI.
Proof. unfold radians. field. Qed.

Lemma wind_vector_opposite (self : engine) (speed direction : R) :
  wind_u self speed (direction + 180) = - wind_u self speed direction
  /\ wind_v self speed (direction + 180) = - wind_v self speed direction.
Proof.
  unfold wind_u, wind_v.
  rewrite radians_opposite, neg_cos, neg_sin. split; ring.
Qed.

(** X6 (opposite winds).  Turning the wind by 180 degrees turns the kernel
    upside down and left to right: the kernel of the opposite bearing is
    the mirror image, in both axes, of the kernel of the bearing. *)
Theorem wind_kernel_opposite (self : engine) (speed direction : R) :
  _generate_wind_kernel self speed (direction + 180)
  = rev (map (@rev R) (_generate_wind_kernel self speed direction)).
Proof.
  rewrite (wind_kernel_closed_form self speed (direction + 180)).
  rewrite (wind_kernel_closed_form self speed direction). cbv zeta.
  destruct (wind_vector_opposite self speed direction) as [-> ->].
  rewrite !Ropp_involutive.
  cbn [map rev app].
  repeat (f_equal; try ring).
Qed.

End KernelProperties.

(** * Properties of the georeferencing and of the loading *)

Module GeoProperties.
Import FireSimulationEngine FireVocabulary FireProperties.
Open Scope R_scope.

Lemma Int_part_centre (z : Z) : Int_part (IZR z + 0.5) = z.
Proof. symmetry. apply Int_part_spec. lra. Qed.

Lemma guard_in_bounds (self : engine) (row col : Z) :
  (0 <=? row)%Z && (row <? Z.of_nat (shape0 (risk_grid self)))%Z
  && (0 <=? col)%Z && (col <? Z.of_nat (shape1 (risk_grid self)))%Z = true
  <-> in_bounds self col row.
Proof.
  unfold in_bounds. rewrite !andb_true_iff, !Z.leb_le, !Z.ltb_lt. lia.
Qed.

Lemma get_pixel_of_get_lat_lon (self : engine) (t : Affine) (x y : Z) :
  transform self = Some t ->
  a t * e t - b t * d t <> 0 ->
  in_bounds self x y ->
  get_pixel_from_gps self (fst (get_lat_lon self x y))
                          (snd (get_lat_lon self x y))
  = Some (x, y).
Proof.
  intros Ht Hdet Hin.
  unfold get_pixel_from_gps, get_lat_lon, rowcol. rewrite Ht. cbn [fst snd].
  destruct (Req_dec_T _ 0) as [Hbad | _]; [contradiction |].
  match goal with
  | |- context [Int_part ?r] =>
      replace r with (IZR y + 0.5) by (field; exact Hdet)
  end.
  match goal with
  | |- context [Int_part ((?n) / ?m)] =>
      replace (n / m) with (IZR x + 0.5) by (field; exact Hdet)
  end.
  rewrite !Int_part_centre.
  now rewrite (proj2 (guard_in_bounds self y x) Hin).
Qed.

(** X7 (pixel to coordinates and back).  With an invertible transform,
    the coordinates that [get_lat_lon] gives for a pixel of the grid are
    mapped back to that same pixel by [get_pixel_from_gps]. *)
Theorem pixel_round_trip (self : engine) (t : Affine) (x y : Z) :
  transform self = Some t ->
  a t * e t - b t * d t <> 0 ->
  in_bounds self x y ->
  get_pixel_from_gps self (fst (get_lat_lon self x y))
                          (snd (get_lat_lon self x y))
  = Some (x, y).
Proof. apply get_pixel_of_get_lat_lon. Qed.

Lemma georeferenced_in_bounds :
  in_bounds (georeferenced_engine 600 800 0.8) 799 0.
Proof.
  unfold in_bounds, shape0, shape1.
  cbn [georeferenced_engine risk_grid].
  change (repeat (repeat 0.8 800%nat) 600%nat)
    with (repeat 0.8 800%nat :: repeat (repeat 0.8 800%nat) 599%nat).
  cbn [hd List.length]. rewrite !repeat_length. lia.
Qed.

Lemma north_up_invertible :
  a north_up * e north_up - b north_up * d north_up <> 0.
Proof. cbn [north_up a b d e]. lra. Qed.

Lemma pixel_round_trip_witness :
  transform (georeferenced_engine 600 800 0.8) = Some north_up
  /\ a north_up * e north_up - b north_up * d north_up <> 0
  /\ in_bounds (georeferenced_engine 600 800 0.8) 799 0
  /\ get_pixel_from_gps (georeferenced_engine 600 800 0.8)
       (fst (get_lat_lon (georeferenced_engine 600 800 0.8) 799 0))
       (snd (get_lat_lon (georeferenced_engine 600 800 0.8) 799 0))
     = Some (799%Z, 0%Z).
Proof.
  split; [reflexivity |]. split; [exact north_up_invertible |].
  split; [exact georeferenced_in_bounds |].
  apply (pixel_round_trip (georeferenced_engine 600 800 0.8) north_up 799 0
                          eq_refl north_up_invertible georeferenced_in_bounds).
Defined.

(** X8 (the pixel of a point).  Without a transform [get_pixel_from_gps]
    finds no pixel.  A pixel that it returns is a pixel of the grid, and
    the point is inside it: its coordinates are the image, under the
    transform, of the pixel's corner moved by fractions in [0, 1) of a
    column and of a row. *)
Theorem pixel_from_gps_sound (self : engine) (lat lon : R) :
  (transform self = None -> get_pixel_from_gps self lat lon = None)
  /\ forall px py,
       get_pixel_from_gps self lat lon = Some (px, py) ->
       in_bounds self px py
       /\ exists t fx fy,
            transform self = Some t
            /\ 0 <= fx < 1 /\ 0 <= fy < 1
            /\ lon = a t * (IZR px + fx) + b t * (IZR py + fy) + c t
            /\ lat = d t * (IZR px + fx) + e t * (IZR py + fy) + f t.
Proof.
  unfold get_pixel_from_gps. split; [now intros -> |].
  intros px py.
  destruct (transform self) as [t |]; [| discriminate].
  unfold rowcol.
  destruct (Req_dec_T (a t * e t - b t * d t) 0) as [| Hdet]; [discriminate |].
  set (colf := (e t * (lon - c t) - b t * (lat - f t))
               / (a t * e t - b t * d t)).
  set (rowf := (a t * (lat - f t) - d t * (lon - c t))
               / (a t * e t - b t * d t)).
  destruct (_ && _) eqn:Hguard; [| discriminate].
  intros [= <- <-]. split; [now apply guard_in_bounds |].
  exists t, (colf - IZR (Int_part colf)), (rowf - IZR (Int_part rowf)).
  pose proof (base_Int_part colf) as [Hc1 Hc2].
  pose proof (base_Int_part rowf) as [Hr1 Hr2].
  split; [reflexivity |]. split; [lra |]. split; [lra |].
  replace (IZR (Int_part colf) + (colf - IZR (Int_part colf))) with colf by ring.
  replace (IZR (Int_part rowf) + (rowf - IZR (Int_part rowf))) with rowf by ring.
  unfold colf, rowf. split; field; exact Hdet.
Qed.

Lemma pixel_from_gps_sound_witness :
  exists lat lon,
    get_pixel_from_gps (georeferenced_engine 600 800 0.8) lat lon
    = Some (799%Z, 0%Z)
    /\ in_bounds (georeferenced_engine 600 800 0.8) 799 0
    /\ exists t fx fy,
         transform (georeferenced_engine 600 800 0.8) = Some t
         /\ 0 <= fx < 1 /\ 0 <= fy < 1
         /\ lon = a t * (IZR 799 + fx) + b t * (IZR 0 + fy) + c t
         /\ lat = d t * (IZR 799 + fx) + e t * (IZR 0 + fy) + f t.
Proof.
  pose proof (get_pixel_of_get_lat_lon (georeferenced_engine 600 800 0.8)
                north_up 799 0 eq_refl north_up_invertible
                georeferenced_in_bounds) as Hback.
  eexists. eexists. split; [exact Hback |].
  exact (proj2 (pixel_from_gps_sound (georeferenced_engine 600 800 0.8) _ _)
               799%Z 0%Z Hback).
Defined.

(** *** Loading the raster *)

Lemma fold_left_Rmax_ge (l : list R) :
  forall x,
    x <= fold_left Rmax l x /\ forall y, In y l -> y <= fold_left Rmax l x.
Proof.
  induction l as [| z l IH]; intros x; cbn [fold_left].
  - split; [lra | intros y []].
  - destruct (IH (Rmax x z)) as [H1 H2].
    pose proof (Rmax_l x z). pose proof (Rmax_r x z).
    split; [lra |]. intros y [<- | Hy]; [lra | auto].
Qed.

Lemma array_max_ge (data : ndarray R) (m x : R) :
  array_max data = Some m -> In x (List.concat data) -> x <= m.
Proof.
  unfold array_max. destruct (List.concat data) as [| z l]; [discriminate |].
  intros [= <-] [<- | Hx].
  - apply (proj1 (fold_left_Rmax_ge l z)).
  - now apply (proj2 (fold_left_Rmax_ge l z)).
Qed.

Lemma cell_in_concat {A : Type} (g : ndarray A) i j (x : A) :
  cell g i j = Some x -> In x (List.concat g).
Proof.
  unfold cell. destruct (nth_error g i) as [row |] eqn:Hrow; [| discriminate].
  intros Hx. apply in_concat. exists row.
  split; [now apply nth_error_In in Hrow | now apply nth_error_In in Hx].
Qed.

Lemma cell_zeros (h w : nat) i j x : cell (zeros h w) i j = Some x -> x = 0.
Proof.
  unfold cell, zeros.
  destruct (nth_error (repeat (repeat 0 w) h) i) as [row |] eqn:Hrow;
    [| discriminate].
  apply nth_error_In, repeat_spec in Hrow. subst row.
  intros Hx. now apply nth_error_In, repeat_spec in Hx.
Qed.

(** X9 (normalised hazard).  Whatever is found at the path, if the values
    of a readable raster lie in [0, 255] then every cell of the grid that
    the constructor loads lies in [0, 1]; and the grid is either the raster
    itself, cell by cell or divided by 255, or the 600x800 array of
    zeros. *)
Theorem loaded_grid_normalised (fs : string -> raster_file) (path : string) :
  (forall t s data, fs path = Raster t s data -> cells_within 0 255 data) ->
  cells_within 0 1 (risk_grid (__init__ fs path))
  /\ (risk_grid (__init__ fs path) = zeros 600 800
      \/ exists t s data,
           fs path = Raster t s data
           /\ (risk_grid (__init__ fs path) = data
               \/ risk_grid (__init__ fs path)
                  = map (map (fun x => x / 255)) data)).
Proof.
  intros Hdata. unfold __init__.
  destruct (fs path) as [| | t s | t s data] eqn:Hfile;
    cbn [_load_geospatial_data risk_grid];
    try (split; [intros i j x Hx; apply cell_zeros in Hx; lra | now left]).
  specialize (Hdata t s data eq_refl).
  destruct (array_max data) as [m |] eqn:Hmax; cbn [risk_grid].
  - destruct (Rlt_dec 1 m) as [Hbig | Hsmall]; cbn [risk_grid].
    + split; [| right; exists t, s, data; auto].
      intros i j x. rewrite cell_map.
      destruct (cell data i j) as [y |] eqn:Hy; [| discriminate].
      cbn [option_map]. intros [= <-].
      specialize (Hdata i j y Hy). lra.
    + split; [| right; exists t, s, data; auto].
      intros i j x Hx. specialize (Hdata i j x Hx).
      pose proof (array_max_ge data m x Hmax (cell_in_concat _ _ _ _ Hx)).
      lra.
  - split; [intros i j x Hx; apply cell_zeros in Hx; lra | now left].
Qed.

Lemma loaded_grid_normalised_witness :
  (forall t s data,
      (fun _ : string => Raster north_up "EPSG:4326" [ [0; 51]; [102; 255] ])
        "risk_map.tif"%string = Raster t s data ->
      cells_within 0 255 data)
  /\ cells_within 0 1
       (risk_grid
          (__init__
             (fun _ => Raster north_up "EPSG:4326" [ [0; 51]; [102; 255] ])
             "risk_map.tif")).
Proof.
  assert (Hdata : forall t s data,
             (fun _ : string =>
                Raster north_up "EPSG:4326" [ [0; 51]; [102; 255] ])
               "risk_map.tif"%string = Raster t s data ->
             cells_within 0 255 data).
  { intros t s data [= _ _ <-] i j x Hx.
    apply cell_in_concat in Hx. cbn [List.concat app In] in Hx.
    destruct Hx as [<- | [<- | [<- | [<- | []]]]]; lra. }
  split; [exact Hdata |].
  exact (proj1 (loaded_grid_normalised _ "risk_map.tif" Hdata)).
Defined.

End GeoProperties.

(** * Further properties of the tactical analysis *)

Module TacticsProperties.
Import FireSimulationEngine FireVocabulary FireProperties.
Open Scope R_scope.

(** *** Extrema *)

Lemma argmin_from_spec (l : list R) :
  forall pre best_i,
    (best_i < List.length pre)%nat ->
    (forall y, In y pre -> nth best_i pre 0 <= y) ->
    let k := argmin_from l (List.length pre) best_i (nth best_i pre 0) in
    (k < List.length (pre ++ l))%nat
    /\ forall y, In y (pre ++ l) -> nth k (pre ++ l) 0 <= y.
Proof.
  induction l as [| x l IH]; intros pre best_i Hlt Hmin; cbn [argmin_from].
  - rewrite app_nil_r. auto.
  - assert (Hlen : List.length (pre ++ [x]) = S (List.length pre))
      by (rewrite length_app; simpl; lia).
    replace (pre ++ x :: l) with ((pre ++ [x]) ++ l)
      by (rewrite <- app_assoc; reflexivity).
    destruct (Rlt_dec x (nth best_i pre 0)) as [Hx | Hx].
    + specialize (IH (pre ++ [x]) (List.length pre)).
      rewrite Hlen in IH.
      rewrite app_nth2, Nat.sub_diag in IH by lia. cbn [nth] in IH.
      apply IH; [lia |].
      intros y Hy. apply in_app_or in Hy as [Hy | [<- | []]]; [| lra].
      specialize (Hmin y Hy). lra.
    + specialize (IH (pre ++ [x]) best_i).
      rewrite Hlen in IH.
      rewrite app_nth1 in IH by exact Hlt.
      apply IH; [lia |].
      intros y Hy. apply in_app_or in Hy as [Hy | [<- | []]]; [auto | lra].
Qed.

Lemma argmin_spec (l : list R) :
  l <> [] ->
  exists k,
    argmin l = Return k
    /\ (k < List.length l)%nat
    /\ forall y, In y l -> nth k l 0 <= y.
Proof.
  destruct l as [| x l]; [congruence | intros _].
  exists (argmin_from l 1 0 x). split; [reflexivity |].
  apply (argmin_from_spec l [x] 0%nat); simpl; [lia |].
  intros y [<- | []]. lra.
Qed.

Lemma argmin_project (cx cy : Z) (wx wy : R) (pts : contour) :
  pts <> [] ->
  exists k,
    argmin (project cx cy wx wy pts) = Return k
    /\ In (nth k pts (0, 0)%Z) pts
    /\ forall p, In p pts ->
         projection cx cy wx wy (nth k pts (0, 0)%Z)
         <= projection cx cy wx wy p.
Proof.
  intros Hne.
  destruct (argmin_spec (project cx cy wx wy pts)) as (k & Hk & Hlt & Hmin);
    [now apply project_nonempty |].
  rewrite project_projection in *. rewrite length_map in Hlt.
  exists k. split; [exact Hk |]. split; [now apply nth_In |].
  intros p Hp.
  rewrite (nth_indep _ 0 (projection cx cy wx wy (0, 0)%Z)) in Hmin
    by now rewrite length_map.
  rewrite map_nth in Hmin.
  apply Hmin. now apply in_map.
Qed.

(** [max] with a key returns an element of greatest key. *)
Lemma max_by_spec {A : Type} (key : A -> R) (rest : list A) :
  forall first,
    In (max_by key first rest) (first :: rest)
    /\ forall x, In x (first :: rest) -> key x <= key (max_by key first rest).
Proof.
  unfold max_by.
  induction rest as [| y rest IH]; intros first; cbn [fold_left].
  - split; [now left |]. intros x [<- | []]. lra.
  - destruct (Rlt_dec (key first) (key y)) as [Hlt | Hge].
    + destruct (IH y) as [Hin Hmax]. split.
      * right. exact Hin.
      * intros x [<- | Hx]; [| now apply Hmax].
        specialize (Hmax y (or_introl eq_refl)). lra.
    + destruct (IH first) as [Hin Hmax]. split.
      * destruct Hin as [<- | Hin]; [now left | right; now right].
      * intros x [<- | [<- | Hx]].
        -- apply Hmax. now left.
        -- specialize (Hmax first (or_introl eq_refl)). lra.
        -- apply Hmax. now right.
Qed.

(** *** The plan in full *)

Section Plan.
Context {cv2 : OpenCV}.

(** What [analyze_tactics] returns once a contour with vertices and area
    is found, with the three indices that pick the targets. *)
Lemma analyze_tactics_plan (self : engine) (fire_mask : frame)
  (wind_speed wind_dir : R) (first : contour) (rest : list contour) :
  findContours fire_mask = first :: rest ->
  max_by contourArea first rest <> [] ->
  m00 (moments (max_by contourArea first rest)) <> 0 ->
  let largest := max_by contourArea first rest in
  let cx := int (m10 (moments largest) / m00 (moments largest)) in
  let cy := int (m01 (moments largest) / m00 (moments largest)) in
  let vx := cos (radians (wind_dir - 90)) in
  let vy := sin (radians (wind_dir - 90)) in
  let total := arcLength largest * 20.0 * 5.0 in
  exists ka kb kc,
    analyze_tactics self fire_mask wind_speed wind_dir
    = Return (Some
        {| targets :=
             [ ("Alpha Head"%string, nth ka largest (0, 0)%Z);
               ("Bravo Flank"%string, nth kb largest (0, 0)%Z);
               ("Charlie Flank"%string, nth kc largest (0, 0)%Z) ];
           centroid := (cx, cy);
           fire_perimeter_gps :=
             map (fun '(x, y) => get_lat_lon self x y) (stride 5 largest);
           metrics :=
             {| perimeter_m := int (arcLength largest * 20.0);
                total_liters := int total;
                sector_loads :=
                  [ ("Alpha Head"%string, int (total * 0.50));
                    ("Bravo Flank"%string, int (total * 0.25));
                    ("Charlie Flank"%string, int (total * 0.25)) ] |} |})
    /\ In (nth kb largest (0, 0)%Z) largest
    /\ In (nth kc largest (0, 0)%Z) largest
    /\ forall p, In p largest ->
         projection cx cy (- vy) vx (nth kb largest (0, 0)%Z)
         <= projection cx cy (- vy) vx p
         <= projection cx cy (- vy) vx (nth kc largest (0, 0)%Z).
Proof.
  intros Hfind Hne Harea largest cx cy vx vy total.
  unfold analyze_tactics. rewrite Hfind. fold largest.
  destruct (Req_dec_T (m00 (moments largest)) 0) as [H0 | _];
    [now elim Harea |].
  fold cx cy vx vy.
  destruct (argmax_project cx cy vx vy largest Hne) as (ka & -> & _ & _).
  destruct (argmin_project cx cy (- vy) vx largest Hne)
    as (kb & -> & Hinb & Hminb).
  destruct (argmax_project cx cy (- vy) vx largest Hne)
    as (kc & -> & Hinc & Hmaxc).
  cbn [bind]. exists ka, kb, kc.
  split; [reflexivity |]. split; [exact Hinb |]. split; [exact Hinc |].
  intros p Hp. split; [now apply Hminb | now apply Hmaxc].
Qed.

End Plan.

(** *** Outcomes *)

Section Outcomes.
Context {cv2 : OpenCV}.

(** X10 (nothing to target).  When OpenCV returns contours with at least a
    vertex each, [analyze_tactics] raises nothing.  Without contour it
    returns [None]; otherwise it decides on the contour of greatest area,
    the first of them in OpenCV's list if several have it, and returns
    [None] exactly when [m00] of that contour is 0. *)
Theorem analyze_tactics_outcomes (self : engine) (fire_mask : frame)
  (wind_speed wind_dir : R) :
  (forall c, In c (findContours fire_mask) -> c <> []) ->
  exists outcome,
    analyze_tactics self fire_mask wind_speed wind_dir = Return outcome
    /\ match findContours fire_mask with
       | [] => outcome = None
       | first :: rest =>
           exists k largest,
             nth_error (first :: rest) k = Some largest
             /\ (forall c, In c (first :: rest) ->
                   contourArea c <= contourArea largest)
             /\ (forall j c, (j < k)%nat ->
                   nth_error (first :: rest) j = Some c ->
                   contourArea c < contourArea largest)
             /\ (outcome = None <-> m00 (moments largest) = 0)
       end.
Proof.
  intros Hvertices.
  destruct (findContours fire_mask) as [| first rest] eqn:Hfind.
  - exists None. unfold analyze_tactics. now rewrite Hfind.
  - destruct (max_by_first contourArea rest first)
      as (k & Hk & Hbefore & Hgreatest).
    destruct (Req_dec_T (m00 (moments (max_by contourArea first rest))) 0)
      as [Hzero | Harea].
    + exists None. unfold analyze_tactics. rewrite Hfind.
      destruct (Req_dec_T _ 0) as [_ | Hbad]; [| contradiction].
      split; [reflexivity |].
      exists k, (max_by contourArea first rest).
      split; [exact Hk |]. split; [exact Hgreatest |].
      split; [exact Hbefore | tauto].
    + assert (Hne : max_by contourArea first rest <> [])
        by (apply Hvertices, max_by_spec).
      destruct (analyze_tactics_plan self fire_mask wind_speed wind_dir
                  first rest Hfind Hne Harea) as (ka & kb & kc & Hrun & _).
      eexists. split; [exact Hrun |].
      exists k, (max_by contourArea first rest).
      split; [exact Hk |]. split; [exact Hgreatest |].
      split; [exact Hbefore |].
      split; [discriminate | intros Hbad; contradiction].
Qed.

(** X11 (the flanks).  When the largest contour has vertices and area, it
    is a contour whose area no other exceeds, and the targets are three:
    Bravo Flank is a vertex of it of least, Charlie Flank one of greatest
    projection, from the centroid, onto the perpendicular [(-vy, vx)] of
    the wind vector.  At bearing 90 no vertex has a smaller row than
    Bravo's nor a greater row than Charlie's. *)
Theorem analyze_tactics_flanks (self : engine) (fire_mask : frame)
  (wind_speed wind_dir : R) (first : contour) (rest : list contour) :
  findContours fire_mask = first :: rest ->
  max_by contourArea first rest <> [] ->
  m00 (moments (max_by contourArea first rest)) <> 0 ->
  let largest := max_by contourArea first rest in
  let vx := cos (radians (wind_dir - 90)) in
  let vy := sin (radians (wind_dir - 90)) in
  exists plan alpha bravo charlie,
    analyze_tactics self fire_mask wind_speed wind_dir = Return (Some plan)
    /\ targets plan
       = [ ("Alpha Head"%string, alpha); ("Bravo Flank"%string, bravo);
           ("Charlie Flank"%string, charlie) ]
    /\ In largest (findContours fire_mask)
    /\ (forall c, In c (findContours fire_mask) ->
          contourArea c <= contourArea largest)
    /\ In bravo largest
    /\ In charlie largest
    /\ (forall p, In p largest ->
          projection (fst (centroid plan)) (snd (centroid plan)) (- vy) vx bravo
          <= projection (fst (centroid plan)) (snd (centroid plan)) (- vy) vx p
          <= projection (fst (centroid plan)) (snd (centroid plan)) (- vy) vx
                        charlie)
    /\ (wind_dir = 90 ->
        forall p, In p largest -> (snd bravo <= snd p <= snd charlie)%Z).
Proof.
  intros Hfind Hne Harea largest vx vy.
  destruct (analyze_tactics_plan self fire_mask wind_speed wind_dir
              first rest Hfind Hne Harea)
    as (ka & kb & kc & Hrun & Hinb & Hinc & Hcross).
  fold largest vx vy in Hrun, Hinb, Hinc, Hcross.
  eexists. exists (nth ka largest (0, 0)%Z), (nth kb largest (0, 0)%Z),
             (nth kc largest (0, 0)%Z).
  split; [exact Hrun |]. cbn [targets centroid fst snd].
  split; [reflexivity |]. rewrite Hfind.
  split; [apply max_by_spec |]. split; [apply max_by_spec |].
  split; [exact Hinb |]. split; [exact Hinc |]. split; [exact Hcross |].
  intros -> p Hp. specialize (Hcross p Hp).
  unfold projection in Hcross. subst vx vy.
  rewrite radians_east, cos_0, sin_0 in Hcross.
  set (cy := int (m01 (moments largest) / m00 (moments largest))) in Hcross.
  assert (H1 : IZR (snd (nth kb largest (0, 0)%Z) - cy) <= IZR (snd p - cy))
    by lra.
  assert (H2 : IZR (snd p - cy) <= IZR (snd (nth kc largest (0, 0)%Z) - cy))
    by lra.
  apply le_IZR in H1, H2. lia.
Qed.

End Outcomes.

Lemma analyze_tactics_outcomes_witness :
  (forall c, In c (@findContours ellipse_cv2 []) -> c <> [])
  /\ exists outcome,
       @analyze_tactics ellipse_cv2 (uniform_engine 12 16 0.8) [] 15 90
       = Return outcome
       /\ exists k largest,
            nth_error [ellipse] k = Some largest
            /\ (outcome = None <-> m00 (@moments ellipse_cv2 largest) = 0).
Proof.
  assert (Hvertices : forall c, In c (@findContours ellipse_cv2 []) -> c <> [])
    by (intros c [<- | []]; discriminate).
  split; [exact Hvertices |].
  destruct (@analyze_tactics_outcomes ellipse_cv2 (uniform_engine 12 16 0.8) []
              15 90 Hvertices)
    as (outcome & Hrun & k & largest & Hk & _ & _ & Hnone).
  exists outcome. split; [exact Hrun |].
  exists k, largest. split; [exact Hk | exact Hnone].
Defined.

Lemma ellipse_largest :
  @max_by contour (@contourArea ellipse_cv2) ellipse [] <> [].
Proof. discriminate. Qed.

Lemma ellipse_area :
  m00 (@moments ellipse_cv2
         (@max_by contour (@contourArea ellipse_cv2) ellipse [])) <> 0.
Proof. simpl. lra. Qed.

Lemma analyze_tactics_flanks_witness :
  @findContours ellipse_cv2 [] = [ellipse]
  /\ @max_by contour (@contourArea ellipse_cv2) ellipse [] <> []
  /\ m00 (@moments ellipse_cv2
            (@max_by contour (@contourArea ellipse_cv2) ellipse [])) <> 0
  /\ exists plan bravo charlie,
       @analyze_tactics ellipse_cv2 (uniform_engine 12 16 0.8) [] 15 90
       = Return (Some plan)
       /\ nth_error (targets plan) 1 = Some ("Bravo Flank"%string, bravo)
       /\ nth_error (targets plan) 2 = Some ("Charlie Flank"%string, charlie)
       /\ forall p, In p ellipse -> (snd bravo <= snd p <= snd charlie)%Z.
Proof.
  split; [reflexivity |]. split; [exact ellipse_largest |].
  split; [exact ellipse_area |].
  destruct (@analyze_tactics_flanks ellipse_cv2 (uniform_engine 12 16 0.8)
              [] 15 90 ellipse [] eq_refl ellipse_largest ellipse_area)
    as (plan & alpha & bravo & charlie & Hrun & Htargets & _ & _ & _ & _ & _
        & Hrows).
  exists plan, bravo, charlie. split; [exact Hrun |].
  rewrite Htargets. split; [reflexivity |]. split; [reflexivity |].
  exact (Hrows eq_refl).
Defined.

(** *** Loads *)

Lemma int_bounds (x : R) : 0 <= x -> IZR (int x) <= x < IZR (int x) + 1.
Proof.
  intros Hx. unfold int. destruct (Rle_dec 0 x) as [_ | Hn]; [| contradiction].
  pose proof (base_Int_part x). lra.
Qed.

Lemma int_greatest (x : R) (z : Z) : 0 <= x -> IZR z <= x -> (z <= int x)%Z.
Proof.
  intros Hx Hz. pose proof (int_bounds x Hx) as [_ Hup].
  assert (Hlt : IZR z < IZR (int x + 1)) by (rewrite plus_IZR; lra).
  apply lt_IZR in Hlt. lia.
Qed.

(** X12 (retardant loads).  For a perimeter of [L >= 0] pixels the plan
    reports [int(20 L)] metres and [int(100 L)] litres; the flanks get the
    same load, Alpha Head at least as much, and the three loads add up to
    the reported litres or to one or two litres less, never to more. *)
Theorem analyze_tactics_loads {cv2 : OpenCV} (self : engine)
  (fire_mask : frame) (wind_speed wind_dir : R)
  (first : contour) (rest : list contour) :
  findContours fire_mask = first :: rest ->
  max_by contourArea first rest <> [] ->
  m00 (moments (max_by contourArea first rest)) <> 0 ->
  0 <= arcLength (max_by contourArea first rest) ->
  let L := arcLength (max_by contourArea first rest) in
  exists plan head flank,
    analyze_tactics self fire_mask wind_speed wind_dir = Return (Some plan)
    /\ perimeter_m (metrics plan) = int (20 * L)
    /\ total_liters (metrics plan) = int (100 * L)
    /\ sector_loads (metrics plan)
       = [ ("Alpha Head"%string, head); ("Bravo Flank"%string, flank);
           ("Charlie Flank"%string, flank) ]
    /\ (0 <= flank <= head)%Z
    /\ (total_liters (metrics plan) - 2 <= head + flank + flank
        <= total_liters (metrics plan))%Z
    /\ (5 * perimeter_m (metrics plan) <= total_liters (metrics plan)
        <= 5 * perimeter_m (metrics plan) + 4)%Z.
Proof.
  intros Hfind Hne Harea Hlen L.
  destruct (analyze_tactics_plan self fire_mask wind_speed wind_dir
              first rest Hfind Hne Harea) as (ka & kb & kc & Hrun & _).
  fold L in Hrun.
  eexists. exists (int (L * 20.0 * 5.0 * 0.50)), (int (L * 20.0 * 5.0 * 0.25)).
  split; [exact Hrun |]. cbn [metrics perimeter_m total_liters sector_loads].
  replace (L * 20.0) with (20 * L) by lra.
  replace (20 * L * 5.0) with (100 * L) by lra.
  replace (100 * L * 0.50) with (50 * L) by lra.
  replace (100 * L * 0.25) with (25 * L) by lra.
  split; [reflexivity |]. split; [reflexivity |]. split; [reflexivity |].
  fold L in Hlen.
  pose proof (int_bounds (20 * L) ltac:(lra)) as [Hp1 Hp2].
  pose proof (int_bounds (100 * L) ltac:(lra)) as [Ht1 Ht2].
  pose proof (int_bounds (50 * L) ltac:(lra)) as [Hh1 Hh2].
  pose proof (int_bounds (25 * L) ltac:(lra)) as [Hf1 Hf2].
  set (p := int (20 * L)) in *. set (t := int (100 * L)) in *.
  set (h := int (50 * L)) in *. set (fl := int (25 * L)) in *.
  assert (Hfl0 : (0 <= fl)%Z)
    by (apply (int_greatest (25 * L) 0); lra).
  assert (Hflh : (fl <= h)%Z)
    by (apply (int_greatest (50 * L) fl); lra).
  assert (Hsum : (h + fl + fl <= t)%Z)
    by (apply (int_greatest (100 * L)); [lra | rewrite !plus_IZR; lra]).
  assert (Hsum' : (t - 3 < h + fl + fl)%Z)
    by (apply lt_IZR; rewrite minus_IZR, !plus_IZR; lra).
  assert (Hpt : (5 * p <= t)%Z)
    by (apply (int_greatest (100 * L)); [lra | rewrite mult_IZR; lra]).
  assert (Hpt' : (t < 5 * p + 5)%Z)
    by (apply lt_IZR; rewrite plus_IZR, mult_IZR; lra).
  repeat split; lia.
Qed.

Lemma ellipse_length :
  0 <= @arcLength ellipse_cv2
         (@max_by contour (@contourArea ellipse_cv2) ellipse []).
Proof. simpl. lra. Qed.

Lemma analyze_tactics_loads_witness :
  @findContours ellipse_cv2 [] = [ellipse]
  /\ @max_by contour (@contourArea ellipse_cv2) ellipse [] <> []
  /\ m00 (@moments ellipse_cv2
            (@max_by contour (@contourArea ellipse_cv2) ellipse [])) <> 0
  /\ 0 <= @arcLength ellipse_cv2
            (@max_by contour (@contourArea ellipse_cv2) ellipse [])
  /\ exists plan head flank,
       @analyze_tactics ellipse_cv2 (uniform_engine 12 16 0.8) [] 15 90
       = Return (Some plan)
       /\ sector_loads (metrics plan)
          = [ ("Alpha Head"%string, head); ("Bravo Flank"%string, flank);
              ("Charlie Flank"%string, flank) ]
       /\ (total_liters (metrics plan) - 2 <= head + flank + flank
           <= total_liters (metrics plan))%Z.
Proof.
  split; [reflexivity |]. split; [exact ellipse_largest |].
  split; [exact ellipse_area |]. split; [exact ellipse_length |].
  destruct (@analyze_tactics_loads ellipse_cv2 (uniform_engine 12 16 0.8)
              [] 15 90 ellipse [] eq_refl ellipse_largest ellipse_area
              ellipse_length)
    as (plan & head & flank & Hrun & _ & _ & Hloads & _ & Hsum & _).
  exists plan, head, flank. auto.
Defined.

(** *** The perimeter polygon *)

(** Every fifth element, from the first on, is kept. *)
Lemma stride_from_length {A : Type} (l : list A) :
  forall skip,
    (skip <= 4)%nat ->
    List.length (stride_from 5 skip l) = ((List.length l + 4 - skip) / 5)%nat.
Proof.
  induction l as [| x l IH]; intros skip Hskip.
  - cbn [stride_from List.length].
    symmetry. apply Nat.div_small. lia.
  - cbn [stride_from List.length].
    destruct skip as [| skip].
    + cbn [Nat.pred List.length]. rewrite IH by lia.
      replace (S (List.length l) + 4 - 0)%nat
        with (List.length l + 4 - 4 + 1 * 5)%nat by lia.
      rewrite Nat.div_add; lia.
    + rewrite IH by lia. reflexivity.
Qed.

Lemma stride_length {A : Type} (l : list A) :
  List.length (stride 5 l) = ((List.length l + 4) / 5)%nat.
Proof.
  unfold stride. rewrite stride_from_length by lia.
  f_equal. lia.
Qed.

End TacticsProperties.

(** * Further properties of the allocator *)

Module AllocatorChoice.
Import QuantumResourceSolver AllocatorVocabulary AllocatorProperties.
Open Scope Q_scope.

(** *** The inner loop finds a best score *)

Lemma score_le_bound (q : Q) (s s' : score_bound) :
  score_le q s -> bound_le s s' -> score_le q s'.
Proof.
  destruct s as [| x], s' as [| y]; cbn; try tauto.
  intros H1 H2. now apply Qle_trans with x.
Qed.

Lemma bound_le_trans (s1 s2 s3 : score_bound) :
  bound_le s1 s2 -> bound_le s2 s3 -> bound_le s1 s3.
Proof.
  destruct s1 as [| x], s2 as [| y], s3 as [| z]; cbn; try tauto.
  apply Qle_trans.
Qed.

Lemma consider_step (uniform : nat -> Q) (t_name : string) (st : search)
  (unit : asset) :
  let st' := consider uniform t_name st unit in
  drawn st' = S (drawn st)
  /\ score_le (merit t_name unit + uniform (drawn st)) (best_score st')
  /\ bound_le (best_score st) (best_score st')
  /\ ((best_asset st' = best_asset st /\ best_score st' = best_score st)
      \/ (best_asset st' = Some unit
          /\ best_score st'
             = Finite (merit t_name unit + uniform (drawn st)))).
Proof.
  rewrite consider_merit. cbv zeta.
  destruct (best_score st) as [| q] eqn:Hq; cbn [exceeds].
  - cbn [drawn best_score best_asset score_le bound_le].
    split; [reflexivity |]. split; [apply Qle_refl |]. split; [exact I |].
    right. split; reflexivity.
  - destruct (Qlt_le_dec q (merit t_name unit + uniform (drawn st)))
      as [Hlt | Hle]; cbn [drawn best_score best_asset score_le bound_le].
    + split; [reflexivity |]. split; [apply Qle_refl |].
      split; [now apply Qlt_le_weak |].
      right. split; reflexivity.
    + split; [reflexivity |]. split; [exact Hle |].
      split; [apply Qle_refl |].
      left. split; reflexivity.
Qed.

Lemma consider_fold (uniform : nat -> Q) (t_name : string)
  (units : list asset) :
  forall st,
    let found := fold_left (consider uniform t_name) units st in
    drawn found = (drawn st + List.length units)%nat
    /\ (forall i unit,
          nth_error units i = Some unit ->
          score_le (merit t_name unit + uniform (drawn st + i)%nat)
                   (best_score found))
    /\ bound_le (best_score st) (best_score found)
    /\ ((best_asset found = best_asset st
         /\ best_score found = best_score st)
        \/ exists i unit,
             nth_error units i = Some unit
             /\ best_asset found = Some unit
             /\ best_score found
                = Finite (merit t_name unit + uniform (drawn st + i)%nat)).
Proof.
  induction units as [| unit units IH]; intros st; cbn [fold_left].
  - cbn [List.length]. rewrite Nat.add_0_r.
    split; [reflexivity |]. split; [intros [| i] u; discriminate |].
    split; [destruct (best_score st); cbn; auto using Qle_refl |].
    now left.
  - destruct (consider_step uniform t_name st unit) as (Hd & Hs & Hb & Hwho).
    destruct (IH (consider uniform t_name st unit)) as (Hd' & Hs' & Hb' & Hwho').
    cbv zeta in *. rewrite Hd in Hd', Hs', Hwho'.
    split; [cbn [List.length]; lia |]. split; [| split].
    + intros [| i] u Hu; cbn [nth_error] in Hu.
      * injection Hu as <-. rewrite Nat.add_0_r.
        eapply score_le_bound; eassumption.
      * specialize (Hs' i u Hu).
        now replace (drawn st + S i)%nat with (S (drawn st) + i)%nat by lia.
    + eapply bound_le_trans; eassumption.
    + destruct Hwho' as [[Ha Hsc] | (i & u & Hu & Ha & Hsc)].
      * destruct Hwho as [[Ha0 Hsc0] | [Ha0 Hsc0]].
        -- left. split; congruence.
        -- right. exists 0%nat, unit. rewrite Nat.add_0_r.
           split; [reflexivity |]. split; congruence.
      * right. exists (S i), u.
        replace (drawn st + S i)%nat with (S (drawn st) + i)%nat by lia.
        auto.
Qed.

(** The merit of a unit is one of four numbers. *)
Lemma merit_values (t_name : string) (unit : asset) :
  merit t_name unit = 0 \/ merit t_name unit = 0 + 30
  \/ merit t_name unit = 0 + 50 \/ merit t_name unit = 0 + 50 + 30.
Proof.
  unfold merit.
  destruct (contains (specialty unit) t_name),
           (String.eqb (type unit) "Aerial" && contains "Head" t_name);
    cbv zeta; tauto.
Qed.

(** Among the units scanned, the one found has the greatest merit: the
    noise, within ten points, cannot bridge the twenty points or more
    between two different merits. *)
Lemma found_max_merit (uniform : nat -> Q) (t_name : string)
  (units : list asset) (n : nat) :
  in_range uniform ->
  units <> [] ->
  exists best,
    best_asset
      (fold_left (consider uniform t_name) units
         {| best_asset := None; best_score := NegInf; drawn := n |})
    = Some best
    /\ drawn
         (fold_left (consider uniform t_name) units
            {| best_asset := None; best_score := NegInf; drawn := n |})
       = (n + List.length units)%nat
    /\ In best units
    /\ forall unit, In unit units -> merit t_name unit <= merit t_name best.
Proof.
  intros Hrange Hne.
  destruct (consider_fold uniform t_name units
              {| best_asset := None; best_score := NegInf; drawn := n |})
    as (Hd & Hs & _ & Hwho).
  cbv zeta in *. cbn [drawn best_asset best_score] in *.
  destruct Hwho as [[_ Hinf] | (i & best & Hi & Hbest & Hscore)].
  - destruct units as [| unit units]; [congruence |].
    specialize (Hs 0%nat unit eq_refl). rewrite Hinf in Hs. contradiction.
  - exists best. split; [exact Hbest |]. split; [exact Hd |].
    split; [now apply nth_error_In in Hi |].
    intros unit Hunit. apply In_nth_error in Hunit as [k Hk].
    specialize (Hs k unit Hk). rewrite Hscore in Hs. cbn [score_le] in Hs.
    pose proof (Hrange (n + k)%nat) as [Hk1 Hk2].
    pose proof (Hrange (n + i)%nat) as [Hi1 Hi2].
    destruct (merit_values t_name unit) as [Hu | [Hu | [Hu | Hu]]],
             (merit_values t_name best) as [Hb | [Hb | [Hb | Hb]]];
      rewrite Hu, Hb in *; Lqa.lra.
Qed.

(** One pass of the outer loop on a pool that is not empty. *)
Lemma assign_picks (uniform : nat -> Q) (st : progress)
  (t : string * (Z * Z)) :
  in_range uniform ->
  pool st <> [] ->
  exists best,
    In best (pool st)
    /\ (forall unit, In unit (pool st) -> merit (fst t) unit <= merit (fst t) best)
    /\ assign uniform st t
       = {| solution := solution st ++ [entry best t];
            pool := without best (pool st);
            used := (used st + List.length (pool st))%nat |}.
Proof.
  intros Hrange Hne. destruct t as [t_name t_coords]. cbn [fst].
  destruct (found_max_merit uniform t_name (pool st) (used st) Hrange Hne)
    as (best & Hbest & Hdrawn & Hin & Hmax).
  exists best. split; [exact Hin |]. split; [exact Hmax |].
  unfold assign. rewrite Hbest, Hdrawn. reflexivity.
Qed.

(** On an empty pool the pass changes nothing. *)
Lemma assign_empty (uniform : nat -> Q) (st : progress)
  (t : string * (Z * Z)) :
  pool st = [] ->
  solution (assign uniform st t) = solution st
  /\ pool (assign uniform st t) = [].
Proof.
  intros Hpool. destruct t as [t_name t_coords].
  unfold assign. rewrite Hpool. cbn [fold_left best_asset solution pool].
  split; reflexivity.
Qed.

(** *** The free units *)

Lemma free_nil (units : list asset) : free [] units = units.
Proof.
  unfold free. cbn [map existsb negb].
  induction units as [| u units IH]; [reflexivity |].
  cbn [filter]. now rewrite IH.
Qed.

Lemma free_snoc (taken : list assignment) (best : asset)
  (t : string * (Z * Z)) (units : list asset) :
  free (taken ++ [entry best t]) units = without best (free taken units).
Proof.
  unfold free, without.
  induction units as [| u units IH]; [reflexivity |].
  cbn [filter]. rewrite IH, map_app, existsb_app.
  cbn [map existsb entry asset_id]. rewrite orb_false_r, negb_orb.
  destruct (existsb (String.eqb (id u)) (map asset_id taken));
    cbn [negb andb filter]; [reflexivity |].
  destruct (String.eqb (id u) (id best)); reflexivity.
Qed.

Lemma free_In (taken : list assignment) (units : list asset) (u : asset) :
  In u (free taken units)
  <-> In u units /\ ~ In (id u) (map asset_id taken).
Proof.
  unfold free. rewrite filter_In, negb_true_iff.
  split; intros [Hu Hfree]; split; try exact Hu.
  - intros Hbad.
    assert (Hex : existsb (String.eqb (id u)) (map asset_id taken) = true)
      by (apply existsb_exists; exists (id u);
          split; [exact Hbad | apply String.eqb_refl]).
    congruence.
  - destruct (existsb _ _) eqn:Hex; [| reflexivity].
    apply existsb_exists in Hex as (s & Hs & Heq).
    apply String.eqb_eq in Heq. subst s. contradiction.
Qed.

(** *** Greedy by merit *)

Lemma greedy_fold (uniform : nat -> Q) (fleet0 : list asset)
  (targets : list (string * (Z * Z))) :
  in_range uniform ->
  forall st,
    pool st = free (solution st) fleet0 ->
    greedy fleet0 (solution st) ->
    greedy fleet0 (solution (fold_left (assign uniform) targets st)).
Proof.
  intros Hrange.
  induction targets as [| t targets IH]; intros st Hpool Hgreedy;
    [exact Hgreedy |].
  cbn [fold_left].
  destruct (pool st) as [| u0 us] eqn:Hnonempty.
  - destruct (assign_empty uniform st t Hnonempty) as [Hsol Hp].
    apply IH; rewrite Hsol; [now rewrite Hp | exact Hgreedy].
  - destruct (assign_picks uniform st t Hrange) as (best & Hin & Hmax & Heq);
      [rewrite Hnonempty; discriminate |].
    rewrite Heq. apply IH; cbn [solution pool].
    + rewrite free_snoc. now rewrite <- Hpool, Hnonempty.
    + intros k x Hx.
      destruct (Nat.lt_ge_cases k (List.length (solution st))) as [Hk | Hk].
      * rewrite nth_error_app1 in Hx by exact Hk.
        rewrite firstn_app.
        replace (k - List.length (solution st))%nat with 0%nat by lia.
        cbn [firstn]. rewrite app_nil_r. now apply Hgreedy.
      * rewrite nth_error_app2 in Hx by exact Hk.
        destruct (k - List.length (solution st))%nat as [| d] eqn:Hd;
          [| destruct d; discriminate].
        cbn [nth_error] in Hx. injection Hx as <-.
        assert (k = List.length (solution st)) by lia. subst k.
        rewrite firstn_app, Nat.sub_diag, firstn_all. cbn [firstn].
        rewrite app_nil_r.
        rewrite Hnonempty, Hpool in Hin, Hmax.
        exists best. split; [now apply free_In in Hin |].
        split; [reflexivity |].
        intros unit Hunit Hfree. cbn [entry target].
        apply Hmax. apply free_In. now split.
Qed.

(** X13 (greedy by merit).  When every draw lies in [-5, 5], each entry of
    the answer names a unit whose merit for its target (50 for a matching
    specialty, 30 more for an Aerial unit on a "Head") is the greatest
    among the units of the fleet that no earlier entry names: the noise
    only decides between units of equal merit. *)
Theorem optimize_response_greedy (self : solver)
  (targets : list (string * (Z * Z))) (uniform : nat -> Q) :
  in_range uniform ->
  greedy (fleet self) (fst (optimize_response self targets uniform)).
Proof.
  intros Hrange. unfold optimize_response. cbn [fst].
  apply greedy_fold; cbn [solution pool].
  - exact Hrange.
  - now rewrite free_nil.
  - intros [| k] x; discriminate.
Qed.

Lemma no_noise_range : in_range no_noise.
Proof. intros n. unfold no_noise. split; Lqa.lra. Qed.

Lemma optimize_response_greedy_witness :
  in_range no_noise
  /\ greedy (fleet __init__)
            (fst (optimize_response __init__ ellipse_targets no_noise)).
Proof.
  split; [exact no_noise_range |].
  apply (optimize_response_greedy __init__ ellipse_targets no_noise).
  exact no_noise_range.
Defined.

(** *** One entry per target while units last *)

Lemma without_all (best : asset) (units : list asset) :
  ~ In (id best) (map id units) -> without best units = units.
Proof.
  unfold without.
  induction units as [| u units IH]; intros Hfree; [reflexivity |].
  cbn [filter map In] in *.
  destruct (String.eqb (id u) (id best)) eqn:Heq.
  - apply String.eqb_eq in Heq. elim Hfree. now left.
  - cbn [negb]. rewrite IH by tauto. reflexivity.
Qed.

(** In a fleet of distinct ids exactly one unit goes. *)
Lemma without_distinct (best : asset) (units : list asset) :
  NoDup (map id units) ->
  In best units ->
  NoDup (map id (without best units))
  /\ S (List.length (without best units)) = List.length units.
Proof.
  induction units as [| u units IH]; intros Hdup Hin; [contradiction |].
  cbn [map] in Hdup. inversion Hdup as [| ? ? Hfresh Hdup']; subst.
  destruct Hin as [-> | Hin].
  - unfold without at 1 2. cbn [filter].
    rewrite String.eqb_refl. cbn [negb].
    fold (without best units). rewrite without_all by exact Hfresh.
    split; [exact Hdup' | reflexivity].
  - destruct (IH Hdup' Hin) as [Hnd Hlen].
    unfold without at 1 2. cbn [filter].
    destruct (String.eqb (id u) (id best)) eqn:Heq.
    + apply String.eqb_eq in Heq. elim Hfresh. rewrite Heq.
      now apply in_map.
    + cbn [negb]. fold (without best units). split.
      * cbn [map]. constructor; [| exact Hnd].
        intros Hbad. apply Hfresh.
        apply in_map_iff in Hbad as (v & Hv & Hvin).
        apply filter_In in Hvin as [Hvin _].
        rewrite <- Hv. now apply in_map.
      * cbn [List.length]. now rewrite Hlen.
Qed.

(** One pass of the outer loop on a pool that is not empty, whatever the
    draws. *)
Lemma assign_some (uniform : nat -> Q) (st : progress)
  (t : string * (Z * Z)) :
  pool st <> [] ->
  exists best,
    In best (pool st)
    /\ solution (assign uniform st t) = solution st ++ [entry best t]
    /\ pool (assign uniform st t) = without best (pool st).
Proof.
  intros Hne. destruct t as [t_name t_coords]. unfold assign.
  destruct (best_asset (fold_left _ _ _)) as [best |] eqn:Hbest.
  - exists best. apply found_in_pool in Hbest as [Hbad | Hin];
      [discriminate |].
    split; [exact Hin |]. split; reflexivity.
  - exfalso. revert Hbest. apply found_some. right. now split.
Qed.

Lemma order_fold (uniform : nat -> Q) (targets : list (string * (Z * Z))) :
  forall st,
    NoDup (map id (pool st)) ->
    map item_of (solution (fold_left (assign uniform) targets st))
    = map item_of (solution st) ++ firstn (List.length (pool st)) targets.
Proof.
  induction targets as [| t targets IH]; intros st Hdup.
  - cbn [fold_left]. now rewrite firstn_nil, app_nil_r.
  - cbn [fold_left].
    destruct (pool st) as [| u0 us] eqn:Hpool.
    + destruct (assign_empty uniform st t Hpool) as [Hsol Hp].
      rewrite IH by (rewrite Hp; constructor).
      now rewrite Hsol, Hp.
    + destruct (assign_some uniform st t) as (best & Hin & Hsol & Hp);
        [rewrite Hpool; discriminate |].
      rewrite Hpool in Hin, Hp.
      destruct (without_distinct best (u0 :: us) Hdup Hin) as [Hnd Hlen].
      rewrite IH by (rewrite Hp; exact Hnd).
      rewrite Hsol, Hp, map_app, <- app_assoc, <- Hlen.
      cbn [firstn map app item_of entry target coords].
      destruct t as [t_name t_coords]. reflexivity.
Qed.

(** X14 (order of the answer).  On a fleet of distinct ids, as the roster
    is, the answer lists the targets in the order of the dictionary, each
    with its coordinates, one entry per target until the fleet is used up:
    its items are the first #fleet items of the dictionary. *)
Theorem optimize_response_order (self : solver)
  (targets : list (string * (Z * Z))) (uniform : nat -> Q) :
  NoDup (map id (fleet self)) ->
  map item_of (fst (optimize_response self targets uniform))
  = firstn (List.length (fleet self)) targets.
Proof.
  intros Hdup. unfold optimize_response. cbn [fst].
  now rewrite order_fold.
Qed.

Lemma roster_distinct : NoDup (map id (fleet __init__)).
Proof.
  cbn [__init__ fleet roster map id].
  repeat constructor; cbn [In]; intuition discriminate.
Qed.

Lemma optimize_response_order_witness :
  NoDup (map id (fleet __init__))
  /\ map item_of (fst (optimize_response __init__ ellipse_targets no_noise))
     = firstn (List.length (fleet __init__)) ellipse_targets.
Proof.
  split; [exact roster_distinct |].
  apply (optimize_response_order __init__ ellipse_targets no_noise).
  exact roster_distinct.
Defined.

(** *** The three tactical targets *)

(** The pick [Hin] of a pass over a listed pool, known by [Hmax] to have at
    least the merit of the pool's first unit: one case per unit that has it,
    with the pool that the pass leaves. *)
Ltac pick_unit Hin Hmax :=
  let H := fresh "Hfirst" in
  cbn [pool fst roster] in Hin, Hmax;
  pose proof (Hmax _ (or_introl eq_refl)) as H;
  repeat (destruct Hin as [<- | Hin]; [| try contradiction]);
  try (exfalso; vm_compute in H; now apply H);
  clear H Hmax;
  cbn [pool solution used app List.length Nat.add];
  try match goal with
      | |- context [without ?b ?p] =>
          let r := eval vm_compute in (without b p) in
          change (without b p) with r
      end.

(** The answer for the three labels of [analyze_tactics], pass by pass. *)
Lemma tactical_answer (uniform : nat -> Q) (alpha bravo charlie : Z * Z) :
  in_range uniform ->
  exists g1 g2,
    fst (optimize_response __init__ (tactical_targets alpha bravo charlie)
                           uniform)
    = [ {| asset_id := "TANKER-01"; target := "Alpha Head"; coords := alpha |};
        {| asset_id := g1; target := "Bravo Flank"; coords := bravo |};
        {| asset_id := g2; target := "Charlie Flank"; coords := charlie |} ]
    /\ In g1 ground_crews /\ In g2 ground_crews /\ g1 <> g2.
Proof.
  intros Hrange.
  unfold optimize_response, tactical_targets. cbn [fst fold_left fleet __init__].
  destruct (assign_picks uniform {| solution := []; pool := roster; used := 0 |}
              ("Alpha Head"%string, alpha) Hrange)
    as (b1 & Hin1 & Hmax1 & ->); [discriminate |].
  pick_unit Hin1 Hmax1.
  match goal with
  | |- context [assign ?u (Build_progress ?sol ?p ?n) ?t] =>
      destruct (assign_picks u (Build_progress sol p n) t Hrange)
        as (b2 & Hin2 & Hmax2 & ->); [discriminate |]
  end.
  pick_unit Hin2 Hmax2.
  all: match goal with
  | |- context [assign ?u (Build_progress ?sol ?p ?n) ?t] =>
      destruct (assign_picks u (Build_progress sol p n) t Hrange)
        as (b3 & Hin3 & Hmax3 & ->); [discriminate |]
  end.
  all: pick_unit Hin3 Hmax3.
  all: cbn [entry id fst snd].
  all: do 2 eexists; (split; [reflexivity |]).
  all: unfold ground_crews; cbn [In]; repeat split; auto; discriminate.
Qed.

(** X15 (the plan of [analyze_tactics] on the roster).  For the dictionary
    with the keys "Alpha Head", "Bravo Flank", "Charlie Flank" in this
    order, whatever the three pixels, and for every outcome of the draws in
    [-5, 5], a new solver answers with three entries: TANKER-01 on Alpha
    Head, then two different ground crews (ENGINE-A, ENGINE-B, CREW-ZULU) on
    the two flanks.  DRONE-X1 is never sent. *)
Theorem optimize_response_tactical (uniform : nat -> Q)
  (alpha bravo charlie : Z * Z) :
  in_range uniform ->
  exists g1 g2,
    fst (optimize_response __init__ (tactical_targets alpha bravo charlie)
                           uniform)
    = [ {| asset_id := "TANKER-01"; target := "Alpha Head"; coords := alpha |};
        {| asset_id := g1; target := "Bravo Flank"; coords := bravo |};
        {| asset_id := g2; target := "Charlie Flank"; coords := charlie |} ]
    /\ In g1 ground_crews /\ In g2 ground_crews /\ g1 <> g2.
Proof.
  intros Hrange.
  destruct (tactical_answer uniform alpha bravo charlie Hrange)
    as (g1 & g2 & Hanswer & Hg1 & Hg2 & Hne).
  exists g1, g2. repeat split; assumption.
Qed.

Lemma optimize_response_tactical_witness :
  in_range no_noise
  /\ exists g1 g2,
       fst (optimize_response __init__
              (tactical_targets (12, 3)%Z (3, 0)%Z (9, 6)%Z) no_noise)
       = [ {| asset_id := "TANKER-01"; target := "Alpha Head";
              coords := (12, 3)%Z |};
           {| asset_id := g1; target := "Bravo Flank"; coords := (3, 0)%Z |};
           {| asset_id := g2; target := "Charlie Flank";
              coords := (9, 6)%Z |} ]
       /\ In g1 ground_crews /\ In g2 ground_crews /\ g1 <> g2.
Proof.
  split; [exact no_noise_range |].
  apply (optimize_response_tactical no_noise (12, 3)%Z (3, 0)%Z (9, 6)%Z).
  exact no_noise_range.
Defined.

End AllocatorChoice.

(** * Further properties of the router *)

Module RouterGeometry.
Import LogisticsRouter RouterVocabulary RouterProperties.
Open Scope R_scope.

(** *** The outcomes of the distance *)

(** [atan2] of two numbers that are not negative. *)
Lemma atan2_quadrant (y x : R) :
  0 <= y -> 0 <= x -> 0 <= atan2 y x <= PI / 2.
Proof.
  intros Hy Hx. unfold atan2. pose proof PI_RGT_0 as Hpi.
  destruct (Rlt_dec 0 x) as [Hpos | Hnpos].
  - assert (Hq : 0 <= y / x)
      by (apply Rmult_le_pos; [exact Hy | left; now apply Rinv_0_lt_compat]).
    pose proof (atan_bound (y / x)) as [_ Hup].
    split; [| lra].
    rewrite <- atan_0. destruct Hq as [Hq | <-]; [| lra].
    left. now apply atan_increasing.
  - destruct (Rlt_dec x 0); [lra |].
    destruct (Rlt_dec 0 y); [lra |].
    destruct (Rlt_dec y 0); lra.
Qed.

(** Exact arithmetic has the laws of the doubles. *)
Lemma exact_laws : Float64Laws exact_arithmetic.
Proof.
  constructor; cbn [RN math_radians math_sin math_atan2 exact_arithmetic].
  - reflexivity.
  - reflexivity.
  - reflexivity.
  - intros x Hx. exact Hx.
  - unfold radians. lra.
  - intros x. unfold radians. lra.
  - apply sin_0.
  - apply sin_neg.
  - unfold atan2. destruct (Rlt_dec 0 1); [| lra].
    replace (0 / 1) with 0 by lra. apply atan_0.
  - intros y x Hy Hx. now apply atan2_quadrant.
Qed.

(** Without rounding the distance is computed, in closed form. *)
Lemma haversine_value (lat1 lon1 lat2 lon2 : R) :
  let a := @haversine_a exact_arithmetic lat1 lon1 lat2 lon2 in
  @_haversine exact_arithmetic lat1 lon1 lat2 lon2
  = Return (6371 * (2 * atan2 (sqrt a) (sqrt (1 - a)))).
Proof.
  intros a.
  pose proof (haversine_a_bounds lat1 lon1 lat2 lon2) as [H0 H1].
  destruct (@haversine_outcome exact_arithmetic lat1 lon1 lat2 lon2)
    as [(_ & _ & ->) | ([Hneg | Hneg] & _)].
  - reflexivity.
  - lra.
  - cbn [RN exact_arithmetic] in Hneg. lra.
Qed.

Lemma haversine_bounds (lat1 lon1 lat2 lon2 dist : R) :
  @_haversine exact_arithmetic lat1 lon1 lat2 lon2 = Return dist ->
  0 <= dist <= 6371 * PI.
Proof.
  intros H. pose proof (haversine_value lat1 lon1 lat2 lon2) as Hv.
  cbv zeta in Hv.
  pose proof (atan2_quadrant
                (sqrt (@haversine_a exact_arithmetic lat1 lon1 lat2 lon2))
                (sqrt (1 - @haversine_a exact_arithmetic lat1 lon1 lat2 lon2))
                (sqrt_pos _) (sqrt_pos _)) as Hq.
  remember (atan2 _ _) as c eqn:Ec in Hv, Hq. clear Ec.
  rewrite Hv in H. injection H as <-. lra.
Qed.

(** With the laws of the doubles a distance that is returned is not
    negative. *)
Lemma haversine_nonneg {fp : Float64} {laws : Float64Laws fp}
  (lat1 lon1 lat2 lon2 dist : R) :
  _haversine lat1 lon1 lat2 lon2 = Return dist -> 0 <= dist.
Proof.
  destruct (haversine_outcome lat1 lon1 lat2 lon2)
    as [(_ & _ & ->) | (_ & ->)]; [| discriminate].
  intros [= <-].
  apply rounds_nonneg. apply Rmult_le_pos; [lra |].
  apply rounds_nonneg. apply Rmult_le_pos; [lra |].
  apply atan2_nonneg; apply rounds_nonneg, sqrt_pos.
Qed.

(** X16 (the outcomes of the distance).  [_haversine] raises [ValueError]
    when the sum [a] that the doubles give is below 0 or [1 - a] is, and
    returns otherwise, a distance that is not negative when the arithmetic
    has the laws of the doubles.  Without rounding [a] lies in [0, 1]: the
    distance is always returned, between 0 and 6371 pi km, half the
    circumference of the sphere.  With the doubles it does raise: from the
    base of ENGINE-A to (-19.052000447, 75.686) they give
    [a = 1 + 2^-52]. *)
Theorem haversine_range {fp : Float64} (lat1 lon1 lat2 lon2 : R) :
  let a := haversine_a lat1 lon1 lat2 lon2 in
  (a < 0 \/ RN (1 - a) < 0 ->
   _haversine lat1 lon1 lat2 lon2 = Raise ValueError)
  /\ (0 <= a -> 0 <= RN (1 - a) ->
      exists dist,
        _haversine lat1 lon1 lat2 lon2 = Return dist
        /\ (Float64Laws fp -> 0 <= dist))
  /\ (exists dist,
        @_haversine exact_arithmetic lat1 lon1 lat2 lon2 = Return dist
        /\ 0 <= dist <= 6371 * PI)
  /\ @_haversine doubles_met 19.0520 (-104.3140) far_lat far_lon
     = Raise ValueError.
Proof.
  intros a. split; [| split; [| split]].
  - intros Hout.
    destruct (haversine_outcome lat1 lon1 lat2 lon2)
      as [(H0 & H1 & _) | (_ & Hraise)]; [| exact Hraise].
    fold a in H0, H1. lra.
  - intros H0 H1.
    destruct (haversine_outcome lat1 lon1 lat2 lon2)
      as [(_ & _ & Hreturn) | (Hout & _)].
    + eexists. split; [exact Hreturn |]. intros laws.
      now apply (haversine_nonneg lat1 lon1 lat2 lon2).
    + fold a in Hout. lra.
  - eexists. split; [apply haversine_value |].
    apply (haversine_bounds lat1 lon1 lat2 lon2). apply haversine_value.
  - exact haversine_far_raises.
Qed.

(** *** The distance is symmetric *)

Section Symmetry.
Context {fp : Float64} {laws : Float64Laws fp}.

Lemma sin_half_sqr_odd (x : R) :
  RN (math_sin (RN (- x / 2)) ^ 2) = RN (math_sin (RN (x / 2)) ^ 2).
Proof.
  replace (- x / 2) with (- (x / 2)) by lra.
  rewrite rounds_odd, sin_odd. f_equal. ring.
Qed.

Lemma haversine_a_sym (lat1 lon1 lat2 lon2 : R) :
  haversine_a lat1 lon1 lat2 lon2 = haversine_a lat2 lon2 lat1 lon1.
Proof.
  unfold haversine_a.
  replace (lat1 - lat2) with (- (lat2 - lat1)) by lra.
  replace (lon1 - lon2) with (- (lon2 - lon1)) by lra.
  rewrite !rounds_odd, !radians_odd, !sin_half_sqr_odd.
  rewrite (Rmult_comm (math_cos (math_radians lat2))). reflexivity.
Qed.

Lemma haversine_a_same (lat lon : R) : haversine_a lat lon lat lon = 0.
Proof.
  unfold haversine_a.
  replace (lat - lat) with 0 by lra. replace (lon - lon) with 0 by lra.
  rewrite rounds_zero, radians_zero.
  replace (0 / 2) with 0 by lra.
  rewrite rounds_zero, sin_zero.
  replace (0 ^ 2) with 0 by lra. rewrite rounds_zero, Rmult_0_r, rounds_zero.
  rewrite Rplus_0_r. apply rounds_zero.
Qed.

(** X17 (symmetry of the distance).  [_haversine] gives the same result
    from a first point to a second as from the second to the first, and
    the distance 0 from a point to itself: with exact arithmetic, and with
    any arithmetic that has the laws of the doubles. *)
Theorem haversine_symmetric (lat1 lon1 lat2 lon2 : R) :
  _haversine lat1 lon1 lat2 lon2 = _haversine lat2 lon2 lat1 lon1
  /\ _haversine lat1 lon1 lat1 lon1 = Return 0.
Proof.
  split.
  - unfold _haversine. now rewrite (haversine_a_sym lat1 lon1 lat2 lon2).
  - unfold _haversine, math_sqrt. rewrite haversine_a_same.
    destruct (Rlt_dec 0 0) as [Hbad | _]; [lra |]. cbn [bind].
    rewrite Rminus_0_r, rounds_one.
    destruct (Rlt_dec 1 0) as [Hbad | _]; [lra |]. cbn [bind].
    rewrite sqrt_0, sqrt_1, rounds_zero, rounds_one, atan2_zero.
    rewrite Rmult_0_r, rounds_zero, Rmult_0_r, rounds_zero. reflexivity.
Qed.

End Symmetry.

Lemma haversine_symmetric_witness :
  Float64Laws exact_arithmetic
  /\ @_haversine exact_arithmetic 19.0520 (-104.3140) 19.1 (-104.3)
     = @_haversine exact_arithmetic 19.1 (-104.3) 19.0520 (-104.3140)
  /\ @_haversine exact_arithmetic 19.0520 (-104.3140) 19.0520 (-104.3140)
     = Return 0.
Proof.
  split; [exact exact_laws |].
  exact (@haversine_symmetric exact_arithmetic exact_laws
           19.0520 (-104.3140) 19.1 (-104.3)).
Defined.

(** *** Rounding *)

Lemma round_half_even_near (x : R) :
  - (1 / 2) <= IZR (round_half_even x) - x <= 1 / 2.
Proof.
  unfold round_half_even. pose proof (base_Int_part x) as [Hlo Hhi].
  destruct (Rlt_dec (x - IZR (Int_part x)) (1 / 2)) as [Hlt | Hge]; [lra |].
  assert (Hup : - (1 / 2) <= IZR (Int_part x + 1) - x <= 1 / 2)
    by (rewrite plus_IZR; lra).
  destruct (Rlt_dec (1 / 2) (x - IZR (Int_part x))); [exact Hup |].
  destruct (Z.even (Int_part x)); [lra | exact Hup].
Qed.

Lemma round2_near (x : R) : Rabs (round2 x - x) <= 0.005.
Proof.
  unfold round2. pose proof (round_half_even_near (x * 100)) as H.
  apply Rabs_le. lra.
Qed.

(** *** The direct route *)

Lemma travel_minutes (dist speed : R) :
  0 <= dist -> 0 < speed -> 0 <= dist / speed * 60.
Proof.
  intros Hd Hs.
  apply Rmult_le_pos; [| lra].
  apply Rmult_le_pos; [exact Hd | left; now apply Rinv_0_lt_compat].
Qed.

Lemma int_nonneg (x : R) : 0 <= x -> (0 <= int x)%Z.
Proof.
  intros Hx. apply (TacticsProperties.int_greatest x 0 Hx). exact Hx.
Qed.

(** The figures of a direct route over a distance that is not negative. *)
Lemma direct_route_figures (dist_km speed_kmh : R) :
  0 <= dist_km -> 0 < speed_kmh ->
  let duration := Z.max 1 (int (dist_km / speed_kmh * 60) + 2) in
  duration = (int (dist_km / speed_kmh * 60) + 2)%Z
  /\ (2 <= duration)%Z
  /\ IZR duration <= dist_km / speed_kmh * 60 + 2 < IZR duration + 1.
Proof.
  intros Hpos Hspeed duration.
  pose proof (travel_minutes dist_km speed_kmh Hpos Hspeed) as Hmin.
  pose proof (int_nonneg _ Hmin) as Hint.
  pose proof (TacticsProperties.int_bounds _ Hmin) as Hfloor.
  unfold duration. rewrite Z.max_r by lia. rewrite plus_IZR.
  split; [reflexivity |]. split; [lia | lra].
Qed.

(** X20 (the figures of a direct route).  At a speed above zero a direct
    route that is returned takes the minutes of travel at that speed over
    the distance of [_haversine], plus two, rounded down: two minutes at
    least, so that the floor of one minute never applies; the distance it
    reports is that distance to within 0.005 km.  This holds with any
    arithmetic that has the laws of the doubles; without rounding the
    route is always returned, with these figures. *)
Theorem direct_route_metrics {fp : Float64} {laws : Float64Laws fp}
  (start : base) (lat_target lon_target : R) (speed_kmh : R)
  (mode : string) :
  0 < speed_kmh ->
  (forall r,
     _make_direct_route start lat_target lon_target speed_kmh mode
     = Return r ->
     exists dist_km,
       _haversine (lat start) (lon start) lat_target lon_target
       = Return dist_km
       /\ (2 <= duration_min r)%Z
       /\ IZR (duration_min r) <= dist_km / speed_kmh * 60 + 2
          < IZR (duration_min r) + 1
       /\ Rabs (distance_km r - dist_km) <= 0.005)
  /\ exists dist_km r,
       @_haversine exact_arithmetic (lat start) (lon start)
                   lat_target lon_target
       = Return dist_km
       /\ @_make_direct_route exact_arithmetic start lat_target lon_target
            speed_kmh mode
          = Return r
       /\ (2 <= duration_min r)%Z
       /\ IZR (duration_min r) <= dist_km / speed_kmh * 60 + 2
          < IZR (duration_min r) + 1
       /\ Rabs (distance_km r - dist_km) <= 0.005.
Proof.
  intros Hspeed. split.
  - intros r.
    destruct (direct_route_outcome start lat_target lon_target speed_kmh mode)
      as [(dist & Hdist & ->) | (_ & ->)]; [| discriminate].
    intros [= <-]. exists dist. split; [exact Hdist |].
    cbn [duration_min distance_km].
    pose proof (haversine_nonneg _ _ _ _ _ Hdist) as Hpos.
    destruct (direct_route_figures dist speed_kmh Hpos Hspeed)
      as (_ & Htwo & Hfloor).
    split; [exact Htwo |]. split; [exact Hfloor | apply round2_near].
  - destruct (direct_route_returns start lat_target lon_target speed_kmh mode)
      as (dist & Hdist & Hroute).
    pose proof (haversine_bounds _ _ _ _ _ Hdist) as [Hpos _].
    destruct (direct_route_figures dist speed_kmh Hpos Hspeed)
      as (_ & Htwo & Hfloor).
    exists dist. eexists. split; [exact Hdist |]. split; [exact Hroute |].
    cbn [duration_min distance_km].
    split; [exact Htwo |]. split; [exact Hfloor | apply round2_near].
Qed.

Lemma direct_route_metrics_witness :
  Float64Laws exact_arithmetic
  /\ 0 < 15.0
  /\ exists dist_km r,
       @_haversine exact_arithmetic 19.0520 (-104.3140) 19.1 (-104.3)
       = Return dist_km
       /\ @_make_direct_route exact_arithmetic
            {| lat := 19.0520; lon := -104.3140;
               name := "Bomberos Manzanillo Central" |}
            19.1 (-104.3) 15.0 "Direct (Nav Fail)"
          = Return r
       /\ (2 <= duration_min r)%Z
       /\ IZR (duration_min r) <= dist_km / 15.0 * 60 + 2
          < IZR (duration_min r) + 1
       /\ Rabs (distance_km r - dist_km) <= 0.005.
Proof.
  assert (Hspeed : 0 < 15.0) by lra.
  split; [exact exact_laws |]. split; [exact Hspeed |].
  exact (proj2 (@direct_route_metrics exact_arithmetic exact_laws
                  {| lat := 19.0520; lon := -104.3140;
                     name := "Bomberos Manzanillo Central" |}
                  19.1 (-104.3) 15.0 "Direct (Nav Fail)" Hspeed)).
Defined.

(** *** Air units *)

Lemma tanker_base (asset_id : string) :
  contains "TANKER" asset_id = true -> base_key_of asset_id = "TANKER"%string.
Proof. intros H. unfold base_key_of. rewrite H. reflexivity. Qed.

(** An air unit flies the direct route at 250 km/h. *)
Lemma air_route {fp : Float64} {libs : RoadLibraries} (self : router)
  (lat_target lon_target : R) (asset_id : string)
  (avoid_polygon : option (list (R * R))) (start : base) :
  air asset_id ->
  getitem BASES (base_key_of asset_id) = Return start ->
  calculate_route self lat_target lon_target asset_id avoid_polygon
  = _make_direct_route start lat_target lon_target 250.0 "Air Direct".
Proof.
  intros Hair Hstart. unfold calculate_route. rewrite Hstart. cbn [bind].
  unfold air in Hair. rewrite Hair. reflexivity.
Qed.

(** X18 (air units).  For an id that contains "TANKER" or "DRONE", the road
    graph and the obstacle play no part in [calculate_route]: when
    [_haversine] returns the distance from the base, the call returns the
    route "Air Direct" with the two points base and target, the rounded
    distance and the minutes at 250 km/h plus two; when [_haversine]
    raises, so does the call.  An id that contains "TANKER" leaves from the
    airport. *)
Theorem calculate_route_air {fp : Float64} {libs : RoadLibraries}
  (self : router) (lat_target lon_target : R) (asset_id : string)
  (avoid_polygon : option (list (R * R))) :
  air asset_id ->
  exists start,
    getitem BASES (base_key_of asset_id) = Return start
    /\ (contains "TANKER" asset_id = true ->
        name start = "Manzanillo Intl Airport (ZLO)"%string)
    /\ match _haversine (lat start) (lon start) lat_target lon_target with
       | Return dist_km =>
           calculate_route self lat_target lon_target asset_id avoid_polygon
           = Return
               {| origin := name start;
                  distance_km := round2 dist_km;
                  duration_min :=
                    Z.max 1 (int (dist_km / 250.0 * 60) + 2);
                  path :=
                    [ (lat start, lon start); (lat_target, lon_target) ];
                  type := "Air Direct" |}
       | Raise e =>
           calculate_route self lat_target lon_target asset_id avoid_polygon
           = Raise e
       end.
Proof.
  intros Hair.
  destruct (base_found asset_id) as [start Hstart].
  exists start. split; [exact Hstart |]. split.
  - intros Htanker. rewrite (tanker_base asset_id Htanker) in Hstart.
    cbn in Hstart. injection Hstart as <-. reflexivity.
  - rewrite (air_route self lat_target lon_target asset_id avoid_polygon
               start Hair Hstart).
    destruct (direct_route_outcome start lat_target lon_target 250.0
                                   "Air Direct")
      as [(dist & -> & ->) | (-> & ->)]; reflexivity.
Qed.

Lemma tanker_air : air "TANKER-01".
Proof. reflexivity. Qed.

Lemma calculate_route_air_witness :
  air "TANKER-01"
  /\ exists r,
       @calculate_route exact_arithmetic failing_libraries one_node_router
                        19.1 (-104.3) "TANKER-01" None
       = Return r
       /\ type r = "Air Direct"%string
       /\ origin r = "Manzanillo Intl Airport (ZLO)"%string
       /\ path r = [ (19.1438, -104.5596); (19.1, -104.3) ].
Proof.
  split; [exact tanker_air |].
  destruct (@calculate_route_air exact_arithmetic failing_libraries
              one_node_router 19.1 (-104.3) "TANKER-01" None tanker_air)
    as (start & Hstart & Hname & Hroute).
  destruct (haversine_returns (lat start) (lon start) 19.1 (-104.3))
    as [dist Hdist].
  rewrite Hdist in Hroute.
  eexists. split; [exact Hroute |]. split; [reflexivity |].
  split; [exact (Hname eq_refl) |].
  cbn [path]. injection Hstart as <-. reflexivity.
Defined.

(** *** The two ends of a route *)

Lemma smart_route_ends {fp : Float64} {libs : RoadLibraries} (g : Graph)
  (start : base) (lat_target lon_target : R)
  (avoid_polygon : option (list (R * R))) (r : route) :
  smart_route g start lat_target lon_target avoid_polygon = Return r ->
  from_base_to_target start lat_target lon_target r.
Proof.
  unfold smart_route.
  repeat match goal with
         | |- context [bind ?m _] =>
             destruct m; cbn [bind]; [| discriminate]
         end.
  intros [= <-]. split; [reflexivity |]. split; [| apply Z.le_max_l].
  eexists. reflexivity.
Qed.

Lemma direct_route_ends {fp : Float64} (start : base)
  (lat_target lon_target : R) (speed_kmh : R) (mode : string) (r : route) :
  _make_direct_route start lat_target lon_target speed_kmh mode = Return r ->
  from_base_to_target start lat_target lon_target r.
Proof.
  destruct (direct_route_outcome start lat_target lon_target speed_kmh mode)
    as [(dist & _ & ->) | (_ & ->)]; [| discriminate].
  intros [= <-]. split; [reflexivity |]. split; [| apply Z.le_max_l].
  exists []. reflexivity.
Qed.

(** Whichever branch makes the route, it goes from the base to the
    target. *)
Lemma calculate_route_from_base {fp : Float64} {libs : RoadLibraries}
  (self : router) (lat_target lon_target : R) (asset_id : string)
  (avoid_polygon : option (list (R * R))) (start : base) (r : route) :
  getitem BASES (base_key_of asset_id) = Return start ->
  calculate_route self lat_target lon_target asset_id avoid_polygon
  = Return r ->
  from_base_to_target start lat_target lon_target r.
Proof.
  intros Hstart. unfold calculate_route. rewrite Hstart. cbn [bind].
  cbn [SPEEDS getitem String.eqb Ascii.eqb Bool.eqb bind].
  destruct (contains "TANKER" asset_id || contains "DRONE" asset_id);
    [apply direct_route_ends |].
  destruct (usable (graph self)) as [g |]; [| apply direct_route_ends].
  destruct (smart_route g start lat_target lon_target avoid_polygon)
    as [r' | e] eqn:Hsmart; [| apply direct_route_ends].
  intros [= <-]. now apply smart_route_ends in Hsmart.
Qed.

(** The one exception that leaves [calculate_route] is the [ValueError] of
    the distance from the base to the target. *)
Lemma calculate_route_raises {fp : Float64} {libs : RoadLibraries}
  (self : router) (lat_target lon_target : R) (asset_id : string)
  (avoid_polygon : option (list (R * R))) (start : base) (e : exception) :
  getitem BASES (base_key_of asset_id) = Return start ->
  calculate_route self lat_target lon_target asset_id avoid_polygon
  = Raise e ->
  e = ValueError
  /\ _haversine (lat start) (lon start) lat_target lon_target
     = Raise ValueError.
Proof.
  intros Hstart. unfold calculate_route. rewrite Hstart. cbn [bind].
  cbn [SPEEDS getitem String.eqb Ascii.eqb Bool.eqb bind].
  assert (Hdirect :
            forall speed mode,
              _make_direct_route start lat_target lon_target speed mode
              = Raise e ->
              e = ValueError
              /\ _haversine (lat start) (lon start) lat_target lon_target
                 = Raise ValueError).
  { intros speed mode.
    destruct (direct_route_outcome start lat_target lon_target speed mode)
      as [(dist & _ & ->) | (Hraise & ->)]; [discriminate |].
    intros [= <-]. split; [reflexivity | exact Hraise]. }
  destruct (contains "TANKER" asset_id || contains "DRONE" asset_id);
    [apply Hdirect |].
  destruct (usable (graph self)) as [g |]; [| apply Hdirect].
  destruct (smart_route g start lat_target lon_target avoid_polygon)
    as [r' | e']; [discriminate | apply Hdirect].
Qed.

(** A route is returned or [ValueError] is raised, and the route has a
    tag of the three. *)
Lemma calculate_route_outcome {fp : Float64} {libs : RoadLibraries}
  (self : router) (lat_target lon_target : R) (asset_id : string)
  (avoid_polygon : option (list (R * R))) :
  (exists r,
     calculate_route self lat_target lon_target asset_id avoid_polygon
     = Return r)
  \/ calculate_route self lat_target lon_target asset_id avoid_polygon
     = Raise ValueError.
Proof.
  destruct (base_found asset_id) as [start Hstart].
  destruct (calculate_route self lat_target lon_target asset_id avoid_polygon)
    as [r | e] eqn:Hcall; [left; now exists r | right].
  destruct (calculate_route_raises self lat_target lon_target asset_id
              avoid_polygon start e Hstart Hcall) as [-> _].
  reflexivity.
Qed.

(** Without rounding a route is always returned. *)
Lemma calculate_route_exact {libs : RoadLibraries} (self : router)
  (lat_target lon_target : R) (asset_id : string)
  (avoid_polygon : option (list (R * R))) :
  exists r,
    @calculate_route exact_arithmetic libs self lat_target lon_target
      asset_id avoid_polygon
    = Return r.
Proof.
  destruct (base_found asset_id) as [start Hstart].
  destruct (@calculate_route exact_arithmetic libs self lat_target lon_target
              asset_id avoid_polygon) as [r | e] eqn:Hcall; [now exists r |].
  destruct (@calculate_route_raises exact_arithmetic libs self lat_target
              lon_target asset_id avoid_polygon start e Hstart Hcall)
    as [_ Hraise].
  destruct (haversine_returns (lat start) (lon start) lat_target lon_target)
    as [dist Hdist].
  rewrite Hdist in Hraise. discriminate.
Qed.

Lemma path_ends (first target : R * R) (inner : list (R * R)) :
  hd_error (first :: inner ++ [target]) = Some first
  /\ last (first :: inner ++ [target]) (0, 0) = target
  /\ (2 <= List.length (first :: inner ++ [target]))%nat.
Proof.
  split; [reflexivity |]. split.
  - change (first :: inner ++ [target]) with ((first :: inner) ++ [target]).
    apply last_last.
  - cbn [List.length]. rewrite length_app. cbn [List.length]. lia.
Qed.

(** X19 (the two ends of a route).  Every asset has a base.  A route that
    [calculate_route] returns, by air, by road or direct, has the name of
    that base as origin, a path that starts on the base and ends on the
    target itself, with two points at least, and a duration of one minute
    at least.  The one exception that leaves the call is [ValueError], and
    only when [_haversine] raises it for the distance from the base to the
    target; without rounding a route is always returned. *)
Theorem calculate_route_ends {fp : Float64} {libs : RoadLibraries}
  (self : router) (lat_target lon_target : R) (asset_id : string)
  (avoid_polygon : option (list (R * R))) :
  exists start,
    getitem BASES (base_key_of asset_id) = Return start
    /\ (forall r,
          calculate_route self lat_target lon_target asset_id avoid_polygon
          = Return r ->
          origin r = name start
          /\ hd_error (path r) = Some (lat start, lon start)
          /\ last (path r) (0, 0) = (lat_target, lon_target)
          /\ (2 <= List.length (path r))%nat
          /\ (1 <= duration_min r)%Z)
    /\ (forall e,
          calculate_route self lat_target lon_target asset_id avoid_polygon
          = Raise e ->
          e = ValueError
          /\ _haversine (lat start) (lon start) lat_target lon_target
             = Raise ValueError)
    /\ exists r,
         @calculate_route exact_arithmetic libs self lat_target lon_target
           asset_id avoid_polygon
         = Return r.
Proof.
  destruct (base_found asset_id) as [start Hstart].
  exists start. split; [exact Hstart |]. split; [| split].
  - intros r Hr.
    destruct (calculate_route_from_base self lat_target lon_target asset_id
                avoid_polygon start r Hstart Hr)
      as (Horigin & (inner & Hpath) & Hduration).
    split; [exact Horigin |]. rewrite Hpath.
    destruct (path_ends (lat start, lon start) (lat_target, lon_target) inner)
      as (Hhd & Hlast & Hlen).
    repeat split; assumption.
  - intros e.
    apply (calculate_route_raises self lat_target lon_target asset_id
             avoid_polygon start e Hstart).
  - apply calculate_route_exact.
Qed.

(** *** Obstacles that change nothing *)

Lemma filter_result_raises {A : Type} (test : A -> result bool) (l : list A)
  (x : A) (e : exception) :
  In x l -> test x = Raise e -> exists e', filter_result test l = Raise e'.
Proof.
  induction l as [| y l IH]; intros Hin Hx; [contradiction |].
  cbn [filter_result].
  destruct Hin as [-> | Hin].
  - rewrite Hx. now exists e.
  - destruct (test y) as [keep | e0]; cbn [bind]; [| now exists e0].
    destruct (IH Hin Hx) as [e' ->]. now exists e'.
Qed.

Lemma filter_result_none {A : Type} (test : A -> result bool) (l : list A) :
  (forall x, In x l -> test x = Return false) ->
  filter_result test l = Return [].
Proof.
  induction l as [| y l IH]; intros Hall; [reflexivity |].
  cbn [filter_result]. rewrite (Hall y) by now left.
  cbn [bind]. rewrite IH by (intros x Hx; apply Hall; now right).
  reflexivity.
Qed.

(** On a harmless polygon the test of length fails, or the inner [try]
    raises, or it ends with the graph as it was. *)
Lemma avoid_harmless {libs : RoadLibraries} (g : Graph) (poly : list (R * R)) :
  harmless g poly ->
  (List.length poly <= 3)%nat
  \/ (exists e, avoid g poly = Raise e)
  \/ avoid g poly = Return g.
Proof.
  intros [Hshort | [[e He] | (p & Hp & Hrest)]]; [now left | |].
  - right. left. exists e. unfold avoid. now rewrite He.
  - right. unfold avoid. rewrite Hp. cbn [bind].
    destruct Hrest as [[e He] | (shrunk & Hs & Hcase)].
    + left. exists e. now rewrite He.
    + rewrite Hs. cbn [bind].
      destruct Hcase as [Hempty | [(nd & e & Hin & Hraise) | Hnone]].
      * right. now rewrite Hempty.
      * destruct (is_empty shrunk); cbn [negb]; [now right |].
        left.
        destruct (filter_result_raises
                    (fun nd => contains_point shrunk (fst (snd nd))
                                              (snd (snd nd)))
                    (nodes g) nd e Hin Hraise) as [e' ->].
        now exists e'.
      * right. destruct (is_empty shrunk); cbn [negb]; [reflexivity |].
        rewrite filter_result_none by exact Hnone. reflexivity.
Qed.

Lemma smart_route_harmless {fp : Float64} {libs : RoadLibraries} (g : Graph)
  (start : base) (lat_target lon_target : R) (poly : list (R * R)) :
  harmless g poly ->
  smart_route g start lat_target lon_target (Some poly)
  = smart_route g start lat_target lon_target None.
Proof.
  intros H. unfold smart_route.
  destruct (avoid_harmless g poly H) as [Hshort | [[e He] | Hsame]].
  - apply Nat.ltb_ge in Hshort. now rewrite Hshort.
  - rewrite He. now destruct (3 <? List.length poly)%nat.
  - rewrite Hsame. now destruct (3 <? List.length poly)%nat.
Qed.

Lemma calculate_route_harmless {fp : Float64} {libs : RoadLibraries}
  (self : router) (lat_target lon_target : R) (asset_id : string)
  (poly : list (R * R)) :
  (forall g, usable (graph self) = Some g -> harmless g poly) ->
  calculate_route self lat_target lon_target asset_id (Some poly)
  = calculate_route self lat_target lon_target asset_id None.
Proof.
  intros H. unfold calculate_route.
  destruct (getitem BASES (base_key_of asset_id)) as [start | e];
    cbn [bind]; [| reflexivity].
  destruct (contains "TANKER" asset_id || contains "DRONE" asset_id);
    [reflexivity |].
  destruct (usable (graph self)) as [g |]; [| reflexivity].
  now rewrite (smart_route_harmless g start lat_target lon_target poly
                 (H g eq_refl)).
Qed.

(** X21 (obstacles that change nothing).  The result is the one computed
    without obstacle when the polygon has three vertices at most, when
    shapely raises on it or on a node, when its form shrunk by 0.0001 is
    empty, and when no node of the graph lies inside: no error is shown and
    no node is taken out. *)
Theorem calculate_route_ignores_obstacle {fp : Float64}
  {libs : RoadLibraries} (self : router) (lat_target lon_target : R)
  (asset_id : string) (poly : list (R * R)) :
  (forall g, usable (graph self) = Some g -> harmless g poly) ->
  calculate_route self lat_target lon_target asset_id (Some poly)
  = calculate_route self lat_target lon_target asset_id None.
Proof.
  intros Hharmless.
  destruct (base_found asset_id) as [start Hstart].
  unfold calculate_route. rewrite Hstart. cbn [bind].
  destruct (contains "TANKER" asset_id || contains "DRONE" asset_id);
    [reflexivity |].
  destruct (usable (graph self)) as [g |] eqn:Hg; [| reflexivity].
  now rewrite (smart_route_harmless g start lat_target lon_target poly
                 (Hharmless g eq_refl)).
Qed.

Lemma square_harmless :
  forall g, @usable failing_libraries (graph one_node_router) = Some g ->
            @harmless failing_libraries g square.
Proof.
  intros g _. right. right. exists square. split; [reflexivity |].
  right. exists square. split; [reflexivity |].
  right. right. intros nd _. reflexivity.
Qed.

Lemma calculate_route_ignores_obstacle_witness :
  (forall g, @usable failing_libraries (graph one_node_router) = Some g ->
             @harmless failing_libraries g square)
  /\ @calculate_route exact_arithmetic failing_libraries one_node_router
       19.1 (-104.3) "ENGINE-A" (Some square)
     = @calculate_route exact_arithmetic failing_libraries one_node_router
         19.1 (-104.3) "ENGINE-A" None.
Proof.
  split; [exact square_harmless |].
  apply (@calculate_route_ignores_obstacle exact_arithmetic failing_libraries
           one_node_router 19.1 (-104.3) "ENGINE-A" square).
  exact square_harmless.
Defined.

End RouterGeometry.

(** * Properties of the simulation page *)

Module LabProperties.
Import FireSimulationEngine FireVocabulary SimulationLab LabVocabulary.
Open Scope R_scope.

(** *** The strategic sort *)

Lemma next_index_from_spec {A : Type} (test : A -> bool) (l : list A) :
  forall i k,
    next_index_from test l i = Some k ->
    (i <= k)%nat
    /\ exists x, nth_error l (k - i) = Some x /\ test x = true.
Proof.
  induction l as [| d l IH]; intros i k; cbn [next_index_from];
    [discriminate |].
  destruct (test d) eqn:Hd.
  - intros [= <-]. split; [lia |]. rewrite Nat.sub_diag. now exists d.
  - intros Hk. destruct (IH (S i) k Hk) as (Hle & x & Hx & Htest).
    split; [lia |]. exists x. split; [| exact Htest].
    replace (k - i)%nat with (S (k - S i)) by lia. exact Hx.
Qed.

Lemma next_index_spec {A : Type} (test : A -> bool) (l : list A) (k : nat) :
  next_index test l = Some k ->
  exists x, nth_error l k = Some x /\ test x = true.
Proof.
  intros Hk. apply next_index_from_spec in Hk as (_ & x & Hx & Htest).
  rewrite Nat.sub_0_r in Hx. now exists x.
Qed.

Lemma nth_error_set_target (allocs : list allocation) (i : nat) (t : string)
  (k : nat) :
  nth_error (set_target allocs i t) k
  = option_map (fun x => if Nat.eqb k i
                         then {| asset_id := asset_id x; target := t;
                                 coords := coords x; priority := priority x |}
                         else x)
               (nth_error allocs k).
Proof.
  unfold set_target, imap. now rewrite FireProperties.nth_error_imap_from.
Qed.

Lemma set_target_length (allocs : list allocation) (i : nat) (t : string) :
  List.length (set_target allocs i t) = List.length allocs.
Proof. unfold set_target, imap. apply FireProperties.imap_from_length. Qed.

Lemma map_set_target {B : Type} (g : allocation -> B)
  (allocs : list allocation) (i : nat) (t : string) :
  (forall x, g {| asset_id := asset_id x; target := t;
                  coords := coords x; priority := priority x |} = g x) ->
  map g (set_target allocs i t) = map g allocs.
Proof.
  intros Hg. apply nth_error_ext. intros k.
  rewrite !nth_error_map, nth_error_set_target.
  destruct (nth_error allocs k) as [x |]; [| reflexivity].
  cbn [option_map]. destruct (Nat.eqb k i); [now rewrite Hg | reflexivity].
Qed.

(** A list with one item replaced, set beside the list it came from. *)
Lemma replace_permutation {A : Type} (l : list A) :
  forall (l' : list A) (j : nat) (x y : A),
    nth_error l j = Some y ->
    (forall k, nth_error l' k
               = if Nat.eqb k j then Some x else nth_error l k) ->
    Permutation (y :: l') (x :: l).
Proof.
  induction l as [| h t IH]; intros l' j x y Hj Hl'.
  - destruct j; discriminate.
  - destruct l' as [| h' t'].
    + specialize (Hl' j). rewrite Nat.eqb_refl in Hl'.
      destruct j; discriminate.
    + destruct j as [| j].
      * injection Hj as ->.
        pose proof (Hl' 0%nat) as H0. injection H0 as ->.
        assert (t' = t) as ->
          by (apply nth_error_ext; intros k; exact (Hl' (S k))).
        apply perm_swap.
      * pose proof (Hl' 0%nat) as H0. injection H0 as ->.
        assert (Hperm : Permutation (y :: t') (x :: t))
          by (apply (IH t' j x y Hj); intros k; exact (Hl' (S k))).
        rewrite perm_swap, Hperm. apply perm_swap.
Qed.

(** A list with two of its items exchanged is a permutation of it. *)
Lemma exchange_permutation {A : Type} (l : list A) :
  forall (l' : list A) (i j : nat) (x y : A),
    nth_error l i = Some x ->
    nth_error l j = Some y ->
    (forall k, nth_error l' k
               = if Nat.eqb k i then Some y
                 else if Nat.eqb k j then Some x
                 else nth_error l k) ->
    Permutation l' l.
Proof.
  induction l as [| h t IH]; intros l' i j x y Hi Hj Hl'.
  - destruct i; discriminate.
  - destruct l' as [| h' t'].
    + specialize (Hl' i). rewrite Nat.eqb_refl in Hl'.
      destruct i; discriminate.
    + destruct i as [| i], j as [| j].
      * injection Hi as ->. injection Hj as ->.
        pose proof (Hl' 0%nat) as H0. injection H0 as ->.
        assert (t' = t) as ->
          by (apply nth_error_ext; intros k; exact (Hl' (S k))).
        reflexivity.
      * injection Hi as ->.
        pose proof (Hl' 0%nat) as H0. injection H0 as ->.
        apply (replace_permutation t t' j x y Hj).
        intros k. exact (Hl' (S k)).
      * injection Hj as ->.
        pose proof (Hl' 0%nat) as H0. injection H0 as ->.
        apply (replace_permutation t t' i y x Hi).
        intros k. exact (Hl' (S k)).
      * pose proof (Hl' 0%nat) as H0. injection H0 as ->.
        apply perm_skip. apply (IH t' i j x y Hi Hj).
        intros k. exact (Hl' (S k)).
Qed.

(** The three ways through the sort: an index is missing, both indices are
    the same, or two targets are exchanged. *)
Lemma strategic_sort_cases (allocs : list QuantumResourceSolver.assignment) :
  let listed := map prioritise allocs in
  ((next_index is_tanker listed = None
    \/ next_index for_alpha listed = None
    \/ next_index is_tanker listed = next_index for_alpha listed)
   /\ strategic_sort allocs = listed)
  \/ exists ti ai tanker alpha,
       next_index is_tanker listed = Some ti
       /\ next_index for_alpha listed = Some ai
       /\ ti <> ai
       /\ nth_error listed ti = Some tanker
       /\ nth_error listed ai = Some alpha
       /\ is_tanker tanker = true
       /\ for_alpha alpha = true
       /\ strategic_sort allocs
          = set_target (set_target listed ti (target alpha)) ai
                       (target tanker).
Proof.
  intros listed. unfold strategic_sort. fold listed.
  fold is_tanker. fold for_alpha.
  destruct (next_index is_tanker listed) as [ti |] eqn:Hti; [| left; tauto].
  destruct (next_index for_alpha listed) as [ai |] eqn:Hai; [| left; tauto].
  destruct (Nat.eqb ti ai) eqn:Heq; cbn [negb].
  - apply Nat.eqb_eq in Heq. subst ai. left. tauto.
  - apply Nat.eqb_neq in Heq.
    destruct (next_index_spec _ _ _ Hti) as (tanker & Htanker & Htest).
    destruct (next_index_spec _ _ _ Hai) as (alpha & Halpha & Htest').
    rewrite Htanker, Halpha.
    right. exists ti, ai, tanker, alpha. repeat split; assumption.
Qed.

(** X24 (the strategic sort).  Whatever the solver answered, the sort
    keeps the asset, the coordinates and the priority of every entry where
    they were: it changes targets only, and the targets after the sort are
    a permutation of the targets before it.  When the list holds a tanker
    and an entry for Alpha, the first tanker holds a target for Alpha once
    the sort is done. *)
Theorem strategic_sort_exchanges_targets
  (allocs : list QuantumResourceSolver.assignment) :
  let out := strategic_sort allocs in
  map asset_id out = map QuantumResourceSolver.asset_id allocs
  /\ map coords out = map QuantumResourceSolver.coords allocs
  /\ map priority out = map priority (map prioritise allocs)
  /\ Permutation (map target out)
                 (map QuantumResourceSolver.target allocs)
  /\ forall ti ai,
       next_index is_tanker (map prioritise allocs) = Some ti ->
       next_index for_alpha (map prioritise allocs) = Some ai ->
       exists x,
         nth_error out ti = Some x
         /\ is_tanker x = true /\ for_alpha x = true.
Proof.
  intros out. unfold out. clear out.
  assert (Hid : map asset_id (map prioritise allocs)
                = map QuantumResourceSolver.asset_id allocs)
    by (rewrite map_map; reflexivity).
  assert (Hco : map coords (map prioritise allocs)
                = map QuantumResourceSolver.coords allocs)
    by (rewrite map_map; reflexivity).
  assert (Hta : map target (map prioritise allocs)
                = map QuantumResourceSolver.target allocs)
    by (rewrite map_map; reflexivity).
  pose proof (strategic_sort_cases allocs) as Hcases. cbv zeta in Hcases.
  remember (map prioritise allocs) as listed eqn:Hlisted. clear Hlisted.
  destruct Hcases
    as [[Hsame ->]
       | (ti & ai & tanker & alpha & Hti & Hai & Hne & Htanker & Halpha
          & Htest & Htest' & ->)]; cbv zeta.
  - split; [exact Hid |]. split; [exact Hco |]. split; [reflexivity |].
    split; [now rewrite Hta |].
    intros ti ai Hti Hai.
    destruct (next_index_spec _ _ _ Hti) as (x & Hx & Htest).
    exists x. split; [exact Hx |]. split; [exact Htest |].
    assert (ai = ti) as ->
      by (destruct Hsame as [H | [H | H]]; congruence).
    destruct (next_index_spec _ _ _ Hai) as (x' & Hx' & Htest').
    congruence.
  - rewrite !map_set_target by reflexivity.
    split; [exact Hid |]. split; [exact Hco |]. split; [reflexivity |].
    split.
    + rewrite <- Hta.
      apply (exchange_permutation _ _ ti ai (target tanker) (target alpha)).
      * now rewrite nth_error_map, Htanker.
      * now rewrite nth_error_map, Halpha.
      * intros k. rewrite !nth_error_map, !nth_error_set_target.
        destruct (nth_error listed k) as [x |] eqn:Hx;
          cbn [option_map].
        -- destruct (Nat.eqb k ti) eqn:Hkt, (Nat.eqb k ai) eqn:Hka;
             cbn [target]; try reflexivity.
           apply Nat.eqb_eq in Hkt, Hka. congruence.
        -- destruct (Nat.eqb k ti) eqn:Hkt;
             [apply Nat.eqb_eq in Hkt; congruence |].
           destruct (Nat.eqb k ai) eqn:Hka;
             [apply Nat.eqb_eq in Hka; congruence | reflexivity].
    + intros ti' ai' Hti' Hai'.
      assert (ti' = ti) as -> by congruence.
      rewrite !nth_error_set_target, Htanker. cbn [option_map].
      rewrite Nat.eqb_refl.
      destruct (Nat.eqb ti ai) eqn:Heq;
        [apply Nat.eqb_eq in Heq; contradiction |].
      eexists. split; [reflexivity |]. split; assumption.
Qed.

(** *** A press of the button *)


Section Button.
Context {cv2 : OpenCV}.

(** What a plan that [analyze_tactics] returns is made of. *)
Lemma analyze_tactics_some (self : engine) (fire_mask : frame)
  (wind_speed wind_dir : R) (plan : tactics) :
  analyze_tactics self fire_mask wind_speed wind_dir = Return (Some plan) ->
  exists largest alpha bravo charlie,
    In largest (findContours fire_mask)
    /\ targets plan = AllocatorVocabulary.tactical_targets alpha bravo charlie
    /\ fire_perimeter_gps plan
       = map (fun '(x, y) => get_lat_lon self x y) (stride 5 largest).
Proof.
  unfold analyze_tactics.
  destruct (findContours fire_mask) as [| first rest] eqn:Hfind;
    [discriminate |].
  destruct (Req_dec_T _ 0); [discriminate |].
  repeat match goal with
         | |- context [bind ?m _] =>
             destruct m; cbn [bind]; [| discriminate]
         end.
  intros [= <-]. cbn [targets fire_perimeter_gps].
  eexists _, _, _, _. split; [| split; reflexivity].
  apply TacticsProperties.max_by_spec.
Qed.

(** X23 (the first column is refused).  On a raster with an invertible
    transform, aim the session at the centre of a pixel of column 0 that
    lies inside the raster: the lookup finds the pixel, and yet the button
    shows "Out of bounds." and leaves the session and the solver as they
    were, because [if px:] takes the column number 0 for false. *)
Theorem first_column_out_of_bounds (self : engine) (t : Affine) (y : Z)
  (quantum : QuantumResourceSolver.solver) (st : session_state)
  (new_ws : R) (new_wd dur : Z)
  (rand : nat -> nat -> nat -> R) (uniform : nat -> Q) :
  transform self = Some t ->
  a t * e t - b t * d t <> 0 ->
  in_bounds self 0 y ->
  lat_input st = fst (get_lat_lon self 0 y) ->
  lon_input st = snd (get_lat_lon self 0 y) ->
  execute_simulation (Some self) quantum st new_ws new_wd dur rand uniform
  = {| session := st;
       quantum := quantum;
       shown := Return (Some (error "Out of bounds.")) |}.
Proof.
  intros Ht Hdet Hin Hlat Hlon. unfold execute_simulation.
  rewrite Hlat, Hlon.
  rewrite (GeoProperties.get_pixel_of_get_lat_lon self t 0 y Ht Hdet Hin).
  reflexivity.
Qed.

End Button.

Section Run.
Context {cv2 : OpenCV}.

(** A press of the button on a pixel outside the first column, when the
    analysis returns. *)
Lemma execute_simulation_run (self : engine)
  (solver : QuantumResourceSolver.solver) (st : session_state)
  (new_ws : R) (new_wd dur : Z)
  (rand : nat -> nat -> nat -> R) (uniform : nat -> Q)
  (px py : Z) (found : option tactics) :
  get_pixel_from_gps self (lat_input st) (lon_input st) = Some (px, py) ->
  px <> 0%Z ->
  analyze_tactics self
    (last (frames (run_simulation self px py (live_wind_speed st)
                                  (live_wind_dir st) dur rand)) [])
    new_ws (IZR new_wd)
  = Return found ->
  let r := execute_simulation (Some self) solver st new_ws new_wd dur rand
                              uniform in
  shown r = Return (Some (success "Done."))
  /\ sim_active (session r) = true
  /\ sim_frames (session r)
     = frames (run_simulation self px py (live_wind_speed st)
                              (live_wind_dir st) dur rand)
  /\ sim_tactics (session r) = found
  /\ match found with
     | Some plan =>
         sim_allocations (session r)
         = Some (strategic_sort
                   (fst (QuantumResourceSolver.optimize_response
                           solver (targets plan) uniform)))
         /\ quantum r = QuantumResourceSolver.__init__
     | None =>
         sim_allocations (session r) = sim_allocations st
         /\ quantum r = solver
     end.
Proof.
  intros Hpixel Hpx Hplan r. unfold r, execute_simulation.
  rewrite Hpixel.
  destruct (px =? 0)%Z eqn:Hzero; [apply Z.eqb_eq in Hzero; contradiction |].
  cbn [negb]. rewrite Hplan.
  destruct found as [plan |]; cbn; repeat split; reflexivity.
Qed.

End Run.

(** The sort leaves the answer for the three labels as it is. *)
Lemma strategic_sort_tactical (alpha bravo charlie : Z * Z) (g1 g2 : string) :
  In g1 AllocatorVocabulary.ground_crews ->
  In g2 AllocatorVocabulary.ground_crews ->
  strategic_sort
    [ {| QuantumResourceSolver.asset_id := "TANKER-01";
         QuantumResourceSolver.target := "Alpha Head";
         QuantumResourceSolver.coords := alpha |};
      {| QuantumResourceSolver.asset_id := g1;
         QuantumResourceSolver.target := "Bravo Flank";
         QuantumResourceSolver.coords := bravo |};
      {| QuantumResourceSolver.asset_id := g2;
         QuantumResourceSolver.target := "Charlie Flank";
         QuantumResourceSolver.coords := charlie |} ]
  = [ {| asset_id := "TANKER-01"; target := "Alpha Head"; coords := alpha;
         priority := 1 |};
      {| asset_id := g1; target := "Bravo Flank"; coords := bravo;
         priority := 2 |};
      {| asset_id := g2; target := "Charlie Flank"; coords := charlie;
         priority := 2 |} ].
Proof.
  unfold AllocatorVocabulary.ground_crews. cbn [In].
  intros [<- | [<- | [<- | []]]] [<- | [<- | [<- | []]]]; reflexivity.
Qed.

Section Pipeline.
Context {cv2 : OpenCV}.

(** What the button leaves when the analysis finds a plan and the draws
    are in range. *)
Lemma execute_simulation_plan (self : engine) (st : session_state)
  (new_ws : R) (new_wd dur : Z)
  (rand : nat -> nat -> nat -> R) (uniform : nat -> Q)
  (px py : Z) (plan : tactics) :
  get_pixel_from_gps self (lat_input st) (lon_input st) = Some (px, py) ->
  px <> 0%Z ->
  analyze_tactics self
    (last (frames (run_simulation self px py (live_wind_speed st)
                                  (live_wind_dir st) dur rand)) [])
    new_ws (IZR new_wd)
  = Return (Some plan) ->
  AllocatorVocabulary.in_range uniform ->
  let r := execute_simulation (Some self) QuantumResourceSolver.__init__ st
                              new_ws new_wd dur rand uniform in
  exists alpha bravo charlie g1 g2,
    targets plan = AllocatorVocabulary.tactical_targets alpha bravo charlie
    /\ shown r = Return (Some (success "Done."))
    /\ quantum r = QuantumResourceSolver.__init__
    /\ sim_active (session r) = true
    /\ sim_tactics (session r) = Some plan
    /\ sim_allocations (session r)
       = Some [ {| asset_id := "TANKER-01"; target := "Alpha Head";
                   coords := alpha; priority := 1 |};
                {| asset_id := g1; target := "Bravo Flank";
                   coords := bravo; priority := 2 |};
                {| asset_id := g2; target := "Charlie Flank";
                   coords := charlie; priority := 2 |} ]
    /\ In g1 AllocatorVocabulary.ground_crews
    /\ In g2 AllocatorVocabulary.ground_crews
    /\ g1 <> g2.
Proof.
  intros Hpixel Hpx Hplan Hrange r.
  destruct (execute_simulation_run self QuantumResourceSolver.__init__ st
              new_ws new_wd dur rand uniform px py (Some plan)
              Hpixel Hpx Hplan)
    as (Hshown & Hactive & _ & Htactics & Hallocs & Hquantum).
  fold r in Hshown, Hactive, Htactics, Hallocs, Hquantum.
  destruct (analyze_tactics_some self _ _ _ plan Hplan)
    as (largest & alpha & bravo & charlie & _ & Htargets & _).
  destruct (AllocatorChoice.tactical_answer uniform alpha bravo charlie
              Hrange) as (g1 & g2 & Hanswer & Hg1 & Hg2 & Hne).
  exists alpha, bravo, charlie, g1, g2.
  rewrite Htargets, Hanswer, (strategic_sort_tactical _ _ _ _ _ Hg1 Hg2)
    in Hallocs.
  repeat split; assumption.
Qed.

End Pipeline.

(** *** The deployment manifest *)

Section Manifest.
Context {fp : LogisticsRouter.Float64} {libs : LogisticsRouter.RoadLibraries}.
Import LogisticsRouter.

(** A ground unit goes by road or, failing that, straight. *)
Lemma ground_route_type (logistics : router) (lat_target lon_target : R)
  (asset : string) (perimeter : option (list (R * R))) (r : route) :
  RouterVocabulary.ground asset ->
  calculate_route logistics lat_target lon_target asset perimeter = Return r ->
  type r = "Road (Smart)"%string \/ type r = "Direct (Nav Fail)"%string.
Proof.
  intros Hground. unfold calculate_route.
  destruct (RouterProperties.base_found asset) as [start ->]. cbn [bind].
  unfold RouterVocabulary.ground in Hground. rewrite Hground.
  cbn [SPEEDS getitem String.eqb Ascii.eqb Bool.eqb bind].
  assert (Hdirect :
            _make_direct_route start lat_target lon_target 15.0
                               "Direct (Nav Fail)" = Return r ->
            type r = "Direct (Nav Fail)"%string).
  { destruct (RouterProperties.direct_route_outcome start lat_target
                lon_target 15.0 "Direct (Nav Fail)")
      as [(dist & _ & ->) | (_ & ->)]; [| discriminate].
    now intros [= <-]. }
  destruct (usable (graph logistics)) as [g |].
  - destruct (smart_route g start lat_target lon_target perimeter)
      as [r' | e] eqn:Hsmart.
    + intros [= <-]. left.
      now apply RouterProperties.smart_route_type in Hsmart.
    + intros Hr. right. exact (Hdirect Hr).
  - intros Hr. right. exact (Hdirect Hr).
Qed.

(** A row that the loop returns for an entry whose label is a key of the
    targets. *)
Lemma deploy_row (self : engine) (logistics : router)
  (ts : list (string * point)) (loads : list (string * Z))
  (perimeter : option (list (R * R))) (x : SimulationLab.allocation)
  (p : point) (key : string) (row : deployment) :
  getitem ts (target x) = Return p ->
  base_key_of (asset_id x) = key ->
  deploy self logistics ts loads perimeter x = Return row ->
  deployed self (asset_id x) (target x) p key row
  /\ calculate_route logistics (fst (drop row)) (snd (drop row))
                     (asset_id x) perimeter
     = Return (route_data row).
Proof.
  intros Hp Hkey. unfold deploy. rewrite Hp. cbn [bind].
  destruct (get_lat_lon self (fst p) (snd p)) as [t_lat t_lon] eqn:Hdrop.
  destruct (calculate_route logistics t_lat t_lon (asset_id x) perimeter)
    as [r | e] eqn:Hr; cbn [bind]; [| discriminate].
  intros [= <-]. cbn [drop route_data fst snd]. split; [| exact Hr].
  destruct (RouterProperties.base_found (asset_id x)) as [start Hstart].
  destruct (RouterGeometry.calculate_route_from_base logistics t_lat t_lon
              (asset_id x) perimeter start r Hstart Hr)
    as (Horigin & (inner & Hpath) & _).
  destruct (RouterGeometry.path_ends (lat start, lon start) (t_lat, t_lon)
              inner) as (Hhd & Hlast & _).
  split; [reflexivity |]. cbn [drop route_data].
  split; [symmetry; exact Hdrop |].
  exists start. rewrite <- Hkey, Hpath. repeat split; assumption.
Qed.

(** One pass of the loop returns a row or raises the [ValueError] of the
    distance. *)
Lemma deploy_outcome (self : engine) (logistics : router)
  (ts : list (string * point)) (loads : list (string * Z))
  (perimeter : option (list (R * R))) (x : SimulationLab.allocation)
  (p : point) :
  getitem ts (target x) = Return p ->
  (exists row, deploy self logistics ts loads perimeter x = Return row)
  \/ deploy self logistics ts loads perimeter x = Raise ValueError.
Proof.
  intros Hp. unfold deploy. rewrite Hp. cbn [bind].
  destruct (get_lat_lon self (fst p) (snd p)) as [t_lat t_lon].
  destruct (RouterGeometry.calculate_route_outcome logistics t_lat t_lon
              (asset_id x) perimeter) as [[r ->] | ->]; cbn [bind].
  - left. eexists. reflexivity.
  - now right.
Qed.

Lemma ground_crew_base (g : string) :
  In g AllocatorVocabulary.ground_crews ->
  RouterVocabulary.ground g /\ base_key_of g = g.
Proof.
  unfold AllocatorVocabulary.ground_crews. cbn [In].
  intros [<- | [<- | [<- | []]]]; split; reflexivity.
Qed.

End Manifest.

(** Without rounding every pass of the loop returns a row. *)
Lemma deploy_returns {libs : LogisticsRouter.RoadLibraries} (self : engine)
  (logistics : LogisticsRouter.router)
  (ts : list (string * point)) (loads : list (string * Z))
  (perimeter : option (list (R * R))) (x : SimulationLab.allocation)
  (p : point) :
  LogisticsRouter.getitem ts (target x) = Return p ->
  exists row,
    @deploy RouterVocabulary.exact_arithmetic libs self logistics ts loads
      perimeter x
    = Return row.
Proof.
  intros Hp.
  destruct (@deploy_outcome RouterVocabulary.exact_arithmetic libs self
              logistics ts loads perimeter x p Hp) as [Hrow | Hraise];
    [exact Hrow | exfalso].
  revert Hraise. unfold deploy. rewrite Hp. cbn [bind].
  destruct (get_lat_lon self (fst p) (snd p)) as [t_lat t_lon].
  destruct (LogisticsRouter.calculate_route logistics t_lat t_lon
              (asset_id x) perimeter) as [r | e] eqn:Hr;
    cbn [bind]; [discriminate |].
  intros _.
  destruct (RouterProperties.base_found (asset_id x)) as [start Hstart].
  destruct (RouterGeometry.calculate_route_raises logistics t_lat t_lon
              (asset_id x) perimeter start e Hstart Hr) as [_ Hraise].
  destruct (RouterProperties.haversine_returns
              (LogisticsRouter.lat start) (LogisticsRouter.lon start)
              t_lat t_lon) as [dist Hdist].
  rewrite Hdist in Hraise. discriminate.
Qed.

Section Tabs.
Context {cv2 : OpenCV} {fp : LogisticsRouter.Float64}
        {libs : LogisticsRouter.RoadLibraries}.

(** X27 (the manifest of a run).  After a press of the button that found
    a plan, with draws in [-5, 5], the session lists TANKER-01 on Alpha
    and two different ground crews on Bravo and Charlie.  The manifest
    either has three rows or ends on the [ValueError] of a distance; it
    raises neither [KeyError] nor [TypeError].  When it has its rows,
    TANKER-01 flies "Air Direct" from the base filed under "TANKER" to the
    centre of the Alpha pixel; the two ground crews leave the bases filed
    under their own ids for the centres of the Bravo and Charlie pixels, by
    road or, failing that, straight; every path starts on its base and ends
    on its drop point.  Without rounding the manifest always has its three
    rows. *)
Theorem deployment_manifest_routes (self : engine)
  (logistics : LogisticsRouter.router) (st : session_state)
  (new_ws : R) (new_wd dur : Z)
  (rand : nat -> nat -> nat -> R) (uniform : nat -> Q)
  (px py : Z) (plan : tactics) :
  get_pixel_from_gps self (lat_input st) (lon_input st) = Some (px, py) ->
  px <> 0%Z ->
  analyze_tactics self
    (last (frames (run_simulation self px py (live_wind_speed st)
                                  (live_wind_dir st) dur rand)) [])
    new_ws (IZR new_wd)
  = Return (Some plan) ->
  AllocatorVocabulary.in_range uniform ->
  let r := execute_simulation (Some self) QuantumResourceSolver.__init__ st
                              new_ws new_wd dur rand uniform in
  exists alpha bravo charlie g1 g2,
    targets plan = AllocatorVocabulary.tactical_targets alpha bravo charlie
    /\ In g1 AllocatorVocabulary.ground_crews
    /\ In g2 AllocatorVocabulary.ground_crews
    /\ g1 <> g2
    /\ match deployment_manifest self logistics (session r) with
       | Rendered rows =>
           exists d1 d2 d3,
             rows = [d1; d2; d3]
             /\ deployed self "TANKER-01" "Alpha Head" alpha "TANKER" d1
             /\ LogisticsRouter.type (route_data d1) = "Air Direct"%string
             /\ deployed self g1 "Bravo Flank" bravo g1 d2
             /\ deployed self g2 "Charlie Flank" charlie g2 d3
             /\ (forall d, In d [d2; d3] ->
                   LogisticsRouter.type (route_data d)
                   = "Road (Smart)"%string
                   \/ LogisticsRouter.type (route_data d)
                      = "Direct (Nav Fail)"%string)
       | Crashed err => err = Engine ValueError
       end
    /\ exists d1 d2 d3,
         @deployment_manifest RouterVocabulary.exact_arithmetic libs self
           logistics (session r)
         = Rendered [d1; d2; d3].
Proof.
  intros Hpixel Hpx Hplan Hrange r.
  destruct (execute_simulation_plan self st new_ws new_wd dur rand uniform
              px py plan Hpixel Hpx Hplan Hrange)
    as (alpha & bravo & charlie & g1 & g2 & Htargets & _ & _ & Hactive
        & Htactics & Hallocs & Hg1 & Hg2 & Hne).
  fold r in Hactive, Htactics, Hallocs.
  destruct (ground_crew_base g1 Hg1) as [Hground1 Hkey1].
  destruct (ground_crew_base g2 Hg2) as [Hground2 Hkey2].
  set (loads := sector_loads (metrics plan)).
  set (perimeter := Some (fire_perimeter_gps plan)).
  set (x1 := {| asset_id := "TANKER-01"; target := "Alpha Head";
                coords := alpha; priority := 1 |}).
  set (x2 := {| asset_id := g1; target := "Bravo Flank";
                coords := bravo; priority := 2 |}).
  set (x3 := {| asset_id := g2; target := "Charlie Flank";
                coords := charlie; priority := 2 |}).
  assert (Hp1 : LogisticsRouter.getitem (targets plan) (target x1)
                = Return alpha) by (rewrite Htargets; reflexivity).
  assert (Hp2 : LogisticsRouter.getitem (targets plan) (target x2)
                = Return bravo) by (rewrite Htargets; reflexivity).
  assert (Hp3 : LogisticsRouter.getitem (targets plan) (target x3)
                = Return charlie) by (rewrite Htargets; reflexivity).
  exists alpha, bravo, charlie, g1, g2.
  split; [exact Htargets |]. split; [exact Hg1 |]. split; [exact Hg2 |].
  split; [exact Hne |]. split.
  - unfold deployment_manifest. rewrite Hactive, Hallocs, Htactics.
    fold loads. fold perimeter. fold x1 x2 x3.
    cbn [LogisticsRouter.map_result].
    destruct (deploy_outcome self logistics (targets plan) loads perimeter
                x1 alpha Hp1) as [[d1 Hd1] | Hd1]; rewrite Hd1;
      cbn [bind]; [| reflexivity].
    destruct (deploy_outcome self logistics (targets plan) loads perimeter
                x2 bravo Hp2) as [[d2 Hd2] | Hd2]; rewrite Hd2;
      cbn [bind]; [| reflexivity].
    destruct (deploy_outcome self logistics (targets plan) loads perimeter
                x3 charlie Hp3) as [[d3 Hd3] | Hd3]; rewrite Hd3;
      cbn [bind]; [| reflexivity].
    destruct (deploy_row self logistics (targets plan) loads perimeter
                x1 alpha "TANKER" d1 Hp1 eq_refl Hd1)
      as [Hdeployed1 Hroute1].
    destruct (deploy_row self logistics (targets plan) loads perimeter
                x2 bravo g1 d2 Hp2 Hkey1 Hd2) as [Hdeployed2 Hroute2].
    destruct (deploy_row self logistics (targets plan) loads perimeter
                x3 charlie g2 d3 Hp3 Hkey2 Hd3) as [Hdeployed3 Hroute3].
    cbn [asset_id target x1 x2 x3] in *.
    exists d1, d2, d3. split; [reflexivity |].
    split; [exact Hdeployed1 |]. split.
    { destruct (RouterProperties.base_found "TANKER-01") as [start Hstart].
      rewrite (RouterGeometry.air_route logistics _ _ "TANKER-01" perimeter
                 start RouterGeometry.tanker_air Hstart) in Hroute1.
      destruct (RouterProperties.direct_route_outcome start
                  (fst (drop d1)) (snd (drop d1)) 250.0 "Air Direct")
        as [(dist & _ & Hdirect) | (_ & Hdirect)];
        rewrite Hdirect in Hroute1; [| discriminate].
      injection Hroute1 as <-. reflexivity. }
    split; [exact Hdeployed2 |]. split; [exact Hdeployed3 |].
    intros d [<- | [<- | []]].
    + exact (ground_route_type logistics _ _ g1 perimeter _ Hground1
               Hroute2).
    + exact (ground_route_type logistics _ _ g2 perimeter _ Hground2
               Hroute3).
  - unfold deployment_manifest. rewrite Hactive, Hallocs, Htactics.
    fold loads. fold perimeter. fold x1 x2 x3.
    cbn [LogisticsRouter.map_result].
    destruct (deploy_returns self logistics (targets plan) loads perimeter
                x1 alpha Hp1) as [d1 ->].
    destruct (deploy_returns self logistics (targets plan) loads perimeter
                x2 bravo Hp2) as [d2 ->].
    destruct (deploy_returns self logistics (targets plan) loads perimeter
                x3 charlie Hp3) as [d3 ->].
    exists d1, d2, d3. reflexivity.
Qed.

(** X28 (allocations of an earlier run).  When the analysis of a run
    returns [None], the button still shows "Done.", empties the plan of
    the session and leaves the allocations of the earlier run in it; the
    third tab then reads the targets of a plan that is [None] and raises
    [TypeError]. *)
Theorem stale_allocations_crash (self : engine)
  (logistics : LogisticsRouter.router) (st : session_state)
  (solver : QuantumResourceSolver.solver)
  (new_ws : R) (new_wd dur : Z)
  (rand : nat -> nat -> nat -> R) (uniform : nat -> Q)
  (px py : Z) (first : allocation) (rest : list allocation) :
  get_pixel_from_gps self (lat_input st) (lon_input st) = Some (px, py) ->
  px <> 0%Z ->
  analyze_tactics self
    (last (frames (run_simulation self px py (live_wind_speed st)
                                  (live_wind_dir st) dur rand)) [])
    new_ws (IZR new_wd)
  = Return None ->
  sim_allocations st = Some (first :: rest) ->
  let r := execute_simulation (Some self) solver st new_ws new_wd dur rand
                              uniform in
  shown r = Return (Some (success "Done."))
  /\ sim_tactics (session r) = None
  /\ sim_allocations (session r) = Some (first :: rest)
  /\ deployment_manifest self logistics (session r) = Crashed TypeError.
Proof.
  intros Hpixel Hpx Hplan Hstale r.
  destruct (execute_simulation_run self solver st new_ws new_wd dur rand
              uniform px py None Hpixel Hpx Hplan)
    as (Hshown & Hactive & _ & Htactics & Hallocs & _).
  fold r in Hshown, Hactive, Htactics, Hallocs.
  rewrite Hstale in Hallocs.
  split; [exact Hshown |]. split; [exact Htactics |].
  split; [exact Hallocs |].
  unfold deployment_manifest. now rewrite Hactive, Hallocs, Htactics.
Qed.

End Tabs.

(** *** Witness material *)

Lemma georeferenced_bounds (h w : nat) (hazard : R) (x y : Z) :
  (0 <= x < Z.of_nat w)%Z -> (0 <= y < Z.of_nat h)%Z ->
  in_bounds (georeferenced_engine h w hazard) x y.
Proof.
  intros Hx Hy. unfold in_bounds, shape0, shape1.
  cbn [georeferenced_engine risk_grid].
  destruct h as [| h]; [lia |].
  cbn [repeat hd]. rewrite !repeat_length. cbn [List.length].
  rewrite repeat_length. lia.
Qed.

Lemma aimed_pixel (h w : nat) (hazard : R) (x y : Z)
  (allocs : option (list allocation)) :
  (0 <= x < Z.of_nat w)%Z -> (0 <= y < Z.of_nat h)%Z ->
  let self := georeferenced_engine h w hazard in
  get_pixel_from_gps self (lat_input (aimed self x y allocs))
                     (lon_input (aimed self x y allocs))
  = Some (x, y).
Proof.
  intros Hx Hy self. cbn [aimed lat_input lon_input].
  apply (GeoProperties.get_pixel_of_get_lat_lon self north_up x y).
  - reflexivity.
  - exact GeoProperties.north_up_invertible.
  - now apply georeferenced_bounds.
Qed.

(** At bearing 90 the analysis of the ellipse returns a plan, whatever the
    engine and the mask. *)
Lemma analyze_tactics_ellipse (self : engine) (fire_mask : frame)
  (wind_speed : R) :
  exists plan,
    @analyze_tactics ellipse_cv2 self fire_mask wind_speed 90
    = Return (Some plan).
Proof.
  unfold analyze_tactics.
  cbn [findContours contourArea moments arcLength ellipse_cv2 max_by fold_left
       m00 m10 m01].
  destruct (Req_dec_T 54 0) as [Hbad | _]; [exfalso; lra |].
  destruct (FireProperties.argmax_project
              (int (324 / 54)) (int (162 / 54))
              (cos (radians (90 - 90))) (sin (radians (90 - 90))) ellipse)
    as (ka & -> & _); [discriminate |].
  destruct (TacticsProperties.argmin_project
              (int (324 / 54)) (int (162 / 54))
              (- sin (radians (90 - 90))) (cos (radians (90 - 90))) ellipse)
    as (kb & -> & _); [discriminate |].
  destruct (FireProperties.argmax_project
              (int (324 / 54)) (int (162 / 54))
              (- sin (radians (90 - 90))) (cos (radians (90 - 90))) ellipse)
    as (kc & -> & _); [discriminate |].
  cbn [bind]. eexists. reflexivity.
Qed.

Lemma analyze_tactics_speck (self : engine) (fire_mask : frame)
  (wind_speed wind_dir : R) :
  @analyze_tactics speck_cv2 self fire_mask wind_speed wind_dir = Return None.
Proof.
  unfold analyze_tactics.
  cbn [findContours contourArea moments speck_cv2 max_by fold_left m00].
  destruct (Req_dec_T 0 0) as [_ | Hbad]; [reflexivity | now elim Hbad].
Qed.

(** *** The playback clock *)

(** X26 (the playback clock).  The slider of the playback starts on the
    last frame; for a run of [d] hours, [d] not negative, its label is
    "T+dd:00": the ten minutes per frame of the label agree with the six
    steps per hour of the simulation. *)
Theorem playback_clock (self : engine) (start_x start_y : Z)
  (wind_speed wind_dir : R) (duration_hours : Z)
  (rand : nat -> nat -> nat -> R) :
  (0 <= duration_hours)%Z ->
  let f := frames (run_simulation self start_x start_y wind_speed wind_dir
                                  duration_hours rand) in
  time_label (List.length f - 1)
  = ("T+" ++ format_02d (Z.to_nat duration_hours) ++ ":00")%string.
Proof.
  intros Hd f. unfold f. rewrite FireProperties.frame_count.
  rewrite Z2Nat.inj_mul by lia.
  change (Z.to_nat 6) with 6%nat.
  replace (S (Z.to_nat duration_hours * 6) - 1)%nat
    with (Z.to_nat duration_hours * 6)%nat by lia.
  unfold time_label.
  replace (Z.to_nat duration_hours * 6 * 10)%nat
    with (Z.to_nat duration_hours * 60)%nat by lia.
  rewrite Nat.div_mul by lia. rewrite Nat.Div0.mod_mul.
  reflexivity.
Qed.

Lemma playback_clock_witness :
  (0 <= 6)%Z
  /\ time_label
       (List.length
          (frames (run_simulation (uniform_engine 12 16 0.8) 5 5 15 90 6
                                  half_draws)) - 1)
     = "T+06:00"%string.
Proof.
  assert (Hd : (0 <= 6)%Z) by lia.
  split; [exact Hd |].
  exact (playback_clock (uniform_engine 12 16 0.8) 5 5 15 90 6 half_draws Hd).
Defined.

(** *** Small fires *)

Section Perimeter.
Context {cv2 : OpenCV} {fp : LogisticsRouter.Float64}
        {libs : LogisticsRouter.RoadLibraries}.

(** X22 (small fires make no detour).  When no contour of the mask has
    more than 15 vertices, the perimeter that [analyze_tactics] returns has
    three vertices at most, and [calculate_route] given this perimeter as
    obstacle returns what it returns without obstacle. *)
Theorem small_fire_no_detour (self : engine) (fire_mask : frame)
  (wind_speed wind_dir : R) (plan : tactics)
  (logistics : LogisticsRouter.router) (lat_target lon_target : R)
  (asset : string) :
  analyze_tactics self fire_mask wind_speed wind_dir = Return (Some plan) ->
  (forall c, In c (findContours fire_mask) -> (List.length c <= 15)%nat) ->
  (List.length (fire_perimeter_gps plan) <= 3)%nat
  /\ LogisticsRouter.calculate_route logistics lat_target lon_target asset
       (Some (fire_perimeter_gps plan))
     = LogisticsRouter.calculate_route logistics lat_target lon_target asset
         None.
Proof.
  intros Hplan Hsmall.
  destruct (analyze_tactics_some self fire_mask wind_speed wind_dir plan
              Hplan)
    as (largest & _ & _ & _ & Hin & _ & Hgps).
  assert (Hlen : (List.length (fire_perimeter_gps plan) <= 3)%nat).
  { rewrite Hgps, length_map, TacticsProperties.stride_length.
    specialize (Hsmall largest Hin).
    assert ((List.length largest + 4) / 5 < 4)%nat
      by (apply Nat.Div0.div_lt_upper_bound; lia).
    now apply Nat.lt_succ_r. }
  split; [exact Hlen |].
  apply RouterGeometry.calculate_route_harmless.
  intros g _. left. exact Hlen.
Qed.

End Perimeter.

Lemma ellipse_small :
  forall c, In c (@findContours ellipse_cv2 []) -> (List.length c <= 15)%nat.
Proof. intros c [<- | []]. cbn. lia. Qed.

Lemma small_fire_no_detour_witness :
  exists plan,
    @analyze_tactics ellipse_cv2 (georeferenced_engine 600 800 0.8) [] 15 90
    = Return (Some plan)
    /\ (forall c, In c (@findContours ellipse_cv2 []) ->
                  (List.length c <= 15)%nat)
    /\ (List.length (fire_perimeter_gps plan) <= 3)%nat
    /\ @LogisticsRouter.calculate_route RouterVocabulary.exact_arithmetic
         RouterVocabulary.failing_libraries
         RouterVocabulary.one_node_router 19.1 (-104.3) "ENGINE-A"
         (Some (fire_perimeter_gps plan))
       = @LogisticsRouter.calculate_route RouterVocabulary.exact_arithmetic
           RouterVocabulary.failing_libraries
           RouterVocabulary.one_node_router 19.1 (-104.3) "ENGINE-A" None.
Proof.
  destruct (analyze_tactics_ellipse (georeferenced_engine 600 800 0.8) [] 15)
    as [plan Hplan].
  exists plan. split; [exact Hplan |]. split; [exact ellipse_small |].
  exact (@small_fire_no_detour ellipse_cv2 RouterVocabulary.exact_arithmetic
           RouterVocabulary.failing_libraries
           (georeferenced_engine 600 800 0.8) [] 15 90 plan
           RouterVocabulary.one_node_router 19.1 (-104.3) "ENGINE-A"
           Hplan ellipse_small).
Defined.

(** *** Witnesses *)

Lemma first_column_out_of_bounds_witness :
  transform (georeferenced_engine 600 800 0.8) = Some north_up
  /\ a north_up * e north_up - b north_up * d north_up <> 0
  /\ in_bounds (georeferenced_engine 600 800 0.8) 0 5
  /\ @execute_simulation ellipse_cv2
       (Some (georeferenced_engine 600 800 0.8))
       QuantumResourceSolver.__init__
       (aimed (georeferenced_engine 600 800 0.8) 0 5 None)
       15 90 6 half_draws AllocatorVocabulary.no_noise
     = {| session := aimed (georeferenced_engine 600 800 0.8) 0 5 None;
          quantum := QuantumResourceSolver.__init__;
          shown := Return (Some (error "Out of bounds.")) |}.
Proof.
  assert (Hin : in_bounds (georeferenced_engine 600 800 0.8) 0 5)
    by (apply georeferenced_bounds; lia).
  split; [reflexivity |]. split; [exact GeoProperties.north_up_invertible |].
  split; [exact Hin |].
  exact (@first_column_out_of_bounds ellipse_cv2
           (georeferenced_engine 600 800 0.8) north_up 5
           QuantumResourceSolver.__init__
           (aimed (georeferenced_engine 600 800 0.8) 0 5 None)
           15 90 6 half_draws AllocatorVocabulary.no_noise
           eq_refl GeoProperties.north_up_invertible Hin eq_refl eq_refl).
Defined.

(** X25 (what a press of the button leaves).  On a pixel outside column
    0, when the analysis of the last frame finds a plan and the draws are
    in [-5, 5], the button shows "Done.", puts the roster back in the
    solver and stores the plan and three allocations: TANKER-01 on Alpha
    Head with priority 1, then two different ground crews on the flanks
    with priority 2, each with the pixel of its own target.  The exchange
    of targets never applies to the answer of the solver. *)
Theorem execute_simulation_allocations {cv2 : OpenCV} (self : engine)
  (st : session_state) (new_ws : R) (new_wd dur : Z)
  (rand : nat -> nat -> nat -> R) (uniform : nat -> Q)
  (px py : Z) (plan : tactics) :
  get_pixel_from_gps self (lat_input st) (lon_input st) = Some (px, py) ->
  px <> 0%Z ->
  analyze_tactics self
    (last (frames (run_simulation self px py (live_wind_speed st)
                                  (live_wind_dir st) dur rand)) [])
    new_ws (IZR new_wd)
  = Return (Some plan) ->
  AllocatorVocabulary.in_range uniform ->
  let r := execute_simulation (Some self) QuantumResourceSolver.__init__ st
                              new_ws new_wd dur rand uniform in
  exists alpha bravo charlie g1 g2,
    targets plan = AllocatorVocabulary.tactical_targets alpha bravo charlie
    /\ shown r = Return (Some (success "Done."))
    /\ quantum r = QuantumResourceSolver.__init__
    /\ sim_active (session r) = true
    /\ sim_tactics (session r) = Some plan
    /\ sim_allocations (session r)
       = Some [ {| asset_id := "TANKER-01"; target := "Alpha Head";
                   coords := alpha; priority := 1 |};
                {| asset_id := g1; target := "Bravo Flank";
                   coords := bravo; priority := 2 |};
                {| asset_id := g2; target := "Charlie Flank";
                   coords := charlie; priority := 2 |} ]
    /\ In g1 AllocatorVocabulary.ground_crews
    /\ In g2 AllocatorVocabulary.ground_crews
    /\ g1 <> g2.
Proof.
  intros Hpixel Hpx Hplan Hrange r.
  destruct (execute_simulation_plan self st new_ws new_wd dur rand uniform
              px py plan Hpixel Hpx Hplan Hrange)
    as (alpha & bravo & charlie & g1 & g2 & H).
  exists alpha, bravo, charlie, g1, g2. exact H.
Qed.

(** The run of the witnesses: the ellipse is found on the last frame of an
    hour of fire lit on pixel (5, 5). *)
Lemma ellipse_run :
  let self := georeferenced_engine 600 800 0.8 in
  let st := aimed self 5 5 None in
  get_pixel_from_gps self (lat_input st) (lon_input st) = Some (5, 5)%Z
  /\ exists plan,
       @analyze_tactics ellipse_cv2 self
         (last (frames (run_simulation self 5 5 (live_wind_speed st)
                                       (live_wind_dir st) 1 half_draws)) [])
         15 (IZR 90)
       = Return (Some plan).
Proof.
  intros self st. split.
  - apply (aimed_pixel 600 800 0.8 5 5 None); lia.
  - apply analyze_tactics_ellipse.
Qed.

Lemma five_not_zero : 5%Z <> 0%Z.
Proof. discriminate. Qed.

Lemma execute_simulation_allocations_witness :
  let self := georeferenced_engine 600 800 0.8 in
  let st := aimed self 5 5 None in
  get_pixel_from_gps self (lat_input st) (lon_input st) = Some (5, 5)%Z
  /\ 5%Z <> 0%Z
  /\ AllocatorVocabulary.in_range AllocatorVocabulary.no_noise
  /\ exists plan,
       @analyze_tactics ellipse_cv2 self
         (last (frames (run_simulation self 5 5 (live_wind_speed st)
                                       (live_wind_dir st) 1 half_draws)) [])
         15 (IZR 90)
       = Return (Some plan)
       /\ exists alpha bravo charlie g1 g2,
            sim_allocations
              (session (@execute_simulation ellipse_cv2 (Some self)
                          QuantumResourceSolver.__init__ st 15 90 1
                          half_draws AllocatorVocabulary.no_noise))
            = Some [ {| asset_id := "TANKER-01"; target := "Alpha Head";
                        coords := alpha; priority := 1 |};
                     {| asset_id := g1; target := "Bravo Flank";
                        coords := bravo; priority := 2 |};
                     {| asset_id := g2; target := "Charlie Flank";
                        coords := charlie; priority := 2 |} ].
Proof.
  intros self st.
  destruct ellipse_run as [Hpixel [plan Hplan]].
  split; [exact Hpixel |]. split; [exact five_not_zero |].
  split; [exact AllocatorChoice.no_noise_range |].
  exists plan. split; [exact Hplan |].
  destruct (@execute_simulation_allocations ellipse_cv2 self st 15 90 1
              half_draws AllocatorVocabulary.no_noise 5 5 plan
              Hpixel five_not_zero Hplan AllocatorChoice.no_noise_range)
    as (alpha & bravo & charlie & g1 & g2 & _ & _ & _ & _ & _ & Hallocs & _).
  exists alpha, bravo, charlie, g1, g2. exact Hallocs.
Defined.

Lemma deployment_manifest_routes_witness :
  let self := georeferenced_engine 600 800 0.8 in
  let st := aimed self 5 5 None in
  get_pixel_from_gps self (lat_input st) (lon_input st) = Some (5, 5)%Z
  /\ 5%Z <> 0%Z
  /\ AllocatorVocabulary.in_range AllocatorVocabulary.no_noise
  /\ exists plan,
       @analyze_tactics ellipse_cv2 self
         (last (frames (run_simulation self 5 5 (live_wind_speed st)
                                       (live_wind_dir st) 1 half_draws)) [])
         15 (IZR 90)
       = Return (Some plan)
       /\ exists d1 d2 d3,
            @deployment_manifest RouterVocabulary.exact_arithmetic
              RouterVocabulary.failing_libraries self
              RouterVocabulary.one_node_router
              (session (@execute_simulation ellipse_cv2 (Some self)
                          QuantumResourceSolver.__init__ st 15 90 1
                          half_draws AllocatorVocabulary.no_noise))
            = Rendered [d1; d2; d3]
            /\ LogisticsRouter.type (route_data d1) = "Air Direct"%string.
Proof.
  intros self st.
  destruct ellipse_run as [Hpixel [plan Hplan]].
  split; [exact Hpixel |]. split; [exact five_not_zero |].
  split; [exact AllocatorChoice.no_noise_range |].
  exists plan. split; [exact Hplan |].
  destruct (@deployment_manifest_routes ellipse_cv2
              RouterVocabulary.exact_arithmetic
              RouterVocabulary.failing_libraries self
              RouterVocabulary.one_node_router st 15 90 1
              half_draws AllocatorVocabulary.no_noise 5 5 plan
              Hpixel five_not_zero Hplan AllocatorChoice.no_noise_range)
    as (alpha & bravo & charlie & g1 & g2 & _ & _ & _ & _ & Hmatch
        & (d1 & d2 & d3 & Hrows)).
  cbv zeta in Hmatch, Hrows. rewrite Hrows in Hmatch.
  destruct Hmatch as (d1' & d2' & d3' & Heq & _ & Hair & _).
  injection Heq as -> -> ->.
  exists d1', d2', d3'. split; [exact Hrows | exact Hair].
Defined.

Lemma stale_allocations_crash_witness :
  let self := georeferenced_engine 600 800 0.8 in
  let st := aimed self 5 5 (Some [earlier]) in
  get_pixel_from_gps self (lat_input st) (lon_input st) = Some (5, 5)%Z
  /\ 5%Z <> 0%Z
  /\ @analyze_tactics speck_cv2 self
       (last (frames (run_simulation self 5 5 (live_wind_speed st)
                                     (live_wind_dir st) 1 half_draws)) [])
       15 (IZR 90)
     = Return None
  /\ sim_allocations st = Some [earlier]
  /\ @deployment_manifest RouterVocabulary.exact_arithmetic
       RouterVocabulary.failing_libraries self
       RouterVocabulary.one_node_router
       (session (@execute_simulation speck_cv2 (Some self)
                   QuantumResourceSolver.__init__ st 15 90 1
                   half_draws AllocatorVocabulary.no_noise))
     = Crashed TypeError.
Proof.
  intros self st.
  assert (Hpixel : get_pixel_from_gps self (lat_input st) (lon_input st)
                   = Some (5, 5)%Z)
    by (apply (aimed_pixel 600 800 0.8 5 5 (Some [earlier])); lia).
  split; [exact Hpixel |]. split; [exact five_not_zero |].
  split; [apply analyze_tactics_speck |]. split; [reflexivity |].
  apply (@stale_allocations_crash speck_cv2
           RouterVocabulary.exact_arithmetic
           RouterVocabulary.failing_libraries self
           RouterVocabulary.one_node_router st
           QuantumResourceSolver.__init__ 15 90 1 half_draws
           AllocatorVocabulary.no_noise 5 5 earlier []
           Hpixel five_not_zero (analyze_tactics_speck _ _ _ _) eq_refl).
Defined.

(** *** A raster that cannot be read *)

Section Raster.
Context {cv2 : OpenCV} {libs : LogisticsRouter.RoadLibraries}.

(** X29 (a raster that is missing or cannot be opened).  When the raster
    is missing the page loads no engine and the button shows nothing; when
    the file is there but [rasterio.open] raises on it, the engine has no
    transform and every press of the button shows "Out of bounds.".  In
    both cases the session and the solver stay as they were.  A raster
    that opens but whose band cannot be read is another case: it keeps its
    transform, and is not covered here. *)
Theorem no_run_without_raster (fs : string -> raster_file)
  (roads : LogisticsRouter.graph_file) (RISK_MAP_PATH : string)
  (solver : QuantumResourceSolver.solver) (st : session_state)
  (new_ws : R) (new_wd dur : Z)
  (rand : nat -> nat -> nat -> R) (uniform : nat -> Q) :
  fs RISK_MAP_PATH = Missing \/ fs RISK_MAP_PATH = Unreadable ->
  execute_simulation (fst (fst (load_engines fs roads RISK_MAP_PATH)))
                     solver st new_ws new_wd dur rand uniform
  = {| session := st;
       quantum := solver;
       shown :=
         Return (match fs RISK_MAP_PATH with
                 | Missing => None
                 | _ => Some (error "Out of bounds.")
                 end) |}.
Proof.
  intros Hfile.
  unfold load_engines, execute_simulation, get_pixel_from_gps,
    FireSimulationEngine.__init__.
  destruct Hfile as [-> | ->]; reflexivity.
Qed.

End Raster.

Lemma no_run_without_raster_witness :
  ((fun _ : string => Unreadable) "daily_fire_risk_map.tif"%string = Missing
   \/ (fun _ : string => Unreadable) "daily_fire_risk_map.tif"%string
      = Unreadable)
  /\ @execute_simulation ellipse_cv2
       (fst (fst (@load_engines RouterVocabulary.failing_libraries
                    (fun _ => Unreadable) LogisticsRouter.NoGraphFile
                    "daily_fire_risk_map.tif")))
       QuantumResourceSolver.__init__ new_session 15 225 6 half_draws
       AllocatorVocabulary.no_noise
     = {| session := new_session;
          quantum := QuantumResourceSolver.__init__;
          shown := Return (Some (error "Out of bounds.")) |}.
Proof.
  split; [right; reflexivity |].
  apply (@no_run_without_raster ellipse_cv2 RouterVocabulary.failing_libraries
           (fun _ => Unreadable) LogisticsRouter.NoGraphFile
           "daily_fire_risk_map.tif" QuantumResourceSolver.__init__
           new_session 15 225 6 half_draws AllocatorVocabulary.no_noise).
  right; reflexivity.
Defined.

End LabProperties.

(** * The distance of the allocator *)

Module SolverDistance.
Import QuantumResourceSolver AllocatorVocabulary.
Open Scope R_scope.

Lemma int32_small (z : Z) :
  (- 2 ^ 31 <= z < 2 ^ 31)%Z -> int32 z = z.
Proof.
  intros Hz. unfold int32. rewrite Z.mod_small by lia. lia.
Qed.

Lemma squares_nonneg (u v : Z) : (0 <= u ^ 2 + v ^ 2)%Z.
Proof. nia. Qed.

Lemma squares_zero (u v : Z) : (u ^ 2 + v ^ 2 = 0)%Z -> u = 0%Z /\ v = 0%Z.
Proof. intros H. split; nia. Qed.

Lemma square_small (u : Z) :
  (- 32767 <= u <= 32767)%Z -> (0 <= u ^ 2 <= 1073676289)%Z.
Proof. intros Hu. nia. Qed.

(** Within the bound nothing wraps. *)
Lemma calculate_distance_exact (p1 p2 : Z * Z) :
  pixel16 p1 -> pixel16 p2 ->
  _calculate_distance p1 p2
  = Return (sqrt (IZR ((fst p1 - fst p2) ^ 2 + (snd p1 - snd p2) ^ 2))).
Proof.
  intros [Hx1 Hy1] [Hx2 Hy2]. unfold _calculate_distance.
  pose proof (square_small (fst p1 - fst p2) ltac:(lia)) as Hdx.
  pose proof (square_small (snd p1 - snd p2) ltac:(lia)) as Hdy.
  rewrite (int32_small (fst p1 - fst p2)) by lia.
  rewrite (int32_small (snd p1 - snd p2)) by lia.
  rewrite (int32_small ((fst p1 - fst p2) ^ 2)) by lia.
  rewrite (int32_small ((snd p1 - snd p2) ^ 2)) by lia.
  rewrite int32_small by lia.
  cbv zeta.
  destruct (Rlt_dec _ 0) as [Hneg | _]; [| reflexivity].
  exfalso.
  assert (0 <= IZR ((fst p1 - fst p2) ^ 2 + (snd p1 - snd p2) ^ 2))
    by (apply IZR_le; lia).
  lra.
Qed.

(** X30 (the distance between two pixels).  On two pixels of a raster of
    32767 rows and columns at most, [_calculate_distance] raises nothing:
    no [int32] wraps around, and the result is the Euclidean distance, not
    negative, the same in both directions, zero exactly when the two
    pixels are the same.  Further out the squares wrap around: between
    (46341, 0) and (0, 0) the sum is negative and [math.sqrt] raises
    [ValueError]. *)
Theorem calculate_distance_metric (p1 p2 : Z * Z) :
  pixel16 p1 -> pixel16 p2 ->
  (exists dist,
     _calculate_distance p1 p2 = Return dist
     /\ _calculate_distance p2 p1 = Return dist
     /\ 0 <= dist
     /\ dist * dist = IZR ((fst p1 - fst p2) ^ 2 + (snd p1 - snd p2) ^ 2)
     /\ (dist = 0 <-> p1 = p2))
  /\ _calculate_distance (46341, 0)%Z (0, 0)%Z = Raise ValueError.
Proof.
  intros H1 H2. split.
  - rewrite (calculate_distance_exact p1 p2 H1 H2).
    rewrite (calculate_distance_exact p2 p1 H2 H1).
    destruct p1 as [x1 y1], p2 as [x2 y2]. cbn [fst snd].
    replace ((x2 - x1) ^ 2 + (y2 - y1) ^ 2)%Z
      with ((x1 - x2) ^ 2 + (y1 - y2) ^ 2)%Z by ring.
    set (s := ((x1 - x2) ^ 2 + (y1 - y2) ^ 2)%Z).
    assert (Hs : (0 <= s)%Z) by apply squares_nonneg.
    assert (HsR : 0 <= IZR s) by now apply IZR_le.
    exists (sqrt (IZR s)). split; [reflexivity |]. split; [reflexivity |].
    split; [apply sqrt_pos |]. split; [now apply sqrt_sqrt |]. split.
    + intros Hzero. apply sqrt_eq_0 in Hzero; [| exact HsR].
      apply eq_IZR in Hzero.
      destruct (squares_zero _ _ Hzero) as [Hx Hy].
      f_equal; lia.
    + intros [= -> ->]. unfold s. rewrite !Z.sub_diag. cbn. apply sqrt_0.
  - unfold _calculate_distance. cbn [fst snd].
    change (IZR (int32 (int32 (int32 (46341 - 0) ^ 2) + int32 (int32 (0 - 0) ^ 2))))
      with (IZR (-2147479015)).
    destruct (Rlt_dec (IZR (-2147479015)) 0) as [_ | Hbad]; [reflexivity |].
    exfalso. apply Hbad. lra.
Qed.

Lemma calculate_distance_metric_witness :
  pixel16 (12, 3)%Z /\ pixel16 (9, 7)%Z
  /\ _calculate_distance (12, 3)%Z (9, 7)%Z = Return 5.
Proof.
  assert (H1 : pixel16 (12, 3)%Z) by (unfold pixel16; cbn; lia).
  assert (H2 : pixel16 (9, 7)%Z) by (unfold pixel16; cbn; lia).
  split; [exact H1 |]. split; [exact H2 |].
  destruct (calculate_distance_metric (12, 3)%Z (9, 7)%Z H1 H2)
    as [(dist & -> & _ & Hpos & Hsq & _) _].
  f_equal. cbn in Hsq. nra.
Defined.

End SolverDistance.
